(** * Base-BNPL contracts: a shallow embedding of the accounting core

    The four Solidity contracts (LendingPool, PaymentController, RiskEngine,
    CollateralManager) are modelled as explicit state passing over records.
    [uint256] values are [Z] in [0, 2^256); Solidity 0.8 checked arithmetic
    is written out: an overflow or underflow reverts the whole call.  A call
    returns [Ok] with the new state and the token transfers it performed, or
    [Revert] with the reason string of the failed [require]; a reverted call
    has no effect, so the old state is kept by the caller.  Mappings keyed by
    address are stdpp [gmap]s read with a zero default, as Solidity storage
    mappings are. *)

From Stdlib Require Import ZArith Lia.
From stdpp Require Import base gmap strings list.

Open Scope Z_scope.

(** ** Results of a transaction and checked uint256 arithmetic *)

Inductive result (A : Type) : Type :=
| Ok (a : A)
| Revert (reason : string).
Arguments Ok {A} _.
Arguments Revert {A} _.

Global Instance result_ret : MRet result := λ A a, Ok a.
Global Instance result_bind : MBind result :=
  λ A B f m, match m with Ok a => f a | Revert r => Revert r end.

Definition require (c : bool) (reason : string) : result unit :=
  if c then Ok () else Revert reason.

Definition UINT256_MAX : Z := 2 ^ 256 - 1.

Definition PANIC_ARITH : string := "panic: arithmetic underflow or overflow".
Definition PANIC_DIV : string := "panic: division or modulo by zero".

Definition cadd (a b : Z) : result Z :=
  if a + b <=? UINT256_MAX then Ok (a + b) else Revert PANIC_ARITH.
Definition csub (a b : Z) : result Z :=
  if b <=? a then Ok (a - b) else Revert PANIC_ARITH.
Definition cmul (a b : Z) : result Z :=
  if a * b <=? UINT256_MAX then Ok (a * b) else Revert PANIC_ARITH.
Definition cdiv (a b : Z) : result Z :=
  if b =? 0 then Revert PANIC_DIV else Ok (a / b).

(** A token movement of the settlement asset (USDC): [safeTransfer] and
    [safeTransferFrom] calls, in the order the code issues them. *)
Record Transfer := mkTransfer { t_from : Z; t_to : Z; t_amount : Z }.

(** The transaction context: [msg.sender] and [block.timestamp]. *)
Record Ctx := mkCtx { sender : Z; now : Z }.

(** ** LendingPool *)

Module LendingPool.

Inductive RiskTier := LOW | MEDIUM | HIGH.

Definition RiskTier_eqb (a b : RiskTier) : bool :=
  match a, b with
  | LOW, LOW | MEDIUM, MEDIUM | HIGH, HIGH => true
  | _, _ => false
  end.

Record LenderPosition := mkLenderPosition {
  deposited : Z;
  yieldEarned : Z;
  lastUpdateTime : Z;
  riskTier : RiskTier;
  autoReinvest : bool
}.

(** An unwritten storage slot reads as the all-zero struct. *)
Definition zero_position : LenderPosition := mkLenderPosition 0 0 0 LOW false.

Record PoolStats := mkPoolStats {
  totalLiquidity : Z;
  totalLoaned : Z;
  totalYieldPaid : Z;
  totalDefaulted : Z;
  utilizationRate : Z;
  averageAPY : Z;
  totalLenders : Z;
  totalBorrowers : Z
}.

Record Pool := mkPool {
  self : Z;                                  (* address(this) *)
  paymentControllerRole : gset Z;            (* PAYMENT_CONTROLLER_ROLE holders *)
  paused : bool;
  poolStats : PoolStats;
  lenderPositions : gmap Z LenderPosition;
  tierAPY : RiskTier -> Z;
  tierLiquidity : RiskTier -> Z;
  reserveFund : Z;
  _totalSupply : Z
}.

Definition RESERVE_RATIO : Z := 200.
Definition MAX_UTILIZATION : Z := 9000.
Definition SECONDS_PER_YEAR : Z := 365 * 86400.
Definition BASIS_POINTS : Z := 10000.

Definition position (p : Pool) (lender : Z) : LenderPosition :=
  default zero_position (lenderPositions p !! lender).

(** Field writers. *)
Definition set_position (p : Pool) (lender : Z) (pos : LenderPosition) : Pool :=
  mkPool (self p) (paymentControllerRole p) (paused p) (poolStats p)
    (<[lender := pos]> (lenderPositions p)) (tierAPY p) (tierLiquidity p)
    (reserveFund p) (_totalSupply p).
Definition set_stats (p : Pool) (s : PoolStats) : Pool :=
  mkPool (self p) (paymentControllerRole p) (paused p) s (lenderPositions p)
    (tierAPY p) (tierLiquidity p) (reserveFund p) (_totalSupply p).
Definition set_tierLiquidity (p : Pool) (t : RiskTier) (v : Z) : Pool :=
  mkPool (self p) (paymentControllerRole p) (paused p) (poolStats p) (lenderPositions p)
    (tierAPY p) (λ t', if RiskTier_eqb t t' then v else tierLiquidity p t')
    (reserveFund p) (_totalSupply p).
Definition set_reserveFund (p : Pool) (v : Z) : Pool :=
  mkPool (self p) (paymentControllerRole p) (paused p) (poolStats p) (lenderPositions p)
    (tierAPY p) (tierLiquidity p) v (_totalSupply p).
Definition set_totalSupply (p : Pool) (v : Z) : Pool :=
  mkPool (self p) (paymentControllerRole p) (paused p) (poolStats p) (lenderPositions p)
    (tierAPY p) (tierLiquidity p) (reserveFund p) v.

Definition with_deposited (pos : LenderPosition) (v : Z) : LenderPosition :=
  mkLenderPosition v (yieldEarned pos) (lastUpdateTime pos) (riskTier pos) (autoReinvest pos).
Definition with_yieldEarned (pos : LenderPosition) (v : Z) : LenderPosition :=
  mkLenderPosition (deposited pos) v (lastUpdateTime pos) (riskTier pos) (autoReinvest pos).
Definition with_lastUpdateTime (pos : LenderPosition) (v : Z) : LenderPosition :=
  mkLenderPosition (deposited pos) (yieldEarned pos) v (riskTier pos) (autoReinvest pos).
Definition with_riskTier (pos : LenderPosition) (t : RiskTier) : LenderPosition :=
  mkLenderPosition (deposited pos) (yieldEarned pos) (lastUpdateTime pos) t (autoReinvest pos).

Definition with_totalLiquidity (s : PoolStats) (v : Z) : PoolStats :=
  mkPoolStats v (totalLoaned s) (totalYieldPaid s) (totalDefaulted s)
    (utilizationRate s) (averageAPY s) (totalLenders s) (totalBorrowers s).
Definition with_totalLoaned (s : PoolStats) (v : Z) : PoolStats :=
  mkPoolStats (totalLiquidity s) v (totalYieldPaid s) (totalDefaulted s)
    (utilizationRate s) (averageAPY s) (totalLenders s) (totalBorrowers s).
Definition with_totalYieldPaid (s : PoolStats) (v : Z) : PoolStats :=
  mkPoolStats (totalLiquidity s) (totalLoaned s) v (totalDefaulted s)
    (utilizationRate s) (averageAPY s) (totalLenders s) (totalBorrowers s).
Definition with_totalDefaulted (s : PoolStats) (v : Z) : PoolStats :=
  mkPoolStats (totalLiquidity s) (totalLoaned s) (totalYieldPaid s) v
    (utilizationRate s) (averageAPY s) (totalLenders s) (totalBorrowers s).
Definition with_totalLenders (s : PoolStats) (v : Z) : PoolStats :=
  mkPoolStats (totalLiquidity s) (totalLoaned s) (totalYieldPaid s) (totalDefaulted s)
    (utilizationRate s) (averageAPY s) v (totalBorrowers s).
Definition with_totalBorrowers (s : PoolStats) (v : Z) : PoolStats :=
  mkPoolStats (totalLiquidity s) (totalLoaned s) (totalYieldPaid s) (totalDefaulted s)
    (utilizationRate s) (averageAPY s) (totalLenders s) v.

(** [whenNotPaused]; [nonReentrant] has no effect in a serialised model. *)
Definition whenNotPaused (p : Pool) : result unit :=
  require (negb (paused p)) "Pausable: EnforcedPause".

Definition onlyPaymentController (c : Ctx) (p : Pool) : result unit :=
  require (bool_decide (sender c ∈ paymentControllerRole p))
    "AccessControl: account is missing role PAYMENT_CONTROLLER_ROLE".

(** [_calculateYield]: (principal * apy * timeElapsed) / (BASIS_POINTS * SECONDS_PER_YEAR). *)
Definition _calculateYield (principal apy timeElapsed : Z) : result Z :=
  a ← cmul principal apy;
  b ← cmul a timeElapsed;
  d ← cmul BASIS_POINTS SECONDS_PER_YEAR;
  cdiv b d.

(** [_updateLenderYield]. *)
Definition _updateLenderYield (c : Ctx) (lender : Z) (p : Pool) : result Pool :=
  let pos := position p lender in
  pos' ← (if (0 <? deposited pos) && (0 <? lastUpdateTime pos) then
            timeElapsed ← csub (now c) (lastUpdateTime pos);
            y ← _calculateYield (deposited pos) (tierAPY p (riskTier pos)) timeElapsed;
            ye ← cadd (yieldEarned pos) y;
            mret (with_yieldEarned pos ye)
          else mret pos);
  mret (set_position p lender (with_lastUpdateTime pos' (now c))).

(** [_getAvailableLiquidity]. *)
Definition _getAvailableLiquidity (p : Pool) : result Z :=
  m ← cmul (totalLiquidity (poolStats p)) MAX_UTILIZATION;
  let maxLoaned := m / BASIS_POINTS in
  if maxLoaned <=? totalLoaned (poolStats p) then mret 0
  else mret (maxLoaned - totalLoaned (poolStats p)).

(** [deposit(amount, riskTier)], called by [sender c]. *)
Definition deposit (c : Ctx) (amount : Z) (tier : RiskTier) (p : Pool)
  : result (Pool * list Transfer) :=
  _ ← whenNotPaused p;
  _ ← require (0 <? amount) "LendingPool: Amount must be greater than 0";
  p1 ← _updateLenderYield c (sender c) p;
  (* usdcToken.safeTransferFrom(msg.sender, address(this), amount) *)
  let pos := position p1 (sender c) in
  tl ← (if deposited pos =? 0 then cadd (totalLenders (poolStats p1)) 1
        else mret (totalLenders (poolStats p1)));
  d ← cadd (deposited pos) amount;
  let pos' := with_lastUpdateTime (with_riskTier (with_deposited pos d) tier) (now c) in
  liq ← cadd (totalLiquidity (poolStats p1)) amount;
  tliq ← cadd (tierLiquidity p1 tier) amount;
  ts ← cadd (_totalSupply p1) amount;
  ra ← cmul amount RESERVE_RATIO;
  let reserveAmount := ra / BASIS_POINTS in
  rf ← cadd (reserveFund p1) reserveAmount;
  let p2 := set_position p1 (sender c) pos' in
  let p3 := set_stats p2 (with_totalLiquidity (with_totalLenders (poolStats p2) tl) liq) in
  let p4 := set_reserveFund (set_totalSupply (set_tierLiquidity p3 tier tliq) ts) rf in
  mret (p4, [mkTransfer (sender c) (self p) amount]).

(** [withdraw(amount)], called by [sender c]. *)
Definition withdraw (c : Ctx) (amount : Z) (p : Pool) : result (Pool * list Transfer) :=
  _ ← whenNotPaused p;
  _ ← require (amount <=? deposited (position p (sender c))) "LendingPool: Insufficient balance";
  p1 ← _updateLenderYield c (sender c) p;
  availableLiquidity ← _getAvailableLiquidity p1;
  _ ← require (amount <=? availableLiquidity) "LendingPool: Insufficient pool liquidity";
  let pos := position p1 (sender c) in
  d ← csub (deposited pos) amount;
  tliq ← csub (tierLiquidity p1 (riskTier pos)) amount;
  tl ← (if d =? 0 then csub (totalLenders (poolStats p1)) 1
        else mret (totalLenders (poolStats p1)));
  liq ← csub (totalLiquidity (poolStats p1)) amount;
  ts ← csub (_totalSupply p1) amount;
  let p2 := set_position p1 (sender c) (with_deposited pos d) in
  let p3 := set_tierLiquidity p2 (riskTier pos) tliq in
  let p4 := set_stats p3 (with_totalLiquidity (with_totalLenders (poolStats p3) tl) liq) in
  mret (set_totalSupply p4 ts, [mkTransfer (self p) (sender c) amount]).

(** [claimYield()], called by [sender c]. *)
Definition claimYield (c : Ctx) (p : Pool) : result (Pool * list Transfer) :=
  _ ← whenNotPaused p;
  p1 ← _updateLenderYield c (sender c) p;
  let pos := position p1 (sender c) in
  let yieldAmount := yieldEarned pos in
  _ ← require (0 <? yieldAmount) "LendingPool: No yield to claim";
  typ ← cadd (totalYieldPaid (poolStats p1)) yieldAmount;
  let p2 := set_position p1 (sender c) (with_yieldEarned pos 0) in
  mret (set_stats p2 (with_totalYieldPaid (poolStats p2) typ),
        [mkTransfer (self p) (sender c) yieldAmount]).

(** [fundLoan(loanId, borrower, amount, riskTier)], PaymentController only. *)
Definition fundLoan (c : Ctx) (loanId borrower amount : Z) (tier : RiskTier) (p : Pool)
  : result (Pool * list Transfer) :=
  _ ← onlyPaymentController c p;
  _ ← require (0 <? amount) "LendingPool: Invalid amount";
  _ ← require (negb (borrower =? 0)) "LendingPool: Invalid borrower";
  avail ← _getAvailableLiquidity p;
  _ ← require (amount <=? avail) "LendingPool: Insufficient liquidity";
  tlo ← cadd (totalLoaned (poolStats p)) amount;
  tb ← cadd (totalBorrowers (poolStats p)) 1;
  mret (set_stats p (with_totalBorrowers (with_totalLoaned (poolStats p) tlo) tb),
        [mkTransfer (self p) borrower amount]).

(** [_distributeYield]: the source body returns without touching state. *)
Definition _distributeYield (totalYield : Z) (tier : RiskTier) (p : Pool) : result Pool :=
  if tierLiquidity p tier =? 0 then mret p else mret p.

(** [_distributeLoss]: the source body returns without touching state. *)
Definition _distributeLoss (lossAmount : Z) (p : Pool) : result Pool :=
  if _totalSupply p =? 0 then mret p else mret p.

(** [repayLoan(loanId, amount, riskTier)], PaymentController only. *)
Definition repayLoan (c : Ctx) (loanId amount : Z) (tier : RiskTier) (p : Pool)
  : result (Pool * list Transfer) :=
  _ ← onlyPaymentController c p;
  _ ← require (0 <? amount) "LendingPool: Invalid amount";
  (* usdcToken.safeTransferFrom(msg.sender, address(this), amount) *)
  tlo ← csub (totalLoaned (poolStats p)) amount;
  liq ← cadd (totalLiquidity (poolStats p)) amount;
  let p1 := set_stats p (with_totalLiquidity (with_totalLoaned (poolStats p) tlo) liq) in
  p2 ← _distributeYield amount tier p1;
  mret (p2, [mkTransfer (sender c) (self p) amount]).

(** [handleDefault(loanId, lossAmount, recoveredAmount)], PaymentController only. *)
Definition handleDefault (c : Ctx) (loanId lossAmount recoveredAmount : Z) (p : Pool)
  : result (Pool * list Transfer) :=
  _ ← onlyPaymentController c p;
  _ ← require (0 <? lossAmount) "LendingPool: Invalid loss amount";
  p1 ← (if lossAmount <=? reserveFund p then
          rf ← csub (reserveFund p) lossAmount;
          mret (set_reserveFund p rf)
        else
          shortfall ← csub lossAmount (reserveFund p);
          q ← _distributeLoss shortfall p;
          mret (set_reserveFund q 0));
  liq ← (if 0 <? recoveredAmount then cadd (totalLiquidity (poolStats p1)) recoveredAmount
         else mret (totalLiquidity (poolStats p1)));
  let p2 := set_stats p1 (with_totalLiquidity (poolStats p1) liq) in
  td ← cadd (totalDefaulted (poolStats p2)) lossAmount;
  tlo ← csub (totalLoaned (poolStats p2)) lossAmount;
  mret (set_stats p2 (with_totalLoaned (with_totalDefaulted (poolStats p2) td) tlo), []).

(** Sum of [deposited] over every lender position held by the pool. *)
Definition total_deposited (m : gmap Z LenderPosition) : Z :=
  map_fold (λ _ pos acc, deposited pos + acc) 0 m.

(** The conservation property of the spec: lender deposits add up to the
    pool's recorded liquidity. *)
Definition conserved (p : Pool) : Prop :=
  total_deposited (lenderPositions p) = totalLiquidity (poolStats p).

(** Every storage word the withdrawal path reads holds a uint256. *)
Definition uint256 (z : Z) : Prop := 0 <= z <= UINT256_MAX.

Definition pool_wf (p : Pool) : Prop :=
  uint256 (totalLiquidity (poolStats p)) /\ uint256 (totalLoaned (poolStats p)) /\
  uint256 (totalLenders (poolStats p)) /\ uint256 (_totalSupply p) /\
  (forall t, uint256 (tierLiquidity p t)) /\
  (forall a, uint256 (deposited (position p a))) /\
  (forall a, uint256 (yieldEarned (position p a))).

(** The administrative and view functions. *)

Definition set_tierAPY (p : Pool) (t : RiskTier) (v : Z) : Pool :=
  mkPool (self p) (paymentControllerRole p) (paused p) (poolStats p) (lenderPositions p)
    (λ t', if RiskTier_eqb t t' then v else tierAPY p t') (tierLiquidity p)
    (reserveFund p) (_totalSupply p).
Definition set_paused (p : Pool) (b : bool) : Pool :=
  mkPool (self p) (paymentControllerRole p) b (poolStats p) (lenderPositions p)
    (tierAPY p) (tierLiquidity p) (reserveFund p) (_totalSupply p).

(** [onlyRole(ADMIN_ROLE)]; [admins] holds the accounts granted the role. *)
Definition onlyAdmin (admins : gset Z) (c : Ctx) : result unit :=
  require (bool_decide (sender c ∈ admins)) "AccessControl: account is missing role ADMIN_ROLE".

(** [updateTierAPY(tier, newAPY)]. *)
Definition updateTierAPY (admins : gset Z) (c : Ctx) (tier : RiskTier) (newAPY : Z) (p : Pool)
  : result Pool :=
  _ ← onlyAdmin admins c;
  _ ← require (newAPY <=? 5000) "LendingPool: APY too high";
  mret (set_tierAPY p tier newAPY).

(** [pause()] and [unpause()]: OpenZeppelin's [_pause] requires the
    contract not to be paused, [_unpause] requires it to be paused. *)
Definition pause (admins : gset Z) (c : Ctx) (p : Pool) : result Pool :=
  _ ← onlyAdmin admins c;
  _ ← whenNotPaused p;
  mret (set_paused p true).
Definition unpause (admins : gset Z) (c : Ctx) (p : Pool) : result Pool :=
  _ ← onlyAdmin admins c;
  _ ← require (paused p) "Pausable: ExpectedPause";
  mret (set_paused p false).

(** [getLenderPosition(lender)]: the stored position with the pending
    yield added. *)
Definition getLenderPosition (c : Ctx) (lender : Z) (p : Pool) : result LenderPosition :=
  let pos := position p lender in
  if 0 <? deposited pos then
    timeElapsed ← csub (now c) (lastUpdateTime pos);
    pendingYield ← _calculateYield (deposited pos) (tierAPY p (riskTier pos)) timeElapsed;
    ye ← cadd (yieldEarned pos) pendingYield;
    mret (with_yieldEarned pos ye)
  else mret pos.

(** The loop [for (i = 0; i < 3; i++)] of [getPoolStats] over
    [RiskTier(i)], accumulating [(totalWeightedAPY, totalLiquidity)]. *)
Fixpoint apy_loop (p : Pool) (tiers : list RiskTier) (w l : Z) : result (Z * Z) :=
  match tiers with
  | [] => mret (w, l)
  | tier :: rest =>
      let tierLiq := tierLiquidity p tier in
      if 0 <? tierLiq then
        a ← cmul (tierAPY p tier) tierLiq;
        w' ← cadd w a;
        l' ← cadd l tierLiq;
        apy_loop p rest w' l'
      else apy_loop p rest w l
  end.

(** [getPoolStats()]. *)
Definition getPoolStats (p : Pool) : result PoolStats :=
  let s := poolStats p in
  ur ← (if 0 <? totalLiquidity s then
          m ← cmul (totalLoaned s) BASIS_POINTS;
          mret (m / totalLiquidity s)
        else mret (utilizationRate s));
  '(totalWeightedAPY, totalLiq) ← apy_loop p [LOW; MEDIUM; HIGH] 0 0;
  let avg := if 0 <? totalLiq then totalWeightedAPY / totalLiq else averageAPY s in
  mret (mkPoolStats (totalLiquidity s) (totalLoaned s) (totalYieldPaid s) (totalDefaulted s)
          ur avg (totalLenders s) (totalBorrowers s)).

(** Number of lender positions with a positive deposit. *)
Definition active_lenders (m : gmap Z LenderPosition) : Z :=
  map_fold (λ _ pos acc, (if 0 <? deposited pos then 1 else 0) + acc) 0 m.

(** [totalLenders] counts the lenders with a positive deposit, every
    deposit being non-negative. *)
Definition lenders_counted (p : Pool) : Prop :=
  (forall a, 0 <= deposited (position p a)) /\
  totalLenders (poolStats p) = active_lenders (lenderPositions p).

End LendingPool.

(** ** SharedTypes *)

Module SharedTypes.

Module RiskTier.
Inductive t := LOW | MEDIUM | HIGH | DENIED.
End RiskTier.

Module LoanStatus.
Inductive t := PENDING | APPROVED | ACTIVE | COMPLETED | DEFAULTED | LIQUIDATED.
Definition eqb (a b : t) : bool :=
  match a, b with
  | PENDING, PENDING | APPROVED, APPROVED | ACTIVE, ACTIVE
  | COMPLETED, COMPLETED | DEFAULTED, DEFAULTED | LIQUIDATED, LIQUIDATED => true
  | _, _ => false
  end.
End LoanStatus.

Module PaymentStatus.
Inductive t := PENDING | PAID | LATE | MISSED.
Definition eqb (a b : t) : bool :=
  match a, b with
  | PENDING, PENDING | PAID, PAID | LATE, LATE | MISSED, MISSED => true
  | _, _ => false
  end.
End PaymentStatus.

(** [riskTierToUint(tier)]: [uint8(tier)]. *)
Definition riskTierToUint (tier : RiskTier.t) : Z :=
  match tier with
  | RiskTier.LOW => 0 | RiskTier.MEDIUM => 1 | RiskTier.HIGH => 2 | RiskTier.DENIED => 3
  end.

(** [uintToRiskTier(value)] for a [uint8] [value]. *)
Definition uintToRiskTier (value : Z) : result RiskTier.t :=
  _ ← require (value <=? riskTierToUint RiskTier.DENIED) "SharedTypes: Invalid risk tier value";
  mret (match value with
        | 0 => RiskTier.LOW | 1 => RiskTier.MEDIUM | 2 => RiskTier.HIGH | _ => RiskTier.DENIED
        end).

Definition riskTier_eqb (a b : RiskTier.t) : bool := riskTierToUint a =? riskTierToUint b.

(** [getRiskTierName(tier)]. *)
Definition getRiskTierName (tier : RiskTier.t) : string :=
  if riskTier_eqb tier RiskTier.LOW then "LOW"
  else if riskTier_eqb tier RiskTier.MEDIUM then "MEDIUM"
  else if riskTier_eqb tier RiskTier.HIGH then "HIGH"
  else if riskTier_eqb tier RiskTier.DENIED then "DENIED"
  else "UNKNOWN".

End SharedTypes.

(** ** PaymentController *)

Module PaymentController.
Import SharedTypes.

Record PaymentTerms := mkPaymentTerms {
  installments : Z;
  intervalDays : Z;
  interestRate : Z;     (* basis points *)
  lateFeeRate : Z       (* basis points *)
}.
Definition zero_terms : PaymentTerms := mkPaymentTerms 0 0 0 0.

Module Loan.
Record t := mk {
  id : Z;
  borrower : Z;
  merchant : Z;
  principal : Z;
  totalAmount : Z;
  collateralAmount : Z;
  collateralToken : Z;
  terms : PaymentTerms;
  status : LoanStatus.t;
  createdAt : Z;
  nextPaymentDue : Z;
  paidAmount : Z;
  remainingAmount : Z;
  riskTier : RiskTier.t
}.
Definition zero : t := mk 0 0 0 0 0 0 0 zero_terms LoanStatus.PENDING 0 0 0 0 RiskTier.LOW.
Definition with_status (l : t) (s : LoanStatus.t) : t :=
  mk (id l) (borrower l) (merchant l) (principal l) (totalAmount l) (collateralAmount l)
    (collateralToken l) (terms l) s (createdAt l) (nextPaymentDue l) (paidAmount l)
    (remainingAmount l) (riskTier l).
Definition with_nextPaymentDue (l : t) (v : Z) : t :=
  mk (id l) (borrower l) (merchant l) (principal l) (totalAmount l) (collateralAmount l)
    (collateralToken l) (terms l) (status l) (createdAt l) v (paidAmount l)
    (remainingAmount l) (riskTier l).
Definition with_amounts (l : t) (paid remaining : Z) : t :=
  mk (id l) (borrower l) (merchant l) (principal l) (totalAmount l) (collateralAmount l)
    (collateralToken l) (terms l) (status l) (createdAt l) (nextPaymentDue l) paid
    remaining (riskTier l).
End Loan.

Module Payment.
Record t := mk {
  id : Z;
  loanId : Z;
  amount : Z;
  dueDate : Z;
  paidDate : Z;
  status : PaymentStatus.t;
  lateFee : Z
}.
Definition zero : t := mk 0 0 0 0 0 PaymentStatus.PENDING 0.
Definition with_status (p : t) (s : PaymentStatus.t) : t :=
  mk (id p) (loanId p) (amount p) (dueDate p) (paidDate p) s (lateFee p).
Definition with_paid (p : t) (paidDate' lateFee' : Z) : t :=
  mk (id p) (loanId p) (amount p) (dueDate p) paidDate' (status p) lateFee'.
End Payment.

Module Merchant.
Record t := mk {
  name : string;
  wallet : Z;
  totalVolume : Z;
  totalOrders : Z;
  isActive : bool;
  settlementDelay : Z
}.
Definition zero : t := mk "" 0 0 0 false 0.
End Merchant.

(** Calls into the collaborating contracts, in issue order.  The
    transaction commits only if every one of them succeeds. *)
Inductive ExtCall :=
| UsdcTransferFrom (from to amount : Z)
| UsdcTransfer (to amount : Z)
| CollateralLock (owner token amount loanId : Z)
| CollateralRelease (loanId owner token amount : Z)
| PoolFundLoan (loanId borrower amount : Z) (tier : RiskTier.t)
| PoolRepayLoan (loanId amount : Z) (tier : RiskTier.t)
| RiskRecordLoan (borrower amount : Z)
| RiskRecordPayment (borrower amount : Z) (onTime : bool)
| RiskRecordLoanCompletion (borrower amount : Z).

(** The answer of [riskEngine.assessRisk] (an external view call). *)
Record AssessmentResult := mkAssessmentResult {
  a_creditScore : Z;
  a_riskTier : RiskTier.t;
  a_maxLoanAmount : Z;
  a_requiredCollateral : Z;
  a_approved : bool;
  a_reason : string
}.

Record State := mkState {
  self : Z;
  lendingPool : Z;
  paused : bool;
  nextLoanId : Z;
  nextPaymentId : Z;
  loans : gmap Z Loan.t;
  payments : gmap Z Payment.t;
  loanPayments : gmap Z (list Z);
  merchants : gmap Z Merchant.t;
  paymentTemplates : gmap string PaymentTerms
}.

Definition LATE_PAYMENT_GRACE_PERIOD : Z := 2 * 86400.
Definition DEFAULT_THRESHOLD_DAYS : Z := 30 * 86400.
Definition BASIS_POINTS : Z := 10000.
Definition SECONDS_PER_DAY : Z := 86400.

Definition loan_of (st : State) (k : Z) : Loan.t := default Loan.zero (loans st !! k).
Definition payment_of (st : State) (k : Z) : Payment.t := default Payment.zero (payments st !! k).
Definition loanPayments_of (st : State) (k : Z) : list Z := default [] (loanPayments st !! k).
Definition merchant_of (st : State) (k : Z) : Merchant.t := default Merchant.zero (merchants st !! k).
Definition template_of (st : State) (k : string) : PaymentTerms :=
  default zero_terms (paymentTemplates st !! k).

Definition set_loan (st : State) (k : Z) (l : Loan.t) : State :=
  mkState (self st) (lendingPool st) (paused st) (nextLoanId st) (nextPaymentId st) (<[k := l]> (loans st))
    (payments st) (loanPayments st) (merchants st) (paymentTemplates st).
Definition set_payment (st : State) (k : Z) (p : Payment.t) : State :=
  mkState (self st) (lendingPool st) (paused st) (nextLoanId st) (nextPaymentId st) (loans st)
    (<[k := p]> (payments st)) (loanPayments st) (merchants st) (paymentTemplates st).
Definition push_loanPayment (st : State) (k pid : Z) : State :=
  mkState (self st) (lendingPool st) (paused st) (nextLoanId st) (nextPaymentId st) (loans st) (payments st)
    (<[k := loanPayments_of st k ++ [pid]]> (loanPayments st)) (merchants st)
    (paymentTemplates st).
Definition set_nextPaymentId (st : State) (v : Z) : State :=
  mkState (self st) (lendingPool st) (paused st) (nextLoanId st) v (loans st) (payments st)
    (loanPayments st) (merchants st) (paymentTemplates st).
Definition set_nextLoanId (st : State) (v : Z) : State :=
  mkState (self st) (lendingPool st) (paused st) v (nextPaymentId st) (loans st) (payments st)
    (loanPayments st) (merchants st) (paymentTemplates st).
Definition set_merchant (st : State) (k : Z) (m : Merchant.t) : State :=
  mkState (self st) (lendingPool st) (paused st) (nextLoanId st) (nextPaymentId st) (loans st) (payments st)
    (loanPayments st) (<[k := m]> (merchants st)) (paymentTemplates st).

Definition whenNotPaused (st : State) : result unit :=
  require (negb (paused st)) "Pausable: EnforcedPause".

(** [_calculateTotalAmount]: principal + principal * interestRate / BASIS_POINTS. *)
Definition _calculateTotalAmount (principal interestRate : Z) : result Z :=
  m ← cmul principal interestRate;
  cadd principal (m / BASIS_POINTS).

(** [_calculateLateFee]: paymentAmount * lateFeeRate / BASIS_POINTS. *)
Definition _calculateLateFee (paymentAmount lateFeeRate : Z) : result Z :=
  m ← cmul paymentAmount lateFeeRate;
  mret (m / BASIS_POINTS).

(** One iteration of the [_createPaymentSchedule] loop, for index [i]. *)
Definition schedule_step (loanId : Z) (loan : Loan.t) (paymentAmount lastPaymentAmount i : Z)
    (st : State) : result State :=
  let paymentId := nextPaymentId st in
  np ← cadd paymentId 1;
  n1 ← csub (installments (Loan.terms loan)) 1;
  let amount := if i =? n1 then lastPaymentAmount else paymentAmount in
  i1 ← cadd i 1;
  a ← cmul i1 (intervalDays (Loan.terms loan));
  b ← cmul a SECONDS_PER_DAY;
  dueDate ← cadd (Loan.createdAt loan) b;
  let st1 := set_nextPaymentId st np in
  let st2 := set_payment st1 paymentId
               (Payment.mk paymentId loanId amount dueDate 0 PaymentStatus.PENDING 0) in
  mret (push_loanPayment st2 loanId paymentId).

(** The loop [for (i = 0; i < installments; i++)]; [fuel] bounds the
    number of iterations and is [installments] at the call site. *)
Fixpoint schedule_loop (fuel : nat) (loanId : Z) (loan : Loan.t)
    (paymentAmount lastPaymentAmount i : Z) (st : State) : result State :=
  match fuel with
  | O => mret st
  | S fuel' =>
      if i <? installments (Loan.terms loan) then
        st1 ← schedule_step loanId loan paymentAmount lastPaymentAmount i st;
        i' ← cadd i 1;
        schedule_loop fuel' loanId loan paymentAmount lastPaymentAmount i' st1
      else mret st
  end.

(** [_createPaymentSchedule(loanId)]. *)
Definition _createPaymentSchedule (loanId : Z) (st : State) : result State :=
  let loan := loan_of st loanId in
  let n := installments (Loan.terms loan) in
  paymentAmount ← cdiv (Loan.totalAmount loan) n;
  n1 ← csub n 1;
  m ← cmul paymentAmount n1;
  lastPaymentAmount ← csub (Loan.totalAmount loan) m;
  schedule_loop (Z.to_nat n) loanId loan paymentAmount lastPaymentAmount 0 st.

(** [_settleMerchant(merchant, amount)]. *)
Definition _settleMerchant (merchant amount : Z) (st : State) : result (State * list ExtCall) :=
  let md := merchant_of st merchant in
  tv ← cadd (Merchant.totalVolume md) amount;
  tor ← cadd (Merchant.totalOrders md) 1;
  let md' := Merchant.mk (Merchant.name md) (Merchant.wallet md) tv tor
               (Merchant.isActive md) (Merchant.settlementDelay md) in
  mret (set_merchant st merchant md', [UsdcTransfer merchant amount]).

(** [createLoan(merchant, principal, collateralAmount, collateralToken,
    termsTemplate)]; [assessment] is what [riskEngine.assessRisk] answers
    for this borrower and request. *)
Definition createLoan (c : Ctx) (merchant principal collateralAmount collateralToken : Z)
    (termsTemplate : string) (assessment : AssessmentResult) (st : State)
  : result (State * Z * list ExtCall) :=
  _ ← whenNotPaused st;
  _ ← require (0 <? principal) "PaymentController: Invalid principal amount";
  _ ← require (0 <? collateralAmount) "PaymentController: Invalid collateral amount";
  _ ← require (Merchant.isActive (merchant_of st merchant)) "PaymentController: Merchant not active";
  _ ← require (0 <? installments (template_of st termsTemplate))
        "PaymentController: Invalid terms template";
  _ ← require (a_approved assessment) (a_reason assessment);
  let loanId := nextLoanId st in
  nl ← cadd loanId 1;
  let terms := template_of st termsTemplate in
  total ← _calculateTotalAmount principal (interestRate terms);
  let loan := Loan.mk loanId (sender c) merchant principal total collateralAmount
                collateralToken terms LoanStatus.APPROVED (now c) 0 0 total
                (a_riskTier assessment) in
  mret (set_loan (set_nextLoanId st nl) loanId loan, loanId,
        [CollateralLock (sender c) collateralToken collateralAmount loanId;
         RiskRecordLoan (sender c) principal]).

(** [fundLoan(loanId)]. *)
Definition fundLoan (c : Ctx) (loanId : Z) (st : State) : result (State * list ExtCall) :=
  _ ← whenNotPaused st;
  let loan := loan_of st loanId in
  _ ← require (LoanStatus.eqb (Loan.status loan) LoanStatus.APPROVED)
        "PaymentController: Loan not approved";
  _ ← require (negb (Loan.borrower loan =? 0)) "PaymentController: Loan does not exist";
  a ← cmul (intervalDays (Loan.terms loan)) SECONDS_PER_DAY;
  npd ← cadd (now c) a;
  let st1 := set_loan st loanId
               (Loan.with_nextPaymentDue (Loan.with_status loan LoanStatus.ACTIVE) npd) in
  st2 ← _createPaymentSchedule loanId st1;
  '(st3, calls) ← _settleMerchant (Loan.merchant loan) (Loan.principal loan) st2;
  mret (st3, PoolFundLoan loanId (Loan.borrower loan) (Loan.principal loan) (Loan.riskTier loan)
             :: calls).

(** The due date of the first PENDING payment in [ids], 0 if none. *)
Fixpoint first_pending_due (st : State) (ids : list Z) : Z :=
  match ids with
  | [] => 0
  | pid :: rest =>
      let p := payment_of st pid in
      if PaymentStatus.eqb (Payment.status p) PaymentStatus.PENDING then Payment.dueDate p
      else first_pending_due st rest
  end.

(** [_updateNextPaymentDue(loanId)]. *)
Definition _updateNextPaymentDue (loanId : Z) (st : State) : State :=
  set_loan st loanId
    (Loan.with_nextPaymentDue (loan_of st loanId)
       (first_pending_due st (loanPayments_of st loanId))).

(** [_completeLoan(loanId)]. *)
Definition _completeLoan (loanId : Z) (st : State) : State * list ExtCall :=
  let loan := loan_of st loanId in
  (set_loan st loanId (Loan.with_status loan LoanStatus.COMPLETED),
   [CollateralRelease loanId (Loan.borrower loan) (Loan.collateralToken loan)
      (Loan.collateralAmount loan);
    RiskRecordLoanCompletion (Loan.borrower loan) (Loan.totalAmount loan)]).

(** [makePayment(paymentId)]. *)
Definition makePayment (c : Ctx) (paymentId : Z) (st : State) : result (State * list ExtCall) :=
  _ ← whenNotPaused st;
  let payment := payment_of st paymentId in
  let lid := Payment.loanId payment in
  let loan := loan_of st lid in
  _ ← require (PaymentStatus.eqb (Payment.status payment) PaymentStatus.PENDING)
        "PaymentController: Payment already made";
  _ ← require (Loan.borrower loan =? sender c) "PaymentController: Not loan borrower";
  _ ← require (LoanStatus.eqb (Loan.status loan) LoanStatus.ACTIVE)
        "PaymentController: Loan not active";
  deadline ← cadd (Payment.dueDate payment) LATE_PAYMENT_GRACE_PERIOD;
  '(lateFee, totalPayment, newStatus) ←
    (if deadline <? now c then
       fee ← _calculateLateFee (Payment.amount payment) (lateFeeRate (Loan.terms loan));
       tp ← cadd (Payment.amount payment) fee;
       mret (fee, tp, PaymentStatus.LATE)
     else mret (0, Payment.amount payment, PaymentStatus.PAID));
  let payment' := Payment.with_paid (Payment.with_status payment newStatus) (now c) lateFee in
  let st1 := set_payment st paymentId payment' in
  paid ← cadd (Loan.paidAmount loan) totalPayment;
  remaining ← csub (Loan.remainingAmount loan) (Payment.amount payment);
  let st2 := set_loan st1 lid (Loan.with_amounts loan paid remaining) in
  let st3 := _updateNextPaymentDue lid st2 in
  let onTime := PaymentStatus.eqb newStatus PaymentStatus.PAID in
  let calls :=
    [UsdcTransferFrom (sender c) (self st) totalPayment;
     UsdcTransfer (lendingPool st) (Payment.amount payment)] ++
    (if 0 <? lateFee then [UsdcTransfer (lendingPool st) lateFee] else []) ++
    [PoolRepayLoan lid (Payment.amount payment) (Loan.riskTier loan);
     RiskRecordPayment (sender c) (Payment.amount payment) onTime] in
  if remaining =? 0 then
    let '(st4, calls') := _completeLoan lid st3 in
    mret (st4, calls ++ calls')
  else mret (st3, calls).

(** The administrative, automation and view functions. *)

(** [onlyRole(ADMIN_ROLE)]; [admins] holds the accounts granted the role. *)
Definition onlyAdmin (admins : gset Z) (c : Ctx) : result unit :=
  require (bool_decide (sender c ∈ admins)) "AccessControl: account is missing role ADMIN_ROLE".

Definition set_template (st : State) (k : string) (t : PaymentTerms) : State :=
  mkState (self st) (lendingPool st) (paused st) (nextLoanId st) (nextPaymentId st) (loans st)
    (payments st) (loanPayments st) (merchants st) (<[k := t]> (paymentTemplates st)).

(** The id of the first PENDING payment in [ids], 0 if none. *)
Fixpoint first_pending (st : State) (ids : list Z) : Z :=
  match ids with
  | [] => 0
  | pid :: rest =>
      if PaymentStatus.eqb (Payment.status (payment_of st pid)) PaymentStatus.PENDING then pid
      else first_pending st rest
  end.

(** [getUpcomingPayment(loanId)]. *)
Definition getUpcomingPayment (st : State) (loanId : Z) : Z :=
  first_pending st (loanPayments_of st loanId).

(** The loop of [checkForDefaults]; [&&] short-circuits, so the deadline
    is only computed for an ACTIVE loan. *)
Fixpoint defaults_loop (c : Ctx) (loanIds : list Z) (st : State) : result State :=
  match loanIds with
  | [] => mret st
  | lid :: rest =>
      let loan := loan_of st lid in
      st1 ← (if LoanStatus.eqb (Loan.status loan) LoanStatus.ACTIVE then
               deadline ← cadd (Loan.nextPaymentDue loan) DEFAULT_THRESHOLD_DAYS;
               if deadline <? now c then
                 mret (set_loan st lid (Loan.with_status loan LoanStatus.DEFAULTED))
               else mret st
             else mret st);
      defaults_loop c rest st1
  end.

(** [checkForDefaults(loanIds)]. *)
Definition checkForDefaults (admins : gset Z) (c : Ctx) (loanIds : list Z) (st : State)
  : result State :=
  _ ← onlyAdmin admins c;
  defaults_loop c loanIds st.

(** [_countMissedPayments(loanId)]; the counter is bounded by the array
    length and cannot overflow. *)
Fixpoint count_missed (st : State) (ids : list Z) : Z :=
  match ids with
  | [] => 0
  | pid :: rest =>
      (if PaymentStatus.eqb (Payment.status (payment_of st pid)) PaymentStatus.MISSED then 1
       else 0) + count_missed st rest
  end.
Definition _countMissedPayments (st : State) (loanId : Z) : Z :=
  count_missed st (loanPayments_of st loanId).

(** [_markPaymentMissed(paymentId)]; [||] short-circuits, so the deadline is
    only computed when fewer than two payments are missed. *)
Definition _markPaymentMissed (c : Ctx) (paymentId : Z) (st : State)
  : result (State * list ExtCall) :=
  let payment := payment_of st paymentId in
  let lid := Payment.loanId payment in
  let loan := loan_of st lid in
  let st1 := set_payment st paymentId (Payment.with_status payment PaymentStatus.MISSED) in
  let calls := [RiskRecordPayment (Loan.borrower loan) (Payment.amount payment) false] in
  let missedPayments := _countMissedPayments st1 lid in
  let st2 := set_loan st1 lid (Loan.with_status (loan_of st1 lid) LoanStatus.DEFAULTED) in
  if 2 <=? missedPayments then mret (st2, calls)
  else
    deadline ← cadd (Payment.dueDate payment) DEFAULT_THRESHOLD_DAYS;
    if deadline <? now c then mret (st2, calls) else mret (st1, calls).

(** [processAutoPayment(paymentId)]; [borrowerBalance] is what
    [usdcToken.balanceOf(loan.borrower)] answers.  [this.makePayment] is an
    external call whose caller is the controller itself; a revert inside it
    is caught. *)
Definition processAutoPayment (admins : gset Z) (c : Ctx) (borrowerBalance paymentId : Z)
    (st : State) : result (State * list ExtCall) :=
  _ ← onlyAdmin admins c;
  let payment := payment_of st paymentId in
  let loan := loan_of st (Payment.loanId payment) in
  _ ← require (PaymentStatus.eqb (Payment.status payment) PaymentStatus.PENDING)
        "PaymentController: Payment already processed";
  _ ← require (LoanStatus.eqb (Loan.status loan) LoanStatus.ACTIVE)
        "PaymentController: Loan not active";
  if Payment.amount payment <=? borrowerBalance then
    match makePayment (mkCtx (self st) (now c)) paymentId st with
    | Ok r => Ok r
    | Revert _ => _markPaymentMissed c paymentId st
    end
  else _markPaymentMissed c paymentId st.

(** [registerMerchant(merchant, name, settlementDelay)]; the MERCHANT_ROLE
    it grants is not checked anywhere in the controller. *)
Definition registerMerchant (admins : gset Z) (c : Ctx) (merchant : Z) (name : string)
    (settlementDelay : Z) (st : State) : result State :=
  _ ← onlyAdmin admins c;
  _ ← require (negb (merchant =? 0)) "PaymentController: Invalid merchant address";
  _ ← require (0 <? Z.of_nat (String.length name)) "PaymentController: Empty merchant name";
  mret (set_merchant st merchant (Merchant.mk name merchant 0 0 true settlementDelay)).

(** [updatePaymentTemplate(templateName, terms)]. *)
Definition updatePaymentTemplate (admins : gset Z) (c : Ctx) (templateName : string)
    (terms : PaymentTerms) (st : State) : result State :=
  _ ← onlyAdmin admins c;
  _ ← require (0 <? installments terms) "PaymentController: Invalid installments";
  _ ← require (0 <? intervalDays terms) "PaymentController: Invalid interval";
  _ ← require (lateFeeRate terms <=? 1000) "PaymentController: Late fee too high";
  mret (set_template st templateName terms).

(** The checks [updatePaymentTemplate] makes on a template. *)
Definition terms_ok (t : PaymentTerms) : Prop :=
  0 < installments t /\ 0 < intervalDays t /\ 0 <= lateFeeRate t <= 1000.

End PaymentController.

(** ** RiskEngine (recording operations) *)

Module RiskEngine.
Import SharedTypes.

(** RiskEngine declares its own [RiskTier] enum with the same four members
    as [SharedTypes.RiskTier]. *)
Record CreditProfile := mkCreditProfile {
  creditScore : Z;
  totalBorrowed : Z;
  totalRepaid : Z;
  successfulPayments : Z;
  missedPayments : Z;
  currentDebt : Z;
  walletAge : Z;
  lastAssessment : Z;
  hasDefaulted : bool;
  currentTier : RiskTier.t
}.
Definition zero_profile : CreditProfile := mkCreditProfile 0 0 0 0 0 0 0 0 false RiskTier.LOW.

Record RiskParameters := mkRiskParameters {
  baseScore : Z;
  maxOnchainBonus : Z;
  maxCollateralBonus : Z;
  maxWalletAgeBonus : Z;
  missedPaymentPenalty : Z;
  defaultPenalty : Z;
  minCollateralRatio : Z;
  liquidationThreshold : Z
}.

(** The constructor's parameters. *)
Definition initialRiskParams : RiskParameters :=
  mkRiskParameters 500 200 175 125 50 200 11000 11000.

Record State := mkState {
  paymentControllerRole : gset Z;
  riskParams : RiskParameters;
  creditProfiles : gmap Z CreditProfile;
  tierMinScores : RiskTier.t -> Z
}.

Definition initialTierMinScores (t : RiskTier.t) : Z :=
  match t with
  | RiskTier.LOW => 750 | RiskTier.MEDIUM => 600 | RiskTier.HIGH => 300 | RiskTier.DENIED => 0
  end.

Definition SCORE_SCALE : Z := 850.
Definition MIN_SCORE : Z := 300.

Definition profile (st : State) (user : Z) : CreditProfile :=
  default zero_profile (creditProfiles st !! user).

Definition set_profile (st : State) (user : Z) (p : CreditProfile) : State :=
  mkState (paymentControllerRole st) (riskParams st) (<[user := p]> (creditProfiles st))
    (tierMinScores st).

Definition with_score_tier (p : CreditProfile) (s : Z) (t : RiskTier.t) : CreditProfile :=
  mkCreditProfile s (totalBorrowed p) (totalRepaid p) (successfulPayments p)
    (missedPayments p) (currentDebt p) (walletAge p) (lastAssessment p) (hasDefaulted p) t.
Definition with_payment_counts (p : CreditProfile) (repaid succ missed : Z) : CreditProfile :=
  mkCreditProfile (creditScore p) (totalBorrowed p) repaid succ missed (currentDebt p)
    (walletAge p) (lastAssessment p) (hasDefaulted p) (currentTier p).
Definition with_lastAssessment (p : CreditProfile) (v : Z) : CreditProfile :=
  mkCreditProfile (creditScore p) (totalBorrowed p) (totalRepaid p) (successfulPayments p)
    (missedPayments p) (currentDebt p) (walletAge p) v (hasDefaulted p) (currentTier p).
Definition with_debt_default (p : CreditProfile) (debt : Z) (d : bool) : CreditProfile :=
  mkCreditProfile (creditScore p) (totalBorrowed p) (totalRepaid p) (successfulPayments p)
    (missedPayments p) debt (walletAge p) (lastAssessment p) d (currentTier p).

Definition onlyPaymentController (c : Ctx) (st : State) : result unit :=
  require (bool_decide (sender c ∈ paymentControllerRole st))
    "AccessControl: account is missing role PAYMENT_CONTROLLER_ROLE".

(** [_getRiskTier(creditScore)]. *)
Definition _getRiskTier (st : State) (score : Z) : RiskTier.t :=
  if tierMinScores st RiskTier.LOW <=? score then RiskTier.LOW
  else if tierMinScores st RiskTier.MEDIUM <=? score then RiskTier.MEDIUM
  else if tierMinScores st RiskTier.HIGH <=? score then RiskTier.HIGH
  else RiskTier.DENIED.

(** [_updateCreditScore(user, points, isBonus)]. *)
Definition _updateCreditScore (user points : Z) (isBonus : bool) (st : State) : result State :=
  let p := profile st user in
  score ← (if isBonus then
             s ← cadd (creditScore p) points;
             mret (if SCORE_SCALE <? s then SCORE_SCALE else s)
           else if points <? creditScore p then csub (creditScore p) points
           else mret MIN_SCORE);
  mret (set_profile st user (with_score_tier p score (_getRiskTier st score))).

(** [recordPayment(borrower, amount, onTime)]. *)
Definition recordPayment (c : Ctx) (borrower amount : Z) (onTime : bool) (st : State)
  : result State :=
  _ ← onlyPaymentController c st;
  _ ← require (negb (borrower =? 0)) "RiskEngine: Invalid borrower address";
  _ ← require (0 <? amount) "RiskEngine: Invalid payment amount";
  let p := profile st borrower in
  repaid ← cadd (totalRepaid p) amount;
  st2 ← (if onTime then
           sp ← cadd (successfulPayments p) 1;
           let st1 := set_profile st borrower
                        (with_payment_counts p repaid sp (missedPayments p)) in
           _updateCreditScore borrower 5 true st1
         else
           mp ← cadd (missedPayments p) 1;
           let st1 := set_profile st borrower
                        (with_payment_counts p repaid (successfulPayments p) mp) in
           _updateCreditScore borrower (missedPaymentPenalty (riskParams st)) false st1);
  mret (set_profile st2 borrower (with_lastAssessment (profile st2 borrower) (now c))).

(** [recordLoanCompletion(borrower, amount)]. *)
Definition recordLoanCompletion (c : Ctx) (borrower amount : Z) (st : State) : result State :=
  _ ← onlyPaymentController c st;
  _ ← require (negb (borrower =? 0)) "RiskEngine: Invalid borrower address";
  let p := profile st borrower in
  let debt := if amount <=? currentDebt p then currentDebt p - amount else 0 in
  let st1 := set_profile st borrower (with_debt_default p debt (hasDefaulted p)) in
  st2 ← _updateCreditScore borrower 25 true st1;
  mret (set_profile st2 borrower (with_lastAssessment (profile st2 borrower) (now c))).

(** [recordDefault(borrower, amount)]. *)
Definition recordDefault (c : Ctx) (borrower amount : Z) (st : State) : result State :=
  _ ← onlyPaymentController c st;
  _ ← require (negb (borrower =? 0)) "RiskEngine: Invalid borrower address";
  _ ← require (0 <? amount) "RiskEngine: Invalid default amount";
  let p := profile st borrower in
  let st1 := set_profile st borrower (with_debt_default p 0 true) in
  st2 ← _updateCreditScore borrower (defaultPenalty (riskParams st)) false st1;
  mret (set_profile st2 borrower (with_lastAssessment (profile st2 borrower) (now c))).

(** Credit scoring and assessment. *)

Definition BASIS_POINTS : Z := 10000.

(** [_getTransactionCount(user)], from the address digits. *)
Definition _getTransactionCount (user : Z) : Z := (user / 10000) mod 10000.

(** [_getWalletAge(user)], from the address digits, at least 1. *)
Definition _getWalletAge (user : Z) : Z :=
  let age := (user mod 10000) / 10 in
  if age =? 0 then 1 else age.

(** [(max * pct) / 100], the scaled bonus of the three bonus functions. *)
Definition scaled (max pct : Z) : result Z :=
  m ← cmul max pct;
  mret (m / 100).

(** [_calculateOnchainBonus(user)]. *)
Definition _calculateOnchainBonus (st : State) (user : Z) : result Z :=
  let txCount := _getTransactionCount user in
  let mx := maxOnchainBonus (riskParams st) in
  if 1000 <=? txCount then mret mx
  else if 500 <=? txCount then scaled mx 80
  else if 100 <=? txCount then scaled mx 60
  else if 50 <=? txCount then scaled mx 40
  else if 10 <=? txCount then scaled mx 20
  else mret 0.

(** [_calculateCollateralBonus(collateralValue, loanAmount)]. *)
Definition _calculateCollateralBonus (st : State) (collateralValue loanAmount : Z) : result Z :=
  m ← cmul collateralValue BASIS_POINTS;
  collateralRatio ← cdiv m loanAmount;
  let mx := maxCollateralBonus (riskParams st) in
  if 20000 <=? collateralRatio then mret mx
  else if 15000 <=? collateralRatio then scaled mx 80
  else if 12500 <=? collateralRatio then scaled mx 60
  else if 11000 <=? collateralRatio then scaled mx 40
  else mret 0.

(** [_calculateWalletAgeBonus(walletAgeDays)]. *)
Definition _calculateWalletAgeBonus (st : State) (walletAgeDays : Z) : result Z :=
  let mx := maxWalletAgeBonus (riskParams st) in
  if 365 <=? walletAgeDays then mret mx
  else if 180 <=? walletAgeDays then scaled mx 80
  else if 90 <=? walletAgeDays then scaled mx 60
  else if 30 <=? walletAgeDays then scaled mx 40
  else if 7 <=? walletAgeDays then scaled mx 20
  else mret 0.

(** [_calculateCreditScore(user, collateralValue, loanAmount)]. *)
Definition _calculateCreditScore (st : State) (user collateralValue loanAmount : Z) : result Z :=
  let p := profile st user in
  let rp := riskParams st in
  onchainBonus ← _calculateOnchainBonus st user;
  s1 ← cadd (baseScore rp) onchainBonus;
  s2 ← (if (0 <? collateralValue) && (0 <? loanAmount) then
          collateralBonus ← _calculateCollateralBonus st collateralValue loanAmount;
          cadd s1 collateralBonus
        else mret s1);
  let walletAge := if 0 <? walletAge p then walletAge p else _getWalletAge user in
  walletAgeBonus ← _calculateWalletAgeBonus st walletAge;
  s3 ← cadd s2 walletAgeBonus;
  s4 ← (if 0 <? successfulPayments p then
          pb ← cmul (successfulPayments p) 2;
          cadd s3 (if 50 <? pb then 50 else pb)
        else mret s3);
  s5 ← (if 0 <? missedPayments p then
          missedPenalty ← cmul (missedPayments p) (missedPaymentPenalty rp);
          if missedPenalty <? s4 then csub s4 missedPenalty else mret MIN_SCORE
        else mret s4);
  s6 ← (if hasDefaulted p then
          if defaultPenalty rp <? s5 then csub s5 (defaultPenalty rp) else mret MIN_SCORE
        else mret s5);
  let s7 := if s6 <? MIN_SCORE then MIN_SCORE else s6 in
  mret (if SCORE_SCALE <? s7 then SCORE_SCALE else s7).

(** The constructor's [tierMaxAmounts] (USDC, 6 decimals). *)
Definition initialTierMaxAmounts (t : RiskTier.t) : Z :=
  match t with
  | RiskTier.LOW => 10000 * 1000000 | RiskTier.MEDIUM => 5000 * 1000000
  | RiskTier.HIGH => 2000 * 1000000 | RiskTier.DENIED => 0
  end.

(** [assessRisk(borrower, requestedAmount, collateralAmount,
    collateralValue)]; [tierMaxAmounts] is the contract's mapping of that
    name, which none of the modelled operations writes. *)
Definition assessRisk (tierMaxAmounts : RiskTier.t -> Z) (st : State)
    (borrower requestedAmount collateralAmount collateralValue : Z)
  : result PaymentController.AssessmentResult :=
  _ ← require (negb (borrower =? 0)) "RiskEngine: Invalid borrower address";
  _ ← require (0 <? requestedAmount) "RiskEngine: Invalid loan amount";
  _ ← require (0 <? collateralAmount) "RiskEngine: Invalid collateral amount";
  creditScore ← _calculateCreditScore st borrower collateralValue requestedAmount;
  let tier0 := _getRiskTier st creditScore in
  let '(approved1, reason1, tier) :=
    if creditScore <? tierMinScores st RiskTier.HIGH
    then (false, "Credit score too low", RiskTier.DENIED)
    else (true, "", tier0) in
  let '(approved2, reason2) :=
    if tierMaxAmounts tier <? requestedAmount
    then (false, "Requested amount exceeds tier limit") else (approved1, reason1) in
  m ← cmul collateralValue BASIS_POINTS;
  collateralRatio ← cdiv m requestedAmount;
  let '(approved3, reason3) :=
    if collateralRatio <? minCollateralRatio (riskParams st)
    then (false, "Insufficient collateral") else (approved2, reason2) in
  let '(approved4, reason4) :=
    if 0 <? currentDebt (profile st borrower)
    then (false, "Existing debt outstanding") else (approved3, reason3) in
  rc ← cmul requestedAmount (minCollateralRatio (riskParams st));
  mret (PaymentController.mkAssessmentResult creditScore tier (tierMaxAmounts tier)
          (rc / BASIS_POINTS) approved4 reason4).

(** [getCreditProfile(user)]. *)
Definition getCreditProfile (st : State) (user : Z) : result CreditProfile :=
  let p := profile st user in
  if 0 <? lastAssessment p then
    s ← _calculateCreditScore st user 0 0;
    mret (with_score_tier p s (_getRiskTier st s))
  else mret p.

(** [recordLoan(borrower, amount)]. *)
Definition recordLoan (c : Ctx) (borrower amount : Z) (st : State) : result State :=
  _ ← onlyPaymentController c st;
  _ ← require (negb (borrower =? 0)) "RiskEngine: Invalid borrower address";
  _ ← require (0 <? amount) "RiskEngine: Invalid loan amount";
  let p := profile st borrower in
  tb ← cadd (totalBorrowed p) amount;
  debt ← cadd (currentDebt p) amount;
  let wa := if walletAge p =? 0 then _getWalletAge borrower else walletAge p in
  mret (set_profile st borrower
          (mkCreditProfile (creditScore p) tb (totalRepaid p) (successfulPayments p)
             (missedPayments p) debt wa (now c) (hasDefaulted p) (currentTier p))).

End RiskEngine.

(** ** CollateralManager *)

Module CollateralManager.

Record CollateralPosition := mkCollateralPosition {
  owner : Z;
  token : Z;
  amount : Z;
  lockedAt : Z;
  loanId : Z;
  isLocked : bool
}.
Definition zero_position : CollateralPosition := mkCollateralPosition 0 0 0 0 0 false.

Record TokenConfig := mkTokenConfig {
  isSupported : bool;
  liquidationThreshold : Z;
  liquidationBonus : Z;
  maxLoanToValue : Z;
  priceFeed : Z
}.
Definition zero_config : TokenConfig := mkTokenConfig false 0 0 0 0.

Record State := mkState {
  paymentControllerRole : gset Z;
  collateralPositions : gmap Z CollateralPosition;
  tokenConfigs : gmap Z TokenConfig;
  tokenPrices : gmap Z Z;
  tokenDecimals : gmap Z Z;      (* IERC20Metadata(token).decimals() *)
  liquidationDelay : Z
}.

Definition BASIS_POINTS : Z := 10000.

Definition position_of (st : State) (k : Z) : CollateralPosition :=
  default zero_position (collateralPositions st !! k).
Definition config_of (st : State) (tok : Z) : TokenConfig :=
  default zero_config (tokenConfigs st !! tok).
Definition price_of (st : State) (tok : Z) : Z := default 0 (tokenPrices st !! tok).
Definition decimals_of (st : State) (tok : Z) : Z := default 0 (tokenDecimals st !! tok).

Definition set_position (st : State) (k : Z) (p : CollateralPosition) : State :=
  mkState (paymentControllerRole st) (<[k := p]> (collateralPositions st)) (tokenConfigs st)
    (tokenPrices st) (tokenDecimals st) (liquidationDelay st).

Definition onlyPaymentController (c : Ctx) (st : State) : result unit :=
  require (bool_decide (sender c ∈ paymentControllerRole st))
    "AccessControl: account is missing role PAYMENT_CONTROLLER_ROLE".

(** Checked [10 ** d]. *)
Definition cpow10 (d : Z) : result Z :=
  if 10 ^ d <=? UINT256_MAX then Ok (10 ^ d) else Revert PANIC_ARITH.

(** [getTokenPrice(token)]. *)
Definition getTokenPrice (st : State) (tok : Z) : result Z :=
  _ ← require (isSupported (config_of st tok)) "CollateralManager: Token not supported";
  let price := price_of st tok in
  _ ← require (0 <? price) "CollateralManager: Price not available";
  mret price.

(** [getCollateralValue(token, amount)]. *)
Definition getCollateralValue (st : State) (tok amt : Z) : result Z :=
  _ ← require (isSupported (config_of st tok)) "CollateralManager: Token not supported";
  tokenPrice ← getTokenPrice st tok;
  scale ← cpow10 (decimals_of st tok);
  m ← cmul amt tokenPrice;
  mret (m / scale).

(** [liquidateCollateral(loanId, token, amount)]: the new state and
    [recoveredAmount]. *)
Definition liquidateCollateral (c : Ctx) (lid tok amt : Z) (st : State) : result (State * Z) :=
  _ ← onlyPaymentController c st;
  let position := position_of st lid in
  _ ← require (isLocked position) "CollateralManager: No collateral locked";
  _ ← require (token position =? tok) "CollateralManager: Invalid token";
  _ ← require (amt <=? amount position) "CollateralManager: Insufficient collateral";
  t ← cadd (lockedAt position) (liquidationDelay st);
  _ ← require (t <=? now c) "CollateralManager: Liquidation delay not met";
  tokenPrice ← getTokenPrice st tok;
  m ← cmul amt tokenPrice;
  scale ← cpow10 (decimals_of st tok);
  let collateralValue := m / scale in
  let config := config_of st tok in
  b ← cmul collateralValue (liquidationBonus config);
  let bonus := b / BASIS_POINTS in
  recoveredAmount ← cadd collateralValue bonus;
  rest ← csub (amount position) amt;
  let position' := mkCollateralPosition (owner position) (token position) rest
                     (lockedAt position) (loanId position)
                     (if rest =? 0 then false else isLocked position) in
  mret (set_position st lid position', recoveredAmount).

(** Locking, releasing, pricing and token administration. *)

(** A call [IERC20(token).safeTransfer(From)] moving [amount] of [token]. *)
Record TokenTransfer := mkTokenTransfer { tt_token : Z; tt_from : Z; tt_to : Z; tt_amount : Z }.

(** [lockCollateral(owner, token, amount, loanId)]; [selfAddr] is
    [address(this)]. *)
Definition lockCollateral (c : Ctx) (selfAddr owner tok amt lid : Z) (st : State)
  : result (State * list TokenTransfer) :=
  _ ← onlyPaymentController c st;
  _ ← require (negb (owner =? 0)) "CollateralManager: Invalid owner";
  _ ← require (negb (tok =? 0)) "CollateralManager: Invalid token";
  _ ← require (0 <? amt) "CollateralManager: Invalid amount";
  _ ← require (isSupported (config_of st tok)) "CollateralManager: Token not supported";
  _ ← require (negb (isLocked (position_of st lid))) "CollateralManager: Collateral already locked";
  mret (set_position st lid (mkCollateralPosition owner tok amt (now c) lid true),
        [mkTokenTransfer tok owner selfAddr amt]).

(** [releaseCollateral(loanId, owner, token, amount)]. *)
Definition releaseCollateral (c : Ctx) (selfAddr lid owner' tok amt : Z) (st : State)
  : result (State * list TokenTransfer) :=
  _ ← onlyPaymentController c st;
  let position := position_of st lid in
  _ ← require (isLocked position) "CollateralManager: No collateral locked";
  _ ← require (owner position =? owner') "CollateralManager: Invalid owner";
  _ ← require (token position =? tok) "CollateralManager: Invalid token";
  _ ← require (amt <=? amount position) "CollateralManager: Insufficient collateral";
  rest ← csub (amount position) amt;
  let position' := mkCollateralPosition (owner position) (token position) rest
                     (lockedAt position) (loanId position)
                     (if rest =? 0 then false else isLocked position) in
  mret (set_position st lid position', [mkTokenTransfer tok selfAddr owner' amt]).

Definition set_price (st : State) (tok price : Z) : State :=
  mkState (paymentControllerRole st) (collateralPositions st) (tokenConfigs st)
    (<[tok := price]> (tokenPrices st)) (tokenDecimals st) (liquidationDelay st).
Definition set_config (st : State) (tok : Z) (cfg : TokenConfig) : State :=
  mkState (paymentControllerRole st) (collateralPositions st) (<[tok := cfg]> (tokenConfigs st))
    (tokenPrices st) (tokenDecimals st) (liquidationDelay st).

(** [onlyRole(role)] for a role whose holders are [holders]. *)
Definition onlyRole (holders : gset Z) (role : string) (c : Ctx) : result unit :=
  require (bool_decide (sender c ∈ holders)) ("AccessControl: account is missing role " +:+ role).

(** [updateTokenPrice(token, price)]. *)
Definition updateTokenPrice (oracles : gset Z) (c : Ctx) (tok price : Z) (st : State)
  : result State :=
  _ ← onlyRole oracles "PRICE_ORACLE_ROLE" c;
  _ ← require (isSupported (config_of st tok)) "CollateralManager: Token not supported";
  _ ← require (0 <? price) "CollateralManager: Invalid price";
  mret (set_price st tok price).

(** [calculateMaxLoan(token, amount)]. *)
Definition calculateMaxLoan (st : State) (tok amt : Z) : result Z :=
  _ ← require (isSupported (config_of st tok)) "CollateralManager: Token not supported";
  collateralValue ← getCollateralValue st tok amt;
  m ← cmul collateralValue (maxLoanToValue (config_of st tok));
  mret (m / BASIS_POINTS).

(** [checkLiquidation(loanId, loanAmount)]. *)
Definition checkLiquidation (st : State) (lid loanAmount : Z) : result bool :=
  let position := position_of st lid in
  if negb (isLocked position) then mret false
  else
    collateralValue ← getCollateralValue st (token position) (amount position);
    m ← cmul loanAmount (liquidationThreshold (config_of st (token position)));
    mret (collateralValue <? m / BASIS_POINTS).

(** The contract storage with the [supportedTokens] array. *)
Record Storage := mkStorage { cm : State; supportedTokens : list Z }.

(** [configureToken(token, liquidationThreshold, liquidationBonus,
    maxLoanToValue, priceFeed)]. *)
Definition configureToken (admins : gset Z) (c : Ctx) (tok threshold bonus maxLTV feed : Z)
    (s : Storage) : result Storage :=
  _ ← onlyRole admins "ADMIN_ROLE" c;
  _ ← require (negb (tok =? 0)) "CollateralManager: Invalid token address";
  _ ← require (BASIS_POINTS <=? threshold) "CollateralManager: Invalid liquidation threshold";
  _ ← require (bonus <=? 2000) "CollateralManager: Liquidation bonus too high";
  _ ← require (maxLTV <=? BASIS_POINTS) "CollateralManager: Invalid max LTV";
  let wasSupported := isSupported (config_of (cm s) tok) in
  let st' := set_config (cm s) tok (mkTokenConfig true threshold bonus maxLTV feed) in
  mret (mkStorage st' (if wasSupported then supportedTokens s else supportedTokens s ++ [tok])).

(** [supportedTokens[i] = supportedTokens[length - 1]; supportedTokens.pop()]. *)
Definition swap_pop (l : list Z) (i : nat) : list Z :=
  match last l with
  | Some x => removelast (<[i := x]> l)
  | None => l
  end.

(** The loop of [removeTokenSupport], from index [i]; [fuel] bounds the
    iterations and is the array length at the call site. *)
Fixpoint remove_loop (fuel : nat) (i : nat) (tok : Z) (l : list Z) : list Z :=
  match fuel with
  | O => l
  | S f =>
      match l !! i with
      | Some x => if x =? tok then swap_pop l i else remove_loop f (S i) tok l
      | None => l
      end
  end.

(** [removeTokenSupport(token)]. *)
Definition removeTokenSupport (admins : gset Z) (c : Ctx) (tok : Z) (s : Storage)
  : result Storage :=
  _ ← onlyRole admins "ADMIN_ROLE" c;
  let cfg := config_of (cm s) tok in
  _ ← require (isSupported cfg) "CollateralManager: Token not supported";
  let st' := set_config (cm s) tok (mkTokenConfig false (liquidationThreshold cfg)
                                     (liquidationBonus cfg) (maxLoanToValue cfg) (priceFeed cfg)) in
  mret (mkStorage st' (remove_loop (length (supportedTokens s)) 0 tok (supportedTokens s))).

(** [supportedTokens] lists each supported token exactly once. *)
Definition registry_ok (s : Storage) : Prop :=
  NoDup (supportedTokens s) /\
  forall t, t ∈ supportedTokens s <-> isSupported (config_of (cm s) t) = true.

(** [setLiquidationDelay(newDelay)]. *)
Definition set_liquidationDelay (st : State) (d : Z) : State :=
  mkState (paymentControllerRole st) (collateralPositions st) (tokenConfigs st)
    (tokenPrices st) (tokenDecimals st) d.
Definition setLiquidationDelay (admins : gset Z) (c : Ctx) (newDelay : Z) (st : State)
  : result State :=
  _ ← onlyRole admins "ADMIN_ROLE" c;
  _ ← require (newDelay <=? 7 * 86400) "CollateralManager: Delay too long";
  mret (set_liquidationDelay st newDelay).

(** Every position holds a non-negative amount and is locked exactly while
    that amount is positive. *)
Definition positions_ok (st : State) : Prop :=
  forall lid, 0 <= amount (position_of st lid) /\
    (isLocked (position_of st lid) = true <-> 0 < amount (position_of st lid)).

End CollateralManager.

(** * Concrete states *)

Module LendingPoolFixtures.
Import LendingPool.

(** The APYs the constructor writes. *)
Definition initialTierAPY (t : RiskTier) : Z :=
  match t with LOW => 400 | MEDIUM => 800 | HIGH => 1500 end.

(** A freshly deployed pool at address 7 whose payment controller is 9. *)
Definition fresh_pool : Pool :=
  mkPool 7 {[9]} false (mkPoolStats 0 0 0 0 0 0 0 0) ∅ initialTierAPY (λ _, 0) 0 0.

Definition lender_ctx : Ctx := mkCtx 1 1000.
Definition controller_ctx : Ctx := mkCtx 9 1000.

(** [fresh_pool] after lender 1 deposits 1000 in the LOW tier at time 1000. *)
Definition pool_deposited : Pool :=
  mkPool 7 {[9]} false (mkPoolStats 1000 0 0 0 0 0 1 0)
    {[1 := mkLenderPosition 1000 0 1000 LOW false]} initialTierAPY
    (λ t, if RiskTier_eqb LOW t then 1000 else 0) 20 1000.

(** [pool_deposited] after the controller funds a loan of 500 to borrower 5. *)
Definition pool_funded : Pool :=
  mkPool 7 {[9]} false (mkPoolStats 1000 500 0 0 0 0 1 1)
    {[1 := mkLenderPosition 1000 0 1000 LOW false]} initialTierAPY
    (λ t, if RiskTier_eqb LOW t then 1000 else 0) 20 1000.

(** [fresh_pool] after lender 1 deposits 100 in the LOW tier at time 1000. *)
Definition pool_small : Pool :=
  mkPool 7 {[9]} false (mkPoolStats 100 0 0 0 0 0 1 0)
    {[1 := mkLenderPosition 100 0 1000 LOW false]} initialTierAPY
    (λ t, if RiskTier_eqb LOW t then 100 else 0) 2 100.

(** [pool_funded] after the controller reports a loss of 100 on loan 1 with
    nothing recovered: the reserve of 20 covers part of it. *)
Definition pool_defaulted : Pool :=
  mkPool 7 {[9]} false (mkPoolStats 1000 400 0 100 0 0 1 1)
    {[1 := mkLenderPosition 1000 0 1000 LOW false]} initialTierAPY
    (λ t, if RiskTier_eqb LOW t then 1000 else 0) 0 1000.

(** [pool_funded] after the controller repays 100 of loan 1. *)
Definition pool_repaid : Pool :=
  mkPool 7 {[9]} false (mkPoolStats 1100 400 0 0 0 0 1 1)
    {[1 := mkLenderPosition 1000 0 1000 LOW false]} initialTierAPY
    (λ t, if RiskTier_eqb LOW t then 1000 else 0) 20 1000.

(** The admin account 3, at time 1000. *)
Definition admin_ctx : Ctx := mkCtx 3 1000.

(** Address 2, which never deposited, at time 2000. *)
Definition stranger_ctx : Ctx := mkCtx 2 2000.

(** Lender 1, one year after its deposit. *)
Definition lender_year_ctx : Ctx := mkCtx 1 (1000 + SECONDS_PER_YEAR).

(** [pool_deposited] after lender 1 claims the 40 of yield one year of 4%
    earns on 1000. *)
Definition pool_claimed : Pool :=
  mkPool 7 {[9]} false (mkPoolStats 1000 0 40 0 0 0 1 0)
    {[1 := mkLenderPosition 1000 0 (1000 + SECONDS_PER_YEAR) LOW false]} initialTierAPY
    (λ t, if RiskTier_eqb LOW t then 1000 else 0) 20 1000.

End LendingPoolFixtures.

Module PaymentControllerFixtures.
Import SharedTypes PaymentController.

(** The templates [_initializePaymentTemplates] installs. *)
Definition standard_terms : PaymentTerms := mkPaymentTerms 4 14 0 250.
Definition initialTemplates : gmap string PaymentTerms :=
  <["standard" := standard_terms]>
  (<["extended_6" := mkPaymentTerms 6 15 300 250]>
   {["extended_12" := mkPaymentTerms 12 15 600 250]}).

(** A freshly deployed controller at address 20, wired to the lending pool
    at address 7, with the active merchant 30 registered. *)
Definition pc_initial : State :=
  mkState 20 7 false 1 1 ∅ ∅ ∅ {[30 := Merchant.mk "Shop" 30 0 0 true 0]} initialTemplates.

Definition t0 : Z := 1000000.
Definition DAY : Z := 86400.
(** Borrower 40, acting at time [t0]. *)
Definition borrower_ctx : Ctx := mkCtx 40 t0.
(** What [riskEngine.assessRisk] answers for borrower 40. *)
Definition approval : AssessmentResult := mkAssessmentResult 700 RiskTier.LOW 5000 500 true "".

(** [pc_initial] after borrower 40 buys for 1000 from merchant 30 on the
    standard plan, locking 500 of token 50. *)
Definition pc_created : State :=
  mkState 20 7 false 2 1
    {[1 := Loan.mk 1 40 30 1000 1000 500 50 standard_terms LoanStatus.APPROVED t0 0 0 1000
             RiskTier.LOW]}
    ∅ ∅ {[30 := Merchant.mk "Shop" 30 0 0 true 0]} initialTemplates.

(** [pc_created] after loan 1 is funded at time [t0]: four payments of 250,
    due every 14 days from [t0]. *)
Definition pc_funded : State :=
  mkState 20 7 false 2 5
    {[1 := Loan.mk 1 40 30 1000 1000 500 50 standard_terms LoanStatus.ACTIVE t0
             (t0 + 14 * DAY) 0 1000 RiskTier.LOW]}
    (<[1 := Payment.mk 1 1 250 (t0 + 14 * DAY) 0 PaymentStatus.PENDING 0]>
     (<[2 := Payment.mk 2 1 250 (t0 + 28 * DAY) 0 PaymentStatus.PENDING 0]>
      (<[3 := Payment.mk 3 1 250 (t0 + 42 * DAY) 0 PaymentStatus.PENDING 0]>
       {[4 := Payment.mk 4 1 250 (t0 + 56 * DAY) 0 PaymentStatus.PENDING 0]})))
    {[1 := [1; 2; 3; 4]]}
    {[30 := Merchant.mk "Shop" 30 1000 1 true 0]} initialTemplates.

(** Borrower 40, three days after the first due date. *)
Definition late_ctx : Ctx := mkCtx 40 (t0 + 14 * DAY + 3 * DAY).

(** [pc_funded] after payment 1 is made at [late_ctx]: it is LATE with a fee
    of 6, the loan has 256 paid and 750 remaining. *)
Definition pc_paid_late : State :=
  mkState 20 7 false 2 5
    {[1 := Loan.mk 1 40 30 1000 1000 500 50 standard_terms LoanStatus.ACTIVE t0
             (t0 + 28 * DAY) 256 750 RiskTier.LOW]}
    (<[1 := Payment.mk 1 1 250 (t0 + 14 * DAY) (t0 + 17 * DAY) PaymentStatus.LATE 6]>
     (<[2 := Payment.mk 2 1 250 (t0 + 28 * DAY) 0 PaymentStatus.PENDING 0]>
      (<[3 := Payment.mk 3 1 250 (t0 + 42 * DAY) 0 PaymentStatus.PENDING 0]>
       {[4 := Payment.mk 4 1 250 (t0 + 56 * DAY) 0 PaymentStatus.PENDING 0]})))
    {[1 := [1; 2; 3; 4]]}
    {[30 := Merchant.mk "Shop" 30 1000 1 true 0]} initialTemplates.

(** The automation account 99, holding ADMIN_ROLE, one day after the first
    due date of [pc_funded]. *)
Definition automation_ctx : Ctx := mkCtx 99 (t0 + 15 * DAY).
(** The same account 31 days after that first due date. *)
Definition sweep_ctx : Ctx := mkCtx 99 (t0 + 45 * DAY).

End PaymentControllerFixtures.

Module RiskEngineFixtures.
Import SharedTypes RiskEngine.

(** A RiskEngine whose payment controller is 9, where borrower 40 has a
    profile of score 320 (HIGH tier) and borrower 41 has never been
    assessed. *)
Definition re_state : State :=
  mkState {[9]} initialRiskParams
    {[40 := mkCreditProfile 320 1000 0 0 0 1000 0 0 false RiskTier.HIGH]}
    initialTierMinScores.

Definition re_ctx : Ctx := mkCtx 9 2000000.

End RiskEngineFixtures.

Module CollateralManagerFixtures.
Import CollateralManager.

Definition LOCK_TIME : Z := 1000000.

(** Loan 1's collateral: 500 units of token 50 (0 decimals) owned by 40,
    locked at [LOCK_TIME], with a 5% liquidation bonus, under the 48-hour
    delay the constructor sets. [price] is the token's oracle price. *)
Definition cm_state (price : Z) : State :=
  mkState {[9]} {[1 := mkCollateralPosition 40 50 500 LOCK_TIME 1 true]}
    {[50 := mkTokenConfig true 8500 500 7000 0]} {[50 := price]} {[50 := 0]}
    (48 * 3600).

Definition early_ctx : Ctx := mkCtx 9 (LOCK_TIME + 3600).
Definition after_delay_ctx : Ctx := mkCtx 9 (LOCK_TIME + 48 * 3600).

(** The registry of [cm_state 2]: token 50 is its only supported token;
    account 3 holds ADMIN_ROLE and account 5 PRICE_ORACLE_ROLE. *)
Definition cm_storage : Storage := mkStorage (cm_state 2) [50].
Definition cm_admin_ctx : Ctx := mkCtx 3 LOCK_TIME.
Definition cm_oracle_ctx : Ctx := mkCtx 5 LOCK_TIME.

End CollateralManagerFixtures.

(** * Proofs *)

(** ** Successful computations *)

Lemma bind_Ok {A B} (m : result A) (f : A -> result B) (b : B) :
  (m ≫= f) = Ok b -> exists a, m = Ok a /\ f a = Ok b.
Proof. destruct m as [a|r]; simpl; [eauto | discriminate]. Qed.

Lemma UINT256_MAX_large : 10 ^ 70 <= UINT256_MAX.
Proof. unfold UINT256_MAX. vm_compute. discriminate. Qed.

Lemma cadd_Ok a b r : cadd a b = Ok r -> r = a + b /\ a + b <= UINT256_MAX.
Proof. unfold cadd. destruct (Z.leb_spec (a + b) UINT256_MAX); intros Hr; inversion Hr; lia. Qed.
Lemma csub_Ok a b r : csub a b = Ok r -> r = a - b /\ b <= a.
Proof. unfold csub. destruct (Z.leb_spec b a); intros Hr; inversion Hr; lia. Qed.
Lemma cmul_Ok a b r : cmul a b = Ok r -> r = a * b /\ a * b <= UINT256_MAX.
Proof. unfold cmul. destruct (Z.leb_spec (a * b) UINT256_MAX); intros Hr; inversion Hr; lia. Qed.
Lemma cdiv_Ok a b r : cdiv a b = Ok r -> r = a / b /\ b <> 0.
Proof. unfold cdiv. destruct (Z.eqb_spec b 0); intros Hr; inversion Hr; lia. Qed.
Lemma require_Ok c s u : require c s = Ok u -> c = true.
Proof. unfold require. destruct c; [done | discriminate]. Qed.

(** Peel one bind of a successful computation, naming the intermediate. *)
Ltac peel H :=
  match type of H with
  | (_ ≫= _) = Ok _ =>
      let a := fresh "v" in let Ha := fresh "Hv" in
      apply bind_Ok in H; destruct H as [a [Ha H]]
  end.

Lemma mret_Ok {A} (a b : A) : (mret a : result A) = Ok b -> a = b.
Proof. intros H. by injection H. Qed.

(** Take a successful transaction apart, one step at a time. *)
Ltac ok_step :=
  match goal with
  | H : (_ ≫= _) = Ok _ |- _ => peel H; cbn beta iota in H
  | H : cadd _ _ = Ok _ |- _ => apply cadd_Ok in H as [? ?]; subst
  | H : csub _ _ = Ok _ |- _ => apply csub_Ok in H as [? ?]; subst
  | H : cmul _ _ = Ok _ |- _ => apply cmul_Ok in H as [? ?]; subst
  | H : cdiv _ _ = Ok _ |- _ => apply cdiv_Ok in H as [? ?]; subst
  | H : require _ _ = Ok _ |- _ => apply require_Ok in H
  | H : mret _ = Ok _ |- _ => apply mret_Ok in H; subst
  | H : Ok _ = Ok _ |- _ => injection H; clear H; intros; subst
  | H : (_, _) = (_, _) |- _ => injection H; clear H; intros; subst
  | H : Revert _ = Ok _ |- _ => discriminate H
  | H : (if ?b then _ else _) = Ok _ |- _ => let E := fresh "E" in destruct b eqn:E
  end.
Ltac ok_steps := repeat ok_step.

Create Rewrite HintDb pool_simpl.

Ltac bool_to_prop :=
  repeat match goal with
  | H : (_ <=? _) = true |- _ => apply Z.leb_le in H
  | H : (_ <=? _) = false |- _ => apply Z.leb_gt in H
  | H : (_ <? _) = true |- _ => apply Z.ltb_lt in H
  | H : (_ <? _) = false |- _ => apply Z.ltb_ge in H
  | H : (_ =? _) = true |- _ => apply Z.eqb_eq in H
  | H : (_ =? _) = false |- _ => apply Z.eqb_neq in H
  | H : (_ && _) = true |- _ => apply andb_prop in H as [? ?]
  | H : (_ && _) = false |- _ => apply andb_false_iff in H as [?|?]
  | H : negb _ = true |- _ => apply negb_true_iff in H
  | H : negb _ = false |- _ => apply negb_false_iff in H
  end.

(** Run a transaction forward, splitting on every test it makes and
    discarding the branches the arithmetic facts in context rule out. *)
Ltac run_ok :=
  repeat (cbv beta iota zeta delta [mbind result_bind mret result_ret require
                                    cadd csub cmul cdiv negb andb];
          match goal with
          | |- context [if ?b then _ else _] =>
              let E := fresh "E" in destruct b eqn:E; bool_to_prop; try lia
          end);
  cbv beta iota zeta delta [mbind result_bind mret result_ret require
                            cadd csub cmul cdiv negb andb].

(** ** LendingPool *)

Module LendingPoolProofs.
Import LendingPool.

Lemma position_set_eq p a pos : position (set_position p a pos) a = pos.
Proof. unfold position, set_position; simpl. by rewrite lookup_insert_eq. Qed.

Lemma position_set_ne p a b pos : a ≠ b -> position (set_position p a pos) b = position p b.
Proof. intros Hne. unfold position, set_position; simpl. by rewrite lookup_insert_ne. Qed.

(** Settling yield rewrites only the lender's yield and timestamp. *)
Lemma updateLenderYield_spec c a p p1 :
  _updateLenderYield c a p = Ok p1 ->
  exists ye, p1 = set_position p a
    (mkLenderPosition (deposited (position p a)) ye (now c)
       (riskTier (position p a)) (autoReinvest (position p a))).
Proof.
  unfold _updateLenderYield. intros H. peel H.
  destruct ((0 <? deposited (position p a)) && (0 <? lastUpdateTime (position p a)));
    ok_steps; eexists; reflexivity.
Qed.

(** With no time elapsed since the last settlement, no yield is added. *)
Lemma updateLenderYield_same_time c a p p1 :
  lastUpdateTime (position p a) = now c ->
  deposited (position p a) * tierAPY p (riskTier (position p a)) <= UINT256_MAX ->
  _updateLenderYield c a p = Ok p1 ->
  p1 = set_position p a (with_lastUpdateTime (position p a) (now c)).
Proof.
  intros Ht Hm H. unfold _updateLenderYield in H. peel H.
  destruct ((0 <? deposited (position p a)) && (0 <? lastUpdateTime (position p a))).
  - unfold _calculateYield in Hv. ok_steps.
    rewrite Ht, Z.sub_diag, Z.mul_0_r, Zdiv_0_l, Z.add_0_r.
    destruct (position p a); reflexivity.
  - ok_steps. reflexivity.
Qed.

Lemma RiskTier_eqb_refl t : RiskTier_eqb t t = true.
Proof. by destruct t. Qed.

Lemma tierLiquidity_set_eq p t v : tierLiquidity (set_tierLiquidity p t v) t = v.
Proof. destruct t; reflexivity. Qed.

Arguments position : simpl never.
Arguments set_position : simpl never.

Lemma set_position_poolStats p a pos : poolStats (set_position p a pos) = poolStats p.
Proof. reflexivity. Qed.
Lemma set_position_tierLiquidity p a pos : tierLiquidity (set_position p a pos) = tierLiquidity p.
Proof. reflexivity. Qed.
Lemma set_position_tierAPY p a pos : tierAPY (set_position p a pos) = tierAPY p.
Proof. reflexivity. Qed.
Lemma set_position_reserveFund p a pos : reserveFund (set_position p a pos) = reserveFund p.
Proof. reflexivity. Qed.
Lemma set_position_totalSupply p a pos : _totalSupply (set_position p a pos) = _totalSupply p.
Proof. reflexivity. Qed.
Lemma set_position_self p a pos : self (set_position p a pos) = self p.
Proof. reflexivity. Qed.
Lemma set_position_paused p a pos : paused (set_position p a pos) = paused p.
Proof. reflexivity. Qed.

Lemma position_set_reserveFund p v a : position (set_reserveFund p v) a = position p a.
Proof. reflexivity. Qed.
Lemma position_set_totalSupply p v a : position (set_totalSupply p v) a = position p a.
Proof. reflexivity. Qed.
Lemma position_set_tierLiquidity p t v a : position (set_tierLiquidity p t v) a = position p a.
Proof. reflexivity. Qed.
Lemma position_set_stats p s a : position (set_stats p s) a = position p a.
Proof. reflexivity. Qed.
Lemma set_position_twice p a x y : set_position (set_position p a x) a y = set_position p a y.
Proof. unfold set_position; simpl. by rewrite insert_insert_eq. Qed.

Global Hint Rewrite position_set_reserveFund position_set_totalSupply
  position_set_tierLiquidity position_set_stats set_position_twice : pool_simpl.
Global Hint Rewrite position_set_eq set_position_poolStats set_position_tierLiquidity
  set_position_tierAPY set_position_reserveFund set_position_totalSupply
  set_position_self set_position_paused tierLiquidity_set_eq RiskTier_eqb_refl : pool_simpl.

(** C10: a deposit credits the whole [amount] to the lender, to the pool's
    total liquidity and to the tier, and adds [amount * 200 / 10000] to the
    reserve fund on top, without deducting it from any of them. *)
Theorem deposit_credits_full_amount c amount tier p p' tr :
  deposit c amount tier p = Ok (p', tr) ->
  deposited (position p' (sender c)) = deposited (position p (sender c)) + amount /\
  totalLiquidity (poolStats p') = totalLiquidity (poolStats p) + amount /\
  tierLiquidity p' tier = tierLiquidity p tier + amount /\
  reserveFund p' = reserveFund p + amount * 200 / 10000.
Proof.
  unfold deposit. intros H. ok_steps.
  all: apply updateLenderYield_spec in Hv1 as [ye ->].
  all: autorewrite with pool_simpl in *; simpl; autorewrite with pool_simpl in *; simpl.
  all: repeat split; reflexivity.
Qed.

Lemma total_deposited_insert (m : gmap Z LenderPosition) a pos :
  total_deposited (<[a := pos]> m) =
  total_deposited m - deposited (default zero_position (m !! a)) + deposited pos.
Proof.
  unfold total_deposited. destruct (m !! a) as [x|] eqn:E; simpl.
  - rewrite <- insert_delete_eq.
    rewrite map_fold_insert_L; [| intros; lia | apply lookup_delete_eq].
    rewrite (map_fold_delete_L _ _ a x m); [lia | intros; lia | exact E].
  - rewrite map_fold_insert_L; [lia | intros; lia | exact E].
Qed.

Lemma total_set_position p a pos :
  total_deposited (lenderPositions (set_position p a pos)) =
  total_deposited (lenderPositions p) - deposited (position p a) + deposited pos.
Proof. apply total_deposited_insert. Qed.

Lemma updateLenderYield_total c a p p1 :
  _updateLenderYield c a p = Ok p1 ->
  total_deposited (lenderPositions p1) = total_deposited (lenderPositions p) /\
  poolStats p1 = poolStats p.
Proof.
  intros H. apply updateLenderYield_spec in H as [ye ->].
  rewrite total_set_position. simpl. split; [lia | reflexivity].
Qed.

(** The value [_getAvailableLiquidity] returns, when it returns. *)
Lemma getAvailableLiquidity_Ok p a :
  _getAvailableLiquidity p = Ok a ->
  a = Z.max 0 (totalLiquidity (poolStats p) * MAX_UTILIZATION / BASIS_POINTS
               - totalLoaned (poolStats p)) /\
  totalLiquidity (poolStats p) * MAX_UTILIZATION <= UINT256_MAX.
Proof.
  unfold _getAvailableLiquidity. intros H. ok_steps; split; lia.
Qed.

Lemma getAvailableLiquidity_eq p :
  totalLiquidity (poolStats p) * MAX_UTILIZATION <= UINT256_MAX ->
  _getAvailableLiquidity p =
    Ok (Z.max 0 (totalLiquidity (poolStats p) * MAX_UTILIZATION / BASIS_POINTS
                 - totalLoaned (poolStats p))).
Proof.
  intros H. unfold _getAvailableLiquidity, cmul.
  destruct (Z.leb_spec (totalLiquidity (poolStats p) * MAX_UTILIZATION) UINT256_MAX);
    [| lia]. cbn [mbind result_bind].
  destruct (Z.leb_spec (totalLiquidity (poolStats p) * MAX_UTILIZATION / BASIS_POINTS)
              (totalLoaned (poolStats p))); unfold mret, result_ret; f_equal; lia.
Qed.

(** C4: a successful [fundLoan] leaves [totalLoaned] within 90% of
    [totalLiquidity]; an amount above the available liquidity
    [max 0 (min (L * 9000 / 10000) L - totalLoaned)] is always refused, and
    for an authorised call with a valid borrower the refusal is the
    insufficient-liquidity error. *)
Theorem fundLoan_utilization_cap c loanId borrower amount tier p :
  0 <= totalLiquidity (poolStats p) ->
  (forall p' tr, fundLoan c loanId borrower amount tier p = Ok (p', tr) ->
     totalLoaned (poolStats p') <= totalLiquidity (poolStats p') * 9000 / 10000) /\
  (amount > Z.max 0 (Z.min (totalLiquidity (poolStats p) * 9000 / 10000)
                           (totalLiquidity (poolStats p)) - totalLoaned (poolStats p)) ->
     (exists r, fundLoan c loanId borrower amount tier p = Revert r) /\
     (sender c ∈ paymentControllerRole p -> borrower <> 0 ->
      totalLiquidity (poolStats p) * MAX_UTILIZATION <= UINT256_MAX ->
      fundLoan c loanId borrower amount tier p = Revert "LendingPool: Insufficient liquidity")).
Proof.
  intros HL.
  assert (Hmin : Z.min (totalLiquidity (poolStats p) * 9000 / 10000)
                       (totalLiquidity (poolStats p)) =
                 totalLiquidity (poolStats p) * 9000 / 10000).
  { apply Z.min_l. apply Z.div_le_upper_bound; lia. }
  rewrite Hmin. split.
  - intros p' tr H. unfold fundLoan in H. ok_steps.
    match goal with
    | Ha : _getAvailableLiquidity _ = Ok _ |- _ => apply getAvailableLiquidity_Ok in Ha as [-> _]
    end. simpl.
    unfold MAX_UTILIZATION, BASIS_POINTS in *. lia.
  - intros Hgt.
    assert (Hfail : forall a, _getAvailableLiquidity p = Ok a -> (amount <=? a) = false).
    { intros a Ha. apply getAvailableLiquidity_Ok in Ha as [-> _].
      apply Z.leb_gt. unfold MAX_UTILIZATION, BASIS_POINTS. lia. }
    split.
    + unfold fundLoan.
      destruct (onlyPaymentController c p) as [[]|r]; cbn [mbind result_bind]; [| eauto].
      destruct (require (0 <? amount) _) as [[]|r]; cbn [mbind result_bind]; [| eauto].
      destruct (require (negb (borrower =? 0)) _) as [[]|r]; cbn [mbind result_bind]; [| eauto].
      destruct (_getAvailableLiquidity p) as [a|r] eqn:Ha; cbn [mbind result_bind]; [| eauto].
      rewrite (Hfail a eq_refl). eexists; reflexivity.
    + intros Hrole Hb Hov. unfold fundLoan, onlyPaymentController.
      rewrite bool_decide_eq_true_2 by exact Hrole. cbn [require mbind result_bind].
      replace (0 <? amount) with true by (symmetry; apply Z.ltb_lt; lia).
      replace (borrower =? 0) with false by (symmetry; apply Z.eqb_neq; exact Hb).
      cbn [require negb mbind result_bind].
      rewrite (getAvailableLiquidity_eq p Hov). cbn [mbind result_bind].
      rewrite Hfail by (apply getAvailableLiquidity_eq; exact Hov). reflexivity.
Qed.

Lemma updateLenderYield_same_time_eq c a p :
  lastUpdateTime (position p a) = now c ->
  deposited (position p a) * tierAPY p (riskTier (position p a)) <= UINT256_MAX ->
  yieldEarned (position p a) <= UINT256_MAX ->
  _updateLenderYield c a p = Ok (set_position p a (with_lastUpdateTime (position p a) (now c))).
Proof.
  intros Ht Hm Hy. unfold _updateLenderYield, _calculateYield. rewrite Ht.
  unfold BASIS_POINTS, SECONDS_PER_YEAR in *. pose proof UINT256_MAX_large.
  run_ok; rewrite ?Z.sub_diag, ?Z.mul_0_r, ?Zdiv_0_l, ?Z.add_0_r in *; try lia.
  all: unfold with_lastUpdateTime, with_yieldEarned; by destruct (position p a).
Qed.

Lemma withdraw_same_time c X q pos :
  position q (sender c) = pos ->
  paused q = false -> lastUpdateTime pos = now c -> 0 <= X <= deposited pos ->
  deposited pos * tierAPY q (riskTier pos) <= UINT256_MAX ->
  yieldEarned pos <= UINT256_MAX ->
  totalLiquidity (poolStats q) * MAX_UTILIZATION <= UINT256_MAX ->
  X <= tierLiquidity q (riskTier pos) -> X <= totalLiquidity (poolStats q) ->
  X <= _totalSupply q -> (deposited pos = X -> 1 <= totalLenders (poolStats q)) ->
  withdraw c X q =
    if X <=? Z.max 0 (totalLiquidity (poolStats q) * MAX_UTILIZATION / BASIS_POINTS
                      - totalLoaned (poolStats q)) then
      Ok (set_totalSupply
            (set_stats
               (set_tierLiquidity
                  (set_position q (sender c)
                     (with_deposited (with_lastUpdateTime pos (now c)) (deposited pos - X)))
                  (riskTier pos) (tierLiquidity q (riskTier pos) - X))
               (with_totalLiquidity
                  (with_totalLenders (poolStats q)
                     (if deposited pos - X =? 0 then totalLenders (poolStats q) - 1
                      else totalLenders (poolStats q)))
                  (totalLiquidity (poolStats q) - X)))
            (_totalSupply q - X),
          [mkTransfer (self q) (sender c) X])
    else Revert "LendingPool: Insufficient pool liquidity".
Proof.
  intros Hpos Hp Ht HX Hm Hy Hcap HXt HXl HXs Htl. subst pos.
  unfold withdraw, whenNotPaused. rewrite Hp.
  rewrite (updateLenderYield_same_time_eq c (sender c) q) by assumption.
  replace (X <=? deposited (position q (sender c))) with true by (symmetry; apply Z.leb_le; lia).
  cbv beta iota delta [mbind result_bind mret result_ret require negb].
  rewrite getAvailableLiquidity_eq by (rewrite set_position_poolStats; assumption).
  rewrite set_position_poolStats.
  autorewrite with pool_simpl; simpl.
  destruct (X <=? _); [| reflexivity].
  run_ok; by rewrite ?set_position_twice.
Qed.

Lemma updateLenderYield_yield_bound c a p p1 :
  yieldEarned (position p a) <= UINT256_MAX ->
  _updateLenderYield c a p = Ok p1 -> yieldEarned (position p1 a) <= UINT256_MAX.
Proof.
  intros Hy H. unfold _updateLenderYield, _calculateYield in H. ok_steps;
    autorewrite with pool_simpl; simpl; lia.
Qed.

(** C3, a defect of the code: [withdraw] checks the amount against
    [_getAvailableLiquidity], documented as the liquidity available for new
    loans, so the 90% loan cap also limits withdrawals. After
    [deposit c X tier], an immediate [withdraw c X] by the same lender
    succeeds exactly when [X <= max 0 ((L + X) * 9000 / 10000 - totalLoaned)],
    not whenever [X] is unloaned; when it succeeds it pays out [X], restores
    the lender's deposit and leaves the yield settled by the deposit
    unchanged. *)
Theorem deposit_withdraw_roundtrip c X tier p p1 tr1 :
  pool_wf p -> deposit c X tier p = Ok (p1, tr1) ->
  (deposited (position p (sender c)) + X) * tierAPY p tier <= UINT256_MAX ->
  (totalLiquidity (poolStats p) + X) * MAX_UTILIZATION <= UINT256_MAX ->
  ((exists p2 tr2, withdraw c X p1 = Ok (p2, tr2)) <->
   X <= Z.max 0 ((totalLiquidity (poolStats p) + X) * 9000 / 10000 - totalLoaned (poolStats p))) /\
  (forall p2 tr2, withdraw c X p1 = Ok (p2, tr2) ->
     tr2 = [mkTransfer (self p) (sender c) X] /\
     deposited (position p2 (sender c)) = deposited (position p (sender c)) /\
     yieldEarned (position p2 (sender c)) = yieldEarned (position p1 (sender c))).
Proof.
  intros Hwf Hd Happ Hcap.
  destruct Hwf as (HL & Hlo & Htl & Hts & Htier & Hdep & Hye). unfold uint256 in *.
  pose proof (Hdep (sender c)). pose proof (Htier tier).
  unfold deposit, whenNotPaused in Hd. ok_steps; bool_to_prop.
  all: pose proof (updateLenderYield_yield_bound _ _ _ _ (proj2 (Hye (sender c))) Hv1) as Hye1.
  all: apply updateLenderYield_spec in Hv1 as [ye ->].
  all: autorewrite with pool_simpl in *; simpl in *; autorewrite with pool_simpl in *; simpl in *.
  all: match goal with |- context [withdraw _ _ ?q] =>
         rewrite (withdraw_same_time c X q (position q (sender c)) eq_refl) end.
  all: autorewrite with pool_simpl; simpl; autorewrite with pool_simpl; simpl.
  all: try solve [assumption | lia | reflexivity].
  all: unfold MAX_UTILIZATION, BASIS_POINTS.
  all: match goal with |- context [if ?b then _ else _] => destruct b eqn:Eb end; bool_to_prop.
  all: split; [split |].
  all: try solve [intros (? & ? & ?); discriminate | intros; discriminate | lia | eauto].
  all: intros p2 tr2 Heq; injection Heq as <- <-.
  all: autorewrite with pool_simpl; simpl; autorewrite with pool_simpl; simpl.
  all: repeat split; lia.
Qed.

(** C2, a defect of the code: deposit, withdraw, claimYield and fundLoan
    keep the sum of lender deposits equal to [totalLiquidity], but repayLoan
    and handleDefault raise [totalLiquidity] by the repaid amount and by
    [recoveredAmount] without touching any lender position, because
    [_distributeYield] and [_distributeLoss], documented to credit and charge
    the lenders, are left with bodies that do nothing. *)
Theorem pool_liquidity_conservation :
  (forall c amount tier p p' tr,
     conserved p -> deposit c amount tier p = Ok (p', tr) -> conserved p') /\
  (forall c amount p p' tr,
     conserved p -> withdraw c amount p = Ok (p', tr) -> conserved p') /\
  (forall c p p' tr,
     conserved p -> claimYield c p = Ok (p', tr) -> conserved p') /\
  (forall c lid borrower amount tier p p' tr,
     conserved p -> fundLoan c lid borrower amount tier p = Ok (p', tr) -> conserved p') /\
  (forall c lid amount tier p p' tr,
     repayLoan c lid amount tier p = Ok (p', tr) ->
     lenderPositions p' = lenderPositions p /\
     totalLiquidity (poolStats p') = totalLiquidity (poolStats p) + amount) /\
  (forall c lid lossAmount recoveredAmount p p' tr,
     0 <= recoveredAmount ->
     handleDefault c lid lossAmount recoveredAmount p = Ok (p', tr) ->
     lenderPositions p' = lenderPositions p /\
     totalLiquidity (poolStats p') = totalLiquidity (poolStats p) + recoveredAmount).
Proof.
  unfold conserved. split; [| split; [| split; [| split; [| split]]]].
  - intros c amount tier p p' tr Hc H. unfold deposit in H. ok_steps.
    all: match goal with
         | Hy : _updateLenderYield _ _ _ = Ok _ |- _ =>
             apply updateLenderYield_total in Hy as Ht; destruct Ht as [Ht Hs]
         end.
    all: simpl; rewrite total_deposited_insert, Ht; simpl; rewrite Hs in *; unfold position in *; simpl; lia.
  - intros c amount p p' tr Hc H. unfold withdraw in H. ok_steps.
    all: match goal with
         | Hy : _updateLenderYield _ _ _ = Ok _ |- _ =>
             apply updateLenderYield_total in Hy as Ht; destruct Ht as [Ht Hs]
         end.
    all: simpl; rewrite total_deposited_insert, Ht; simpl; rewrite Hs in *; unfold position in *; simpl; lia.
  - intros c p p' tr Hc H. unfold claimYield in H. ok_steps.
    match goal with
    | Hy : _updateLenderYield _ _ _ = Ok _ |- _ =>
        apply updateLenderYield_total in Hy as Ht; destruct Ht as [Ht Hs]
    end.
    simpl; rewrite total_deposited_insert, Ht; simpl; rewrite Hs in *; unfold position in *; simpl; lia.
  - intros c lid borrower amount tier p p' tr Hc H. unfold fundLoan in H. ok_steps.
    exact Hc.
  - intros c lid amount tier p p' tr H. unfold repayLoan, _distributeYield in H. ok_steps.
    all: split; reflexivity.
  - intros c lid lossAmount recoveredAmount p p' tr Hr H.
    unfold handleDefault, _distributeLoss in H. ok_steps.
    all: simpl; split; [reflexivity | try lia].
    all: match goal with Hz : (0 <? _) = false |- _ => apply Z.ltb_ge in Hz end.
    all: lia.
Qed.

(** C6, a defect of the code: [handleDefault] takes the loss out of the
    reserve fund when the fund covers it and otherwise empties the fund and
    calls [_distributeLoss] on the shortfall; that function, documented to
    distribute losses proportionally across all lenders, does nothing, so
    every lender position and the share supply stay as they were.
    [recoveredAmount] is added to [totalLiquidity], the loss to
    [totalDefaulted], and the loss is taken off [totalLoaned]. *)
Theorem handleDefault_effect c lid lossAmount recoveredAmount p p' tr :
  0 <= recoveredAmount ->
  handleDefault c lid lossAmount recoveredAmount p = Ok (p', tr) ->
  reserveFund p' = (if lossAmount <=? reserveFund p then reserveFund p - lossAmount else 0) /\
  lenderPositions p' = lenderPositions p /\
  _totalSupply p' = _totalSupply p /\
  totalLiquidity (poolStats p') = totalLiquidity (poolStats p) + recoveredAmount /\
  totalDefaulted (poolStats p') = totalDefaulted (poolStats p) + lossAmount /\
  totalLoaned (poolStats p') = totalLoaned (poolStats p) - lossAmount /\
  tr = [].
Proof.
  intros Hr H. unfold handleDefault, _distributeLoss in H. ok_steps; bool_to_prop.
  all: simpl; rewrite ?E; repeat split; lia.
Qed.

Import LendingPoolFixtures.

Lemma fresh_pool_wf : pool_wf fresh_pool.
Proof.
  unfold pool_wf, uint256. pose proof UINT256_MAX_large.
  refine (conj _ (conj _ (conj _ (conj _ (conj _ (conj _ _)))))); simpl; try lia.
  all: intros x; unfold position; simpl; rewrite ?lookup_empty; try destruct x; simpl; lia.
Qed.

Lemma deposit_fresh_pool :
  deposit lender_ctx 1000 LOW fresh_pool = Ok (pool_deposited, [mkTransfer 1 7 1000]).
Proof. vm_compute. reflexivity. Qed.

Lemma fundLoan_pool_deposited :
  fundLoan controller_ctx 1 5 500 LOW pool_deposited = Ok (pool_funded, [mkTransfer 7 5 500]).
Proof. vm_compute. reflexivity. Qed.

Lemma deposit_credits_full_amount_witness :
  deposit lender_ctx 1000 LOW fresh_pool = Ok (pool_deposited, [mkTransfer 1 7 1000]) /\
  deposited (position pool_deposited (sender lender_ctx)) =
    deposited (position fresh_pool (sender lender_ctx)) + 1000 /\
  reserveFund pool_deposited = reserveFund fresh_pool + 1000 * 200 / 10000.
Proof.
  split; [exact deposit_fresh_pool |].
  destruct (deposit_credits_full_amount _ _ _ _ _ _ deposit_fresh_pool) as (Hd & _ & _ & Hr).
  split; [exact Hd | exact Hr].
Defined.

Lemma fundLoan_utilization_cap_witness :
  0 <= totalLiquidity (poolStats pool_deposited) /\
  fundLoan controller_ctx 1 5 901 LOW pool_deposited = Revert "LendingPool: Insufficient liquidity".
Proof.
  assert (HL : 0 <= totalLiquidity (poolStats pool_deposited)) by (vm_compute; discriminate).
  split; [exact HL |].
  destruct (fundLoan_utilization_cap controller_ctx 1 5 901 LOW pool_deposited HL) as [_ Hcap].
  apply (proj2 (Hcap ltac:(vm_compute; reflexivity)));
    [simpl; set_solver | lia | pose proof UINT256_MAX_large; simpl; unfold MAX_UTILIZATION; lia].
Defined.

Lemma pool_liquidity_conservation_counterexample :
  fundLoan controller_ctx 1 5 500 LOW pool_deposited = Ok (pool_funded, [mkTransfer 7 5 500]) /\
  conserved pool_funded /\
  repayLoan controller_ctx 1 100 LOW pool_funded = Ok (pool_repaid, [mkTransfer 9 7 100]) /\
  total_deposited (lenderPositions pool_repaid) = 1000 /\
  totalLiquidity (poolStats pool_repaid) = 1100.
Proof. repeat split; vm_compute; reflexivity. Qed.

Lemma deposit_withdraw_roundtrip_counterexample :
  deposit lender_ctx 100 LOW fresh_pool = Ok (pool_small, [mkTransfer 1 7 100]) /\
  withdraw lender_ctx 100 pool_small = Revert "LendingPool: Insufficient pool liquidity".
Proof. split; vm_compute; reflexivity. Qed.

Lemma deposit_withdraw_roundtrip_witness :
  deposit lender_ctx 1000 LOW fresh_pool = Ok (pool_deposited, [mkTransfer 1 7 1000]) /\
  ((exists p2 tr2, withdraw lender_ctx 1000 pool_deposited = Ok (p2, tr2)) <->
   1000 <= Z.max 0 ((0 + 1000) * 9000 / 10000 - 0)).
Proof.
  split; [exact deposit_fresh_pool |].
  destruct (deposit_withdraw_roundtrip lender_ctx 1000 LOW fresh_pool pool_deposited _
              fresh_pool_wf deposit_fresh_pool) as [Hiff _];
    [vm_compute; discriminate | vm_compute; discriminate |].
  exact Hiff.
Defined.

Lemma handleDefault_effect_counterexample :
  handleDefault controller_ctx 1 100 0 pool_funded = Ok (pool_defaulted, []) /\
  reserveFund pool_funded = 20 /\ reserveFund pool_defaulted = 0 /\
  deposited (position pool_defaulted 1) = deposited (position pool_funded 1).
Proof. repeat split; vm_compute; reflexivity. Qed.

Lemma handleDefault_effect_witness :
  0 <= 0 /\
  handleDefault controller_ctx 1 100 0 pool_funded = Ok (pool_defaulted, []) /\
  reserveFund pool_defaulted = 0 /\ totalLoaned (poolStats pool_defaulted) = 500 - 100.
Proof.
  assert (H : handleDefault controller_ctx 1 100 0 pool_funded = Ok (pool_defaulted, []))
    by (vm_compute; reflexivity).
  destruct (handleDefault_effect _ _ _ _ _ _ _ (Z.le_refl 0) H) as (Hr & _ & _ & _ & _ & Hl & _).
  split; [lia |]. split; [exact H |]. split; [exact Hr | exact Hl].
Defined.

End LendingPoolProofs.

(** ** PaymentController *)

Module PaymentControllerProofs.
Import SharedTypes PaymentController.

Lemma loan_of_set_loan st k l : loan_of (set_loan st k l) k = l.
Proof. unfold loan_of, set_loan; simpl. by rewrite lookup_insert_eq. Qed.
Lemma loan_of_set_payment st k p j : loan_of (set_payment st k p) j = loan_of st j.
Proof. reflexivity. Qed.
Lemma payment_of_set_payment st k p : payment_of (set_payment st k p) k = p.
Proof. unfold payment_of, set_payment; simpl. by rewrite lookup_insert_eq. Qed.
Lemma payment_of_set_loan st k l j : payment_of (set_loan st k l) j = payment_of st j.
Proof. reflexivity. Qed.
Lemma loan_of_updateNextPaymentDue st lid :
  loan_of (_updateNextPaymentDue lid st) lid =
  Loan.with_nextPaymentDue (loan_of st lid) (first_pending_due st (loanPayments_of st lid)).
Proof. apply loan_of_set_loan. Qed.
Lemma payment_of_updateNextPaymentDue st lid j :
  payment_of (_updateNextPaymentDue lid st) j = payment_of st j.
Proof. reflexivity. Qed.
Lemma loan_of_completeLoan st lid :
  loan_of (_completeLoan lid st).1 lid = Loan.with_status (loan_of st lid) LoanStatus.COMPLETED.
Proof. apply loan_of_set_loan. Qed.
Lemma payment_of_completeLoan st lid j :
  payment_of (_completeLoan lid st).1 j = payment_of st j.
Proof. reflexivity. Qed.

Arguments loan_of : simpl never.
Arguments payment_of : simpl never.

Create Rewrite HintDb pc_simpl.
Global Hint Rewrite loan_of_set_loan loan_of_set_payment payment_of_set_payment
  payment_of_set_loan loan_of_updateNextPaymentDue payment_of_updateNextPaymentDue
  loan_of_completeLoan payment_of_completeLoan : pc_simpl.

(** One loop iteration writes payment [nextPaymentId] and appends it to the
    loan's list. *)
Lemma schedule_step_Ok lid loan pa la i st st' :
  schedule_step lid loan pa la i st = Ok st' ->
  st' = push_loanPayment
          (set_payment (set_nextPaymentId st (nextPaymentId st + 1)) (nextPaymentId st)
             (Payment.mk (nextPaymentId st) lid
                (if i =? installments (Loan.terms loan) - 1 then la else pa)
                (Loan.createdAt loan + (i + 1) * intervalDays (Loan.terms loan) * SECONDS_PER_DAY)
                0 PaymentStatus.PENDING 0))
          lid (nextPaymentId st).
Proof. unfold schedule_step. intros H. ok_steps. reflexivity. Qed.

Lemma payment_of_push st lid pid p k :
  payment_of (push_loanPayment (set_payment st pid p) lid pid) k =
  if k =? pid then p else payment_of st k.
Proof.
  unfold payment_of, push_loanPayment, set_payment; simpl.
  destruct (Z.eqb_spec k pid) as [->|Hne].
  - by rewrite lookup_insert_eq.
  - by rewrite lookup_insert_ne by congruence.
Qed.

Lemma loanPayments_of_push st lid pid :
  loanPayments_of (push_loanPayment st lid pid) lid = loanPayments_of st lid ++ [pid].
Proof. unfold loanPayments_of at 1, push_loanPayment; simpl. by rewrite lookup_insert_eq. Qed.

(** The loop run with [installments - i] iterations left. *)
Lemma schedule_loop_Ok fuel lid loan pa la i st st' :
  schedule_loop fuel lid loan pa la i st = Ok st' ->
  Z.of_nat fuel = installments (Loan.terms loan) - i ->
  nextPaymentId st' = nextPaymentId st + Z.of_nat fuel /\
  loanPayments_of st' lid = loanPayments_of st lid ++ seqZ (nextPaymentId st) (Z.of_nat fuel) /\
  (forall k, payment_of st' k =
     if (nextPaymentId st <=? k) && (k <? nextPaymentId st + Z.of_nat fuel) then
       Payment.mk k lid
         (if i + (k - nextPaymentId st) =? installments (Loan.terms loan) - 1 then la else pa)
         (Loan.createdAt loan + (i + (k - nextPaymentId st) + 1) *
            intervalDays (Loan.terms loan) * SECONDS_PER_DAY)
         0 PaymentStatus.PENDING 0
     else payment_of st k) /\
  loans st' = loans st /\ merchants st' = merchants st.
Proof.
  revert i st. induction fuel as [|fuel IH]; intros i st H Hf; simpl in H.
  - ok_steps. change (Z.of_nat 0) with 0. rewrite seqZ_nil, app_nil_r by lia. split; [lia |]. split; [reflexivity |].
    split; [| split; reflexivity]. intros k.
    destruct (Z.leb_spec (nextPaymentId st') k), (Z.ltb_spec k (nextPaymentId st' + 0));
      simpl; try reflexivity; lia.
  - replace (i <? installments (Loan.terms loan)) with true in H
      by (symmetry; apply Z.ltb_lt; lia).
    peel H. apply schedule_step_Ok in Hv as ->. ok_steps.
    apply IH in H as (Hn & Hl & Hp & Hlo & Hm); [| lia]. simpl in *.
    split; [lia |]. split.
    + rewrite Hl, loanPayments_of_push, <- app_assoc. unfold loanPayments_of; simpl. f_equal.
      rewrite (seqZ_cons (nextPaymentId st) (Z.of_nat (S fuel))) by lia.
      f_equal. f_equal; lia.
    + split; [| split; assumption]. intros k. rewrite Hp, payment_of_push. simpl.
      destruct (Z.eqb_spec k (nextPaymentId st)) as [->|Hne].
      * destruct (Z.leb_spec (nextPaymentId st + 1) (nextPaymentId st)); [lia |].
        destruct (Z.leb_spec (nextPaymentId st) (nextPaymentId st)); [| lia].
        destruct (Z.ltb_spec (nextPaymentId st) (nextPaymentId st + Z.of_nat (S fuel))); [| lia].
        simpl. rewrite Z.sub_diag, Z.add_0_r. reflexivity.
      * destruct (Z.leb_spec (nextPaymentId st + 1) k), (Z.ltb_spec k (nextPaymentId st + 1 + Z.of_nat fuel)),
                 (Z.leb_spec (nextPaymentId st) k), (Z.ltb_spec k (nextPaymentId st + Z.of_nat (S fuel)));
          simpl; try lia; try reflexivity.
        replace (i + 1 + (k - (nextPaymentId st + 1))) with (i + (k - nextPaymentId st)) by lia.
        reflexivity.
Qed.


Lemma payment_of_set_merchant st k m j : payment_of (set_merchant st k m) j = payment_of st j.
Proof. reflexivity. Qed.
Lemma loanPayments_of_set_merchant st k m j :
  loanPayments_of (set_merchant st k m) j = loanPayments_of st j.
Proof. reflexivity. Qed.

Lemma fold_add_const (l : list Z) a v :
  Forall (λ x, x = v) l -> fold_right Z.add a l = Z.of_nat (length l) * v + a.
Proof. induction 1 as [|x l Hx _ IH]; simpl; [lia | rewrite IH, Hx; lia]. Qed.

(** A schedule whose entries are [pa] except the last one, [la], sums to
    [(n - 1) * pa + la]. *)
Lemma sum_schedule (f : Z -> Z) m n pa la :
  1 <= n -> (forall k, m <= k < m + (n - 1) -> f k = pa) -> f (m + (n - 1)) = la ->
  fold_right Z.add 0 (map f (seqZ m n)) = (n - 1) * pa + la.
Proof.
  intros Hn Hpa Hla.
  replace n with ((n - 1) + 1) at 1 by lia.
  rewrite seqZ_app, map_app, fold_right_app by lia.
  assert (Hone : seqZ (m + (n - 1)) 1 = [m + (n - 1)]).
  { rewrite seqZ_cons, seqZ_nil by lia. reflexivity. }
  rewrite Hone. simpl. rewrite Hla, fold_add_const with (v := pa).
  - rewrite length_map, length_seqZ, Z2Nat.id by lia. lia.
  - apply Forall_map, Forall_seqZ. exact Hpa.
Qed.

(** C7: funding a loan of [n] installments and total [T] writes [n] PENDING
    payments with the next [n] payment ids, appended to the loan's list; the
    first [n - 1] are of [T / n], the last of [T - (T / n) * (n - 1)], so
    that they sum to [T]; payment [j + 1] is due at
    [createdAt + (j + 1) * intervalDays * 86400]. *)
Theorem fundLoan_payment_schedule c lid st st' calls :
  fundLoan c lid st = Ok (st', calls) ->
  let loan := loan_of st lid in
  let n := installments (Loan.terms loan) in
  let T := Loan.totalAmount loan in
  1 <= n /\
  nextPaymentId st' = nextPaymentId st + n /\
  loanPayments_of st' lid = loanPayments_of st lid ++ seqZ (nextPaymentId st) n /\
  (forall j, 0 <= j < n ->
     payment_of st' (nextPaymentId st + j) =
     Payment.mk (nextPaymentId st + j) lid (if j =? n - 1 then T - T / n * (n - 1) else T / n)
       (Loan.createdAt loan + (j + 1) * intervalDays (Loan.terms loan) * SECONDS_PER_DAY)
       0 PaymentStatus.PENDING 0) /\
  fold_right Z.add 0 (map (λ k, Payment.amount (payment_of st' k)) (seqZ (nextPaymentId st) n)) = T.
Proof.
  intros H. cbv zeta. unfold fundLoan, _settleMerchant in H. ok_steps.
  match goal with Hs : _createPaymentSchedule _ _ = Ok _ |- _ =>
    unfold _createPaymentSchedule in Hs; rewrite loan_of_set_loan in Hs; simpl in Hs; ok_steps
  end.
  match goal with Hs : schedule_loop _ _ _ _ _ _ _ = Ok _ |- _ =>
    apply schedule_loop_Ok in Hs as (Hn & Hl & Hp & _ & _); [| simpl; rewrite Z2Nat.id; lia]
  end.
  rewrite Z2Nat.id in * by lia. simpl in *.
  setoid_rewrite payment_of_set_merchant. rewrite loanPayments_of_set_merchant.
  set (n := installments (Loan.terms (loan_of st lid))) in *.
  set (T := Loan.totalAmount (loan_of st lid)) in *.
  split; [lia |]. split; [exact Hn |]. split; [rewrite Hl; reflexivity |]. split.
  - intros j Hj. rewrite Hp.
    destruct (Z.leb_spec (nextPaymentId st) (nextPaymentId st + j)); [| lia].
    destruct (Z.ltb_spec (nextPaymentId st + j) (nextPaymentId st + n)); [| lia].
    simpl. replace (0 + (nextPaymentId st + j - nextPaymentId st)) with j by lia.
    reflexivity.
  - rewrite (sum_schedule _ _ _ (T / n) (T - T / n * (n - 1))); [lia | lia | |].
    + intros k Hk. rewrite Hp.
      destruct (Z.leb_spec (nextPaymentId st) k); [| lia].
      destruct (Z.ltb_spec k (nextPaymentId st + n)); [| lia].
      simpl. destruct (Z.eqb_spec (0 + (k - nextPaymentId st)) (n - 1)); [lia | reflexivity].
    + rewrite Hp.
      destruct (Z.leb_spec (nextPaymentId st) (nextPaymentId st + (n - 1))); [| lia].
      destruct (Z.ltb_spec (nextPaymentId st + (n - 1)) (nextPaymentId st + n)); [| lia].
      simpl. destruct (Z.eqb_spec (0 + (nextPaymentId st + (n - 1) - nextPaymentId st)) (n - 1));
        [reflexivity | lia].
Qed.

(** C1, as the code has it: a successful [makePayment] adds the payment's
    amount plus its late fee to [paidAmount] but takes only the amount off
    [remainingAmount], so [paidAmount + remainingAmount] grows by exactly the
    late fee charged (none when the payment is within the grace period) and
    [totalAmount] is untouched. *)
Theorem makePayment_balance c pid st st' calls :
  makePayment c pid st = Ok (st', calls) ->
  let lid := Payment.loanId (payment_of st pid) in
  Loan.paidAmount (loan_of st' lid) + Loan.remainingAmount (loan_of st' lid) =
    Loan.paidAmount (loan_of st lid) + Loan.remainingAmount (loan_of st lid) +
    Payment.lateFee (payment_of st' pid) /\
  Loan.totalAmount (loan_of st' lid) = Loan.totalAmount (loan_of st lid) /\
  (now c <= Payment.dueDate (payment_of st pid) + LATE_PAYMENT_GRACE_PERIOD ->
   Payment.lateFee (payment_of st' pid) = 0) /\
  Loan.paidAmount (loan_of st' lid) =
    Loan.paidAmount (loan_of st lid) + Payment.amount (payment_of st pid) +
    Payment.lateFee (payment_of st' pid) /\
  Loan.remainingAmount (loan_of st' lid) =
    Loan.remainingAmount (loan_of st lid) - Payment.amount (payment_of st pid).
Proof.
  intros H. cbv zeta. unfold makePayment in H. ok_steps.
  all: try rewrite (surjective_pairing (_completeLoan _ _)) in H; ok_steps; bool_to_prop.
  all: autorewrite with pc_simpl; simpl.
  all: repeat split; intros; lia.
Qed.

(** C8: a successful [makePayment] made after [dueDate] plus the two-day
    grace period marks the payment LATE, records the fee
    [amount * lateFeeRate / 10000] and first pulls [amount + fee] from the
    borrower; made within the grace period it marks it PAID with no fee and
    pulls [amount]. *)
Theorem makePayment_late_fee c pid st st' calls :
  makePayment c pid st = Ok (st', calls) ->
  let p := payment_of st pid in
  let loan := loan_of st (Payment.loanId p) in
  (Payment.dueDate p + LATE_PAYMENT_GRACE_PERIOD < now c ->
     Payment.status (payment_of st' pid) = PaymentStatus.LATE /\
     Payment.lateFee (payment_of st' pid) =
       Payment.amount p * lateFeeRate (Loan.terms loan) / 10000 /\
     Payment.paidDate (payment_of st' pid) = now c /\
     head calls = Some (UsdcTransferFrom (sender c) (self st)
                          (Payment.amount p + Payment.lateFee (payment_of st' pid)))) /\
  (now c <= Payment.dueDate p + LATE_PAYMENT_GRACE_PERIOD ->
     Payment.status (payment_of st' pid) = PaymentStatus.PAID /\
     Payment.lateFee (payment_of st' pid) = 0 /\
     Payment.paidDate (payment_of st' pid) = now c /\
     head calls = Some (UsdcTransferFrom (sender c) (self st) (Payment.amount p))).
Proof.
  intros H. cbv zeta. unfold makePayment, _calculateLateFee in H. ok_steps.
  all: try rewrite (surjective_pairing (_completeLoan _ _)) in H; ok_steps; bool_to_prop.
  all: autorewrite with pc_simpl; simpl.
  all: split; intros; try lia; repeat split; reflexivity.
Qed.

Import PaymentControllerFixtures.

Lemma createLoan_standard :
  createLoan borrower_ctx 30 1000 500 50 "standard" approval pc_initial =
  Ok (pc_created, 1, [CollateralLock 40 50 500 1; RiskRecordLoan 40 1000]).
Proof. vm_compute. reflexivity. Qed.

Lemma fundLoan_standard :
  fundLoan borrower_ctx 1 pc_created =
  Ok (pc_funded, [PoolFundLoan 1 40 1000 RiskTier.LOW; UsdcTransfer 30 1000]).
Proof. vm_compute. reflexivity. Qed.

Lemma makePayment_late :
  makePayment late_ctx 1 pc_funded =
  Ok (pc_paid_late, [UsdcTransferFrom 40 20 256; UsdcTransfer 7 250; UsdcTransfer 7 6;
                     PoolRepayLoan 1 250 RiskTier.LOW; RiskRecordPayment 40 250 false]).
Proof. vm_compute. reflexivity. Qed.

Lemma makePayment_balance_counterexample :
  makePayment late_ctx 1 pc_funded =
    Ok (pc_paid_late, [UsdcTransferFrom 40 20 256; UsdcTransfer 7 250; UsdcTransfer 7 6;
                       PoolRepayLoan 1 250 RiskTier.LOW; RiskRecordPayment 40 250 false]) /\
  Loan.paidAmount (loan_of pc_paid_late 1) + Loan.remainingAmount (loan_of pc_paid_late 1) = 1006 /\
  Loan.totalAmount (loan_of pc_paid_late 1) = 1000.
Proof. split; [exact makePayment_late |]. split; vm_compute; reflexivity. Qed.

Lemma makePayment_balance_witness :
  makePayment late_ctx 1 pc_funded =
    Ok (pc_paid_late, [UsdcTransferFrom 40 20 256; UsdcTransfer 7 250; UsdcTransfer 7 6;
                       PoolRepayLoan 1 250 RiskTier.LOW; RiskRecordPayment 40 250 false]) /\
  Loan.paidAmount (loan_of pc_paid_late 1) + Loan.remainingAmount (loan_of pc_paid_late 1) =
    Loan.paidAmount (loan_of pc_funded 1) + Loan.remainingAmount (loan_of pc_funded 1) + 6.
Proof.
  pose proof (makePayment_balance _ _ _ _ _ makePayment_late) as Hb. cbv zeta in Hb.
  destruct Hb as (Hb & _ & _ & _ & _).
  split; [exact makePayment_late | exact Hb].
Defined.

Lemma fundLoan_payment_schedule_witness :
  createLoan borrower_ctx 30 1000 500 50 "standard" approval pc_initial =
    Ok (pc_created, 1, [CollateralLock 40 50 500 1; RiskRecordLoan 40 1000]) /\
  fundLoan borrower_ctx 1 pc_created =
    Ok (pc_funded, [PoolFundLoan 1 40 1000 RiskTier.LOW; UsdcTransfer 30 1000]) /\
  Loan.totalAmount (loan_of pc_created 1) = 1000 /\
  loanPayments_of pc_funded 1 = [1; 2; 3; 4] /\
  payment_of pc_funded 1 =
    Payment.mk 1 1 250 (Loan.createdAt (loan_of pc_created 1) + 14 * 86400) 0
      PaymentStatus.PENDING 0 /\
  fold_right Z.add 0 (map (λ k, Payment.amount (payment_of pc_funded k)) (seqZ 1 4)) = 1000.
Proof.
  pose proof (fundLoan_payment_schedule _ _ _ _ _ fundLoan_standard) as Hs. cbv zeta in Hs.
  destruct Hs as (_ & _ & Hl & Hp & Hsum).
  split; [exact createLoan_standard |]. split; [exact fundLoan_standard |].
  split; [vm_compute; reflexivity |]. split; [exact Hl |]. split.
  - exact (Hp 0 ltac:(vm_compute; split; [discriminate | reflexivity])).
  - exact Hsum.
Defined.

Lemma makePayment_late_fee_witness :
  makePayment late_ctx 1 pc_funded =
    Ok (pc_paid_late, [UsdcTransferFrom 40 20 256; UsdcTransfer 7 250; UsdcTransfer 7 6;
                       PoolRepayLoan 1 250 RiskTier.LOW; RiskRecordPayment 40 250 false]) /\
  Payment.dueDate (payment_of pc_funded 1) + LATE_PAYMENT_GRACE_PERIOD < now late_ctx /\
  Payment.status (payment_of pc_paid_late 1) = PaymentStatus.LATE /\
  Payment.lateFee (payment_of pc_paid_late 1) = 250 * 250 / 10000 /\
  Payment.lateFee (payment_of pc_paid_late 1) = 6 /\
  head [UsdcTransferFrom 40 20 256; UsdcTransfer 7 250; UsdcTransfer 7 6;
        PoolRepayLoan 1 250 RiskTier.LOW; RiskRecordPayment 40 250 false] =
    Some (UsdcTransferFrom 40 20 (250 + 6)).
Proof.
  pose proof (makePayment_late_fee _ _ _ _ _ makePayment_late) as Hs. cbv zeta in Hs.
  destruct Hs as [Hlate _].
  assert (Hd : Payment.dueDate (payment_of pc_funded 1) + LATE_PAYMENT_GRACE_PERIOD < now late_ctx)
    by (vm_compute; reflexivity).
  destruct (Hlate Hd) as (Hst & Hfee & _ & Hcall).
  split; [exact makePayment_late |]. split; [exact Hd |]. split; [exact Hst |].
  split; [exact Hfee |]. split; [vm_compute; reflexivity | exact Hcall].
Defined.

End PaymentControllerProofs.

(** ** RiskEngine *)
Module RiskEngineProofs.
Import SharedTypes RiskEngine.

Lemma profile_set_profile st u p : profile (set_profile st u p) u = p.
Proof. unfold profile, set_profile; simpl. by rewrite lookup_insert_eq. Qed.

Lemma tierMinScores_set_profile st u p : tierMinScores (set_profile st u p) = tierMinScores st.
Proof. reflexivity. Qed.

Lemma riskParams_set_profile st u p : riskParams (set_profile st u p) = riskParams st.
Proof. reflexivity. Qed.

(** C5, as the code has it: [recordPayment] moves the score by [+5] capped
    at 850 when on time; when late it subtracts [missedPaymentPenalty] if the
    score is above it and sets it to [MIN_SCORE] (300) only otherwise. A
    score in [[300, 850]] can therefore fall below 300 (and a profile never
    assessed starts from 0). *)
Theorem recordPayment_score c b a onTime st st' :
  recordPayment c b a onTime st = Ok st' ->
  let s := creditScore (profile st b) in
  let pen := missedPaymentPenalty (riskParams st) in
  creditScore (profile st' b) =
    if onTime then (if SCORE_SCALE <? s + 5 then SCORE_SCALE else s + 5)
    else (if pen <? s then s - pen else MIN_SCORE).
Proof.
  intros H. cbv zeta. unfold recordPayment, _updateCreditScore in H.
  destruct onTime; ok_steps; rewrite ?profile_set_profile in *; ok_steps;
    rewrite ?profile_set_profile; simpl in *; rewrite ?E, ?E0; reflexivity.
Qed.

Import RiskEngineFixtures.

Lemma recordPayment_score_witness :
  recordPayment re_ctx 40 250 false re_state =
    Ok (set_profile re_state 40 (mkCreditProfile 270 1000 250 0 1 1000 0 2000000 false
                                   RiskTier.DENIED)) /\
  creditScore (profile re_state 40) = 320 /\
  creditScore (profile (set_profile re_state 40 (mkCreditProfile 270 1000 250 0 1 1000 0 2000000
                                                   false RiskTier.DENIED)) 40) = 270 /\
  270 < MIN_SCORE.
Proof.
  assert (H : recordPayment re_ctx 40 250 false re_state =
    Ok (set_profile re_state 40 (mkCreditProfile 270 1000 250 0 1 1000 0 2000000 false
                                   RiskTier.DENIED))) by (vm_compute; reflexivity).
  pose proof (recordPayment_score _ _ _ _ _ _ H) as Hs. cbv zeta in Hs.
  split; [exact H |]. split; [reflexivity |]. split; [exact Hs | reflexivity].
Defined.

End RiskEngineProofs.

(** ** CollateralManager *)
Module CollateralManagerProofs.
Import CollateralManager.

(** C9, as the code has it: for a locked position of token [tok] holding at
    least [amt], called by the payment controller, [liquidateCollateral]
    reverts with the delay error before [lockedAt + liquidationDelay]; from
    then on it succeeds only if the token is supported and its price is
    positive (and nothing overflows), and then decrements the position and
    returns [cv + cv * liquidationBonus / 10000] with
    [cv = amt * price / 10 ^ decimals]. Any success implies those
    conditions. *)
Theorem liquidateCollateral_spec c lid tok amt st :
  sender c ∈ paymentControllerRole st ->
  isLocked (position_of st lid) = true ->
  token (position_of st lid) = tok ->
  0 <= amt <= amount (position_of st lid) ->
  lockedAt (position_of st lid) + liquidationDelay st <= UINT256_MAX ->
  let pos := position_of st lid in
  let cv := amt * price_of st tok / 10 ^ decimals_of st tok in
  let rest := amount pos - amt in
  let pos' := mkCollateralPosition (owner pos) (token pos) rest (lockedAt pos) (loanId pos)
                (if rest =? 0 then false else isLocked pos) in
  (now c < lockedAt pos + liquidationDelay st ->
     liquidateCollateral c lid tok amt st =
       Revert "CollateralManager: Liquidation delay not met") /\
  (forall st'' r, liquidateCollateral c lid tok amt st = Ok (st'', r) ->
     lockedAt pos + liquidationDelay st <= now c /\
     isSupported (config_of st tok) = true /\ 0 < price_of st tok /\
     st'' = set_position st lid pos' /\
     r = cv + cv * liquidationBonus (config_of st tok) / BASIS_POINTS) /\
  (lockedAt pos + liquidationDelay st <= now c ->
   isSupported (config_of st tok) = true -> 0 < price_of st tok ->
   amt * price_of st tok <= UINT256_MAX ->
   10 ^ decimals_of st tok <= UINT256_MAX ->
   cv * liquidationBonus (config_of st tok) <= UINT256_MAX ->
   cv + cv * liquidationBonus (config_of st tok) / BASIS_POINTS <= UINT256_MAX ->
   liquidateCollateral c lid tok amt st =
     Ok (set_position st lid pos', cv + cv * liquidationBonus (config_of st tok) / BASIS_POINTS)).
Proof.
  intros Hrole Hlock Htok Hamt Hmax. cbv zeta.
  assert (Hhead : liquidateCollateral c lid tok amt st =
      (t ← cadd (lockedAt (position_of st lid)) (liquidationDelay st);
       _ ← require (t <=? now c) "CollateralManager: Liquidation delay not met";
       tokenPrice ← getTokenPrice st tok;
       m ← cmul amt tokenPrice;
       scale ← cpow10 (decimals_of st tok);
       b ← cmul (m / scale) (liquidationBonus (config_of st tok));
       recoveredAmount ← cadd (m / scale) (b / BASIS_POINTS);
       rest ← csub (amount (position_of st lid)) amt;
       mret (set_position st lid
               (mkCollateralPosition (owner (position_of st lid)) (token (position_of st lid)) rest
                  (lockedAt (position_of st lid)) (loanId (position_of st lid))
                  (if rest =? 0 then false else isLocked (position_of st lid))),
             recoveredAmount))).
  { unfold liquidateCollateral, onlyPaymentController.
    rewrite bool_decide_eq_true_2 by exact Hrole. simpl.
    rewrite Hlock, Htok, Z.eqb_refl. simpl.
    replace (amt <=? amount (position_of st lid)) with true by (symmetry; apply Z.leb_le; lia).
    reflexivity. }
  rewrite Hhead. clear Hhead.
  split; [| split].
  - intros Hlt. run_ok. reflexivity.
  - intros st'' r H. unfold getTokenPrice, cpow10 in H. ok_steps. bool_to_prop.
    subst. repeat split; try lia; first [assumption | reflexivity].
  - intros Hge Hsup Hprice Hm Hs Hb Hr. unfold getTokenPrice, cpow10. rewrite Hsup.
    run_ok. all: reflexivity.
Qed.

Import CollateralManagerFixtures.

Lemma liquidateCollateral_spec_counterexample :
  isLocked (position_of (cm_state 0) 1) = true /\
  lockedAt (position_of (cm_state 0) 1) + liquidationDelay (cm_state 0) <= now after_delay_ctx /\
  liquidateCollateral after_delay_ctx 1 50 500 (cm_state 0) =
    Revert "CollateralManager: Price not available".
Proof. split; [reflexivity |]. split; [vm_compute; discriminate | vm_compute; reflexivity]. Qed.

Lemma liquidateCollateral_spec_witness :
  liquidateCollateral early_ctx 1 50 200 (cm_state 2) =
    Revert "CollateralManager: Liquidation delay not met" /\
  liquidateCollateral after_delay_ctx 1 50 200 (cm_state 2) =
    Ok (set_position (cm_state 2) 1 (mkCollateralPosition 40 50 300 LOCK_TIME 1 true), 420).
Proof.
  pose proof (liquidateCollateral_spec early_ctx 1 50 200 (cm_state 2)
    ltac:(simpl; set_solver) ltac:(reflexivity) ltac:(reflexivity)
    ltac:(vm_compute; split; discriminate) ltac:(vm_compute; discriminate)) as H1.
  pose proof (liquidateCollateral_spec after_delay_ctx 1 50 200 (cm_state 2)
    ltac:(simpl; set_solver) ltac:(reflexivity) ltac:(reflexivity)
    ltac:(vm_compute; split; discriminate) ltac:(vm_compute; discriminate)) as H2.
  cbv zeta in H1, H2.
  destruct H1 as [H1 _]. destruct H2 as (_ & _ & H2).
  split.
  - exact (H1 ltac:(vm_compute; reflexivity)).
  - exact (H2 ltac:(vm_compute; discriminate) ltac:(reflexivity) ltac:(vm_compute; reflexivity)
             ltac:(vm_compute; discriminate) ltac:(vm_compute; discriminate)
             ltac:(vm_compute; discriminate) ltac:(vm_compute; discriminate)).
Defined.

End CollateralManagerProofs.

(** * Further properties of the contracts *)

(** ** SharedTypes *)

Module SharedTypesProofs.
Import SharedTypes.

(** [uintToRiskTier] inverts [riskTierToUint]: every tier survives the round
    trip, every accepted value is the code of the tier it decodes to, and
    every value above 3 is refused. *)
Theorem riskTier_uint_roundtrip :
  (forall t, uintToRiskTier (riskTierToUint t) = Ok t) /\
  (forall v t, 0 <= v -> uintToRiskTier v = Ok t -> riskTierToUint t = v) /\
  (forall v, 3 < v -> uintToRiskTier v = Revert "SharedTypes: Invalid risk tier value").
Proof.
  split; [| split].
  - intros []; reflexivity.
  - intros v t Hv H. unfold uintToRiskTier in H. peel H. apply require_Ok, Z.leb_le in Hv0.
    simpl in Hv0. apply mret_Ok in H. subst t.
    assert (v = 0 \/ v = 1 \/ v = 2 \/ v = 3) as [-> | [-> | [-> | ->]]] by lia; reflexivity.
  - intros v Hv. unfold uintToRiskTier, require. simpl.
    replace (v <=? 3) with false by (symmetry; apply Z.leb_gt; lia). reflexivity.
Qed.

End SharedTypesProofs.

(** ** LendingPool *)

Module LendingPoolMoreProofs.
Import LendingPool LendingPoolProofs LendingPoolFixtures.

Lemma active_lenders_insert (m : gmap Z LenderPosition) a pos :
  active_lenders (<[a := pos]> m) =
  active_lenders m - (if 0 <? deposited (default zero_position (m !! a)) then 1 else 0)
  + (if 0 <? deposited pos then 1 else 0).
Proof.
  unfold active_lenders. destruct (m !! a) as [x|] eqn:E; simpl.
  - rewrite <- insert_delete_eq.
    rewrite map_fold_insert_L; [| intros; lia | apply lookup_delete_eq].
    rewrite (map_fold_delete_L _ _ a x m); [lia | intros; lia | exact E].
  - rewrite map_fold_insert_L; [lia | intros; lia | exact E].
Qed.

Lemma active_set_position p a pos :
  active_lenders (lenderPositions (set_position p a pos)) =
  active_lenders (lenderPositions p) - (if 0 <? deposited (position p a) then 1 else 0)
  + (if 0 <? deposited pos then 1 else 0).
Proof. apply active_lenders_insert. Qed.

Lemma lenderPositions_set_stats p s : lenderPositions (set_stats p s) = lenderPositions p.
Proof. reflexivity. Qed.
Lemma lenderPositions_set_tierLiquidity p t v :
  lenderPositions (set_tierLiquidity p t v) = lenderPositions p.
Proof. reflexivity. Qed.
Lemma lenderPositions_set_totalSupply p v : lenderPositions (set_totalSupply p v) = lenderPositions p.
Proof. reflexivity. Qed.
Lemma lenderPositions_set_reserveFund p v : lenderPositions (set_reserveFund p v) = lenderPositions p.
Proof. reflexivity. Qed.

Lemma position_set_position p a b pos :
  position (set_position p a pos) b = if decide (a = b) then pos else position p b.
Proof.
  destruct (decide (a = b)) as [<-|Hne]; [apply position_set_eq | by apply position_set_ne].
Qed.

(** [totalLenders] keeps counting the lenders with a positive deposit
    through a deposit, a withdrawal of a positive amount, a yield claim and
    the three PaymentController operations; a freshly deployed pool starts
    with the count right. *)
Theorem lenders_counted_preserved :
  lenders_counted fresh_pool /\
  (forall c amount tier p p' tr,
     lenders_counted p -> deposit c amount tier p = Ok (p', tr) -> lenders_counted p') /\
  (forall c amount p p' tr,
     0 < amount -> lenders_counted p -> withdraw c amount p = Ok (p', tr) -> lenders_counted p') /\
  (forall c p p' tr,
     lenders_counted p -> claimYield c p = Ok (p', tr) -> lenders_counted p') /\
  (forall c lid borrower amount tier p p' tr,
     lenders_counted p -> fundLoan c lid borrower amount tier p = Ok (p', tr) -> lenders_counted p') /\
  (forall c lid amount tier p p' tr,
     lenders_counted p -> repayLoan c lid amount tier p = Ok (p', tr) -> lenders_counted p') /\
  (forall c lid lossAmount recoveredAmount p p' tr,
     lenders_counted p -> handleDefault c lid lossAmount recoveredAmount p = Ok (p', tr) ->
     lenders_counted p').
Proof.
  unfold lenders_counted. split; [| split; [| split; [| split; [| split; [| split]]]]].
  - split; [| reflexivity]. intros a. unfold position. simpl. rewrite lookup_empty. simpl. lia.
  - intros c amount tier p p' tr [Hnn Hcnt] H. unfold deposit in H. ok_steps; bool_to_prop.
    all: apply updateLenderYield_spec in Hv1 as [ye ->].
    all: autorewrite with pool_simpl in *; simpl in *.
    all: pose proof (Hnn (sender c)).
    all: split; [intros b; autorewrite with pool_simpl; rewrite position_set_position;
                 destruct (decide _); simpl; [lia | apply Hnn] |].
    all: rewrite ?lenderPositions_set_reserveFund, ?lenderPositions_set_totalSupply,
           ?lenderPositions_set_tierLiquidity, ?lenderPositions_set_stats, ?set_position_twice,
           ?active_set_position, ?active_lenders_insert; unfold position in *; simpl; rewrite Hcnt.
    all: destruct (Z.ltb_spec 0 (deposited (default zero_position (lenderPositions p !! sender c)))),
           (Z.ltb_spec 0 (deposited (default zero_position (lenderPositions p !! sender c)) + amount)); lia.
  - intros c amount p p' tr Hpos [Hnn Hcnt] H. unfold withdraw in H. ok_steps; bool_to_prop.
    all: apply updateLenderYield_spec in Hv1 as [ye ->].
    all: autorewrite with pool_simpl in *; simpl in *.
    all: split; [intros b; autorewrite with pool_simpl; rewrite position_set_position;
                 destruct (decide _); simpl; [lia | apply Hnn] |].
    all: rewrite ?lenderPositions_set_reserveFund, ?lenderPositions_set_totalSupply,
           ?lenderPositions_set_tierLiquidity, ?lenderPositions_set_stats, ?set_position_twice,
           ?active_set_position, ?active_lenders_insert; unfold position in *; simpl; rewrite Hcnt.
    all: destruct (Z.ltb_spec 0 (deposited (default zero_position (lenderPositions p !! sender c)))),
           (Z.ltb_spec 0 (deposited (default zero_position (lenderPositions p !! sender c)) - amount)); lia.
  - intros c p p' tr [Hnn Hcnt] H. unfold claimYield in H. ok_steps; bool_to_prop.
    apply updateLenderYield_spec in Hv0 as [ye ->].
    autorewrite with pool_simpl in *; simpl in *.
    split; [intros b; autorewrite with pool_simpl; rewrite position_set_position;
            destruct (decide _); simpl; [apply Hnn | apply Hnn] |].
    rewrite ?lenderPositions_set_stats, ?set_position_twice, ?active_set_position,
      ?active_lenders_insert; unfold position in *; simpl.
    rewrite Hcnt. destruct (Z.ltb_spec 0 (deposited (default zero_position (lenderPositions p !! sender c)))); lia.
  - intros c lid borrower amount tier p p' tr [Hnn Hcnt] H. unfold fundLoan in H. ok_steps.
    split; [exact Hnn | exact Hcnt].
  - intros c lid amount tier p p' tr [Hnn Hcnt] H. unfold repayLoan, _distributeYield in H.
    ok_steps; (split; [exact Hnn | exact Hcnt]).
  - intros c lid lossAmount recoveredAmount p p' tr [Hnn Hcnt] H.
    unfold handleDefault, _distributeLoss in H. ok_steps; (split; [exact Hnn | exact Hcnt]).
Qed.


(** A withdrawal of 0 by an address holding no deposit goes through and
    takes one off [totalLenders], although no lender with a positive
    deposit left: the counter drifts below the number of active lenders. *)
Theorem withdraw_zero_miscounts c p :
  paused p = false ->
  deposited (position p (sender c)) = 0 ->
  1 <= totalLenders (poolStats p) ->
  0 <= totalLiquidity (poolStats p) ->
  totalLiquidity (poolStats p) * MAX_UTILIZATION <= UINT256_MAX ->
  0 <= tierLiquidity p (riskTier (position p (sender c))) ->
  0 <= _totalSupply p ->
  exists p', withdraw c 0 p = Ok (p', [mkTransfer (self p) (sender c) 0]) /\
    totalLenders (poolStats p') = totalLenders (poolStats p) - 1 /\
    active_lenders (lenderPositions p') = active_lenders (lenderPositions p).
Proof.
  intros Hp Hd Htl HL Hcap Htier Hts.
  assert (Hu : _updateLenderYield c (sender c) p =
               Ok (set_position p (sender c) (with_lastUpdateTime (position p (sender c)) (now c)))).
  { unfold _updateLenderYield. rewrite Hd. reflexivity. }
  unfold withdraw, whenNotPaused. rewrite Hp, Hd, Hu.
  cbv beta iota delta [mbind result_bind mret result_ret require negb].
  rewrite getAvailableLiquidity_eq by (rewrite set_position_poolStats; exact Hcap).
  cbv beta iota delta [mbind result_bind mret result_ret require negb].
  autorewrite with pool_simpl; simpl. rewrite Hd.
  run_ok. eexists. split; [reflexivity |]. simpl. split; [reflexivity |].
  rewrite insert_insert_eq, active_lenders_insert. unfold position in *. simpl.
  rewrite Hd. simpl. lia.
Qed.

(** Claiming pays out exactly the yield [getLenderPosition] shows at the
    same moment, provided the position has been timestamped: the lender's
    yield drops to 0, the deposit stays, and [totalYieldPaid] grows by the
    amount paid. *)
Theorem claimYield_pays_viewed_yield c p p' tr :
  0 < lastUpdateTime (position p (sender c)) ->
  claimYield c p = Ok (p', tr) ->
  exists v, getLenderPosition c (sender c) p = Ok v /\
    0 < yieldEarned v /\
    tr = [mkTransfer (self p) (sender c) (yieldEarned v)] /\
    yieldEarned (position p' (sender c)) = 0 /\
    deposited (position p' (sender c)) = deposited (position p (sender c)) /\
    totalYieldPaid (poolStats p') = totalYieldPaid (poolStats p) + yieldEarned v.
Proof.
  intros Ht H. unfold claimYield in H. peel H. peel H.
  unfold _updateLenderYield in Hv0. peel Hv0. apply mret_Ok in Hv0. subst v0.
  assert (Hg : getLenderPosition c (sender c) p = Ok v1 /\
               deposited v1 = deposited (position p (sender c))).
  { clear H. unfold getLenderPosition. cbv zeta. revert Hv1.
    destruct (0 <? deposited (position p (sender c))) eqn:Ed; intros Hv1.
    - replace (0 <? lastUpdateTime (position p (sender c))) with true in Hv1
        by (symmetry; apply Z.ltb_lt; exact Ht).
      cbv beta iota delta [andb] in Hv1. split; [exact Hv1 |].
      ok_steps. reflexivity.
    - cbv beta iota delta [andb] in Hv1. ok_steps. split; reflexivity. }
  destruct Hg as [Hg Hdep]. exists v1. split; [exact Hg |].
  ok_steps; bool_to_prop. all: autorewrite with pool_simpl in *; simpl in *.
  all: repeat split; try lia.
  all: rewrite position_set_stats, set_position_twice, position_set_eq; simpl; exact Hdep.
Qed.

(** A second claim at the same timestamp finds no yield and reverts. *)
Theorem claimYield_twice_reverts c p p' tr :
  claimYield c p = Ok (p', tr) ->
  deposited (position p (sender c)) * tierAPY p (riskTier (position p (sender c))) <= UINT256_MAX ->
  claimYield c p' = Revert "LendingPool: No yield to claim".
Proof.
  intros H Hm. unfold claimYield in H. ok_steps; bool_to_prop.
  apply updateLenderYield_spec in Hv0 as [ye ->].
  unfold whenNotPaused in Hv. apply require_Ok in Hv.
  unfold claimYield, whenNotPaused. autorewrite with pool_simpl in *; simpl.
  rewrite Hv. cbv beta iota delta [mbind result_bind require negb].
  pose proof UINT256_MAX_large.
  rewrite updateLenderYield_same_time_eq;
    rewrite ?position_set_stats, ?set_position_twice, ?position_set_eq; simpl; try lia.
  autorewrite with pool_simpl; simpl. reflexivity.
Qed.

(** Pausing blocks deposit, withdraw and claimYield, refuses a second
    pause, and an unpause by the same admin gives back the exact state
    before the pause. *)
Theorem pause_blocks_lenders admins c p p' :
  pause admins c p = Ok p' ->
  paused p' = true /\
  (forall c' amount tier, deposit c' amount tier p' = Revert "Pausable: EnforcedPause") /\
  (forall c' amount, withdraw c' amount p' = Revert "Pausable: EnforcedPause") /\
  (forall c', claimYield c' p' = Revert "Pausable: EnforcedPause") /\
  pause admins c p' = Revert "Pausable: EnforcedPause" /\
  unpause admins c p' = Ok p.
Proof.
  intros H. unfold pause in H. peel H. peel H. apply mret_Ok in H. subst p'.
  unfold whenNotPaused in Hv0. apply require_Ok, negb_true_iff in Hv0.
  repeat split.
  - unfold pause. rewrite Hv. reflexivity.
  - unfold unpause. rewrite Hv. simpl. destruct p; simpl in *; subst; reflexivity.
Qed.

(** The PaymentController's entry points [fundLoan], [repayLoan] and
    [handleDefault] do not look at the pause flag: on a paused pool they
    do what they do on the same pool unpaused. *)
Theorem controller_ops_ignore_pause b p :
  (forall c lid borrower amount tier,
     fundLoan c lid borrower amount tier (set_paused p b) =
     match fundLoan c lid borrower amount tier p with
     | Ok (q, tr) => Ok (set_paused q b, tr) | Revert r => Revert r end) /\
  (forall c lid amount tier,
     repayLoan c lid amount tier (set_paused p b) =
     match repayLoan c lid amount tier p with
     | Ok (q, tr) => Ok (set_paused q b, tr) | Revert r => Revert r end) /\
  (forall c lid lossAmount recoveredAmount,
     handleDefault c lid lossAmount recoveredAmount (set_paused p b) =
     match handleDefault c lid lossAmount recoveredAmount p with
     | Ok (q, tr) => Ok (set_paused q b, tr) | Revert r => Revert r end).
Proof.
  split; [| split]; intros.
  - unfold fundLoan, onlyPaymentController, _getAvailableLiquidity, require, cadd, cmul.
    destruct p; cbv beta iota zeta delta [mbind result_bind mret result_ret set_paused
      set_stats set_reserveFund with_totalLiquidity with_totalLoaned with_totalDefaulted
      with_totalBorrowers self paymentControllerRole paused poolStats lenderPositions tierAPY
      tierLiquidity reserveFund _totalSupply totalLiquidity totalLoaned totalDefaulted
      totalYieldPaid utilizationRate averageAPY totalLenders totalBorrowers].
    repeat match goal with |- context [if ?x then _ else _] => destruct x end; reflexivity.
  - unfold repayLoan, onlyPaymentController, _distributeYield, require, cadd, csub.
    destruct p; cbv beta iota zeta delta [mbind result_bind mret result_ret set_paused
      set_stats set_reserveFund with_totalLiquidity with_totalLoaned with_totalDefaulted
      with_totalBorrowers self paymentControllerRole paused poolStats lenderPositions tierAPY
      tierLiquidity reserveFund _totalSupply totalLiquidity totalLoaned totalDefaulted
      totalYieldPaid utilizationRate averageAPY totalLenders totalBorrowers].
    repeat match goal with |- context [if ?x then _ else _] => destruct x end; reflexivity.
  - unfold handleDefault, onlyPaymentController, _distributeLoss, require, cadd, csub.
    destruct p; cbv beta iota zeta delta [mbind result_bind mret result_ret set_paused
      set_stats set_reserveFund with_totalLiquidity with_totalLoaned with_totalDefaulted
      with_totalBorrowers self paymentControllerRole paused poolStats lenderPositions tierAPY
      tierLiquidity reserveFund _totalSupply totalLiquidity totalLoaned totalDefaulted
      totalYieldPaid utilizationRate averageAPY totalLenders totalBorrowers].
    repeat match goal with |- context [if ?x then _ else _] => destruct x end; reflexivity.
Qed.

(** No tier's APY exceeds 50%: the constructor's APYs are within
    [0, 5000], [updateTierAPY] keeps them there, and no other operation
    touches them. *)
Theorem tierAPY_capped :
  (forall t, 0 <= initialTierAPY t <= 5000) /\
  (forall admins c tier v p p',
     (forall t, 0 <= tierAPY p t <= 5000) -> 0 <= v ->
     updateTierAPY admins c tier v p = Ok p' -> forall t, 0 <= tierAPY p' t <= 5000) /\
  (forall c amount tier p p' tr, deposit c amount tier p = Ok (p', tr) -> tierAPY p' = tierAPY p) /\
  (forall c amount p p' tr, withdraw c amount p = Ok (p', tr) -> tierAPY p' = tierAPY p) /\
  (forall c p p' tr, claimYield c p = Ok (p', tr) -> tierAPY p' = tierAPY p) /\
  (forall c lid borrower amount tier p p' tr,
     fundLoan c lid borrower amount tier p = Ok (p', tr) -> tierAPY p' = tierAPY p) /\
  (forall c lid amount tier p p' tr,
     repayLoan c lid amount tier p = Ok (p', tr) -> tierAPY p' = tierAPY p) /\
  (forall c lid lossAmount recoveredAmount p p' tr,
     handleDefault c lid lossAmount recoveredAmount p = Ok (p', tr) -> tierAPY p' = tierAPY p) /\
  (forall admins c p p', pause admins c p = Ok p' -> tierAPY p' = tierAPY p) /\
  (forall admins c p p', unpause admins c p = Ok p' -> tierAPY p' = tierAPY p).
Proof.
  split; [intros []; simpl; lia |].
  split; [| split; [| split; [| split; [| split; [| split; [| split; [| split]]]]]]].
  - intros admins c tier v p p' Hp Hv H t. unfold updateTierAPY in H. ok_steps; bool_to_prop.
    simpl. destruct (RiskTier_eqb tier t); [lia | apply Hp].
  - intros c amount tier p p' tr H. unfold deposit in H. ok_steps.
    all: apply updateLenderYield_spec in Hv1 as [ye ->]; reflexivity.
  - intros c amount p p' tr H. unfold withdraw in H. ok_steps.
    all: apply updateLenderYield_spec in Hv1 as [ye ->]; reflexivity.
  - intros c p p' tr H. unfold claimYield in H. ok_steps.
    apply updateLenderYield_spec in Hv0 as [ye ->]; reflexivity.
  - intros c lid borrower amount tier p p' tr H. unfold fundLoan in H. ok_steps. reflexivity.
  - intros c lid amount tier p p' tr H. unfold repayLoan, _distributeYield in H.
    ok_steps; reflexivity.
  - intros c lid lossAmount recoveredAmount p p' tr H.
    unfold handleDefault, _distributeLoss in H. ok_steps; reflexivity.
  - intros admins c p p' H. unfold pause in H. ok_steps. reflexivity.
  - intros admins c p p' H. unfold unpause in H. ok_steps. reflexivity.
Qed.

(** After a successful [fundLoan], [getPoolStats] reports a utilization
    rate of at most 90%. *)
Theorem fundLoan_then_getPoolStats c lid borrower amount tier p p' tr s :
  0 <= totalLoaned (poolStats p) ->
  fundLoan c lid borrower amount tier p = Ok (p', tr) ->
  getPoolStats p' = Ok s ->
  utilizationRate s <= MAX_UTILIZATION.
Proof.
  intros Hlo H Hs. unfold fundLoan in H. ok_steps; bool_to_prop.
  match goal with
  | Ha : _getAvailableLiquidity _ = Ok _ |- _ => apply getAvailableLiquidity_Ok in Ha as [-> _]
  end.
  unfold MAX_UTILIZATION, BASIS_POINTS in *.
  set (L := totalLiquidity (poolStats p)) in *.
  assert (Hq : totalLoaned (poolStats p) + amount <= L * 9000 / 10000) by lia.
  assert (HL : 0 < L).
  { destruct (Z.lt_ge_cases 0 L) as [?|HL]; [assumption |].
    assert (L * 9000 / 10000 <= 0) by (apply Z.div_le_upper_bound; lia). lia. }
  pose proof (Z.mul_div_le (L * 9000) 10000 ltac:(lia)).
  unfold getPoolStats in Hs. cbv zeta in Hs.
  apply bind_Ok in Hs as [ur [Hur Hs]]. apply bind_Ok in Hs as [[w l] [Hw Hs]].
  apply mret_Ok in Hs. subst s. cbn [utilizationRate].
  cbn [set_stats poolStats with_totalBorrowers with_totalLoaned totalLiquidity totalLoaned] in Hur.
  fold L in Hur.
  replace (0 <? L) with true in Hur by (symmetry; apply Z.ltb_lt; exact HL).
  apply bind_Ok in Hur as [m [Hm Hur]]. apply cmul_Ok in Hm as [-> _].
  apply mret_Ok in Hur. subst ur.
  apply Z.div_le_upper_bound; [exact HL |]. unfold BASIS_POINTS. nia.
Qed.



(** Side conditions on concrete states, settled by evaluation. *)
Ltac concrete :=
  first [ reflexivity | vm_compute; reflexivity | vm_compute; discriminate
        | vm_compute; intros ?; discriminate ].

Lemma withdraw_zero_miscounts_witness :
  exists p', withdraw stranger_ctx 0 pool_deposited = Ok (p', [mkTransfer 7 2 0]) /\
    totalLenders (poolStats p') = 0 /\ active_lenders (lenderPositions p') = 1.
Proof.
  destruct (withdraw_zero_miscounts stranger_ctx pool_deposited) as (p' & H1 & H2 & H3);
    try concrete.
  exists p'. split; [exact H1 |]. rewrite H2, H3. split; concrete.
Defined.

Lemma claimYield_pays_viewed_yield_witness :
  claimYield lender_year_ctx pool_deposited = Ok (pool_claimed, [mkTransfer 7 1 40]) /\
  exists v, getLenderPosition lender_year_ctx 1 pool_deposited = Ok v /\ yieldEarned v = 40.
Proof.
  assert (H : claimYield lender_year_ctx pool_deposited = Ok (pool_claimed, [mkTransfer 7 1 40]))
    by concrete.
  split; [exact H |].
  destruct (claimYield_pays_viewed_yield lender_year_ctx pool_deposited pool_claimed _
              ltac:(concrete) H) as (v & Hg & _ & Htr & _).
  exists v. split; [exact Hg |]. injection Htr as Hy. symmetry. exact Hy.
Defined.

Lemma claimYield_twice_reverts_witness :
  claimYield lender_year_ctx pool_deposited = Ok (pool_claimed, [mkTransfer 7 1 40]) /\
  claimYield lender_year_ctx pool_claimed = Revert "LendingPool: No yield to claim".
Proof.
  assert (H : claimYield lender_year_ctx pool_deposited = Ok (pool_claimed, [mkTransfer 7 1 40]))
    by concrete.
  split; [exact H |]. apply (claimYield_twice_reverts _ _ _ _ H). concrete.
Defined.

Lemma pause_blocks_lenders_witness :
  pause {[3]} admin_ctx pool_deposited = Ok (set_paused pool_deposited true) /\
  unpause {[3]} admin_ctx (set_paused pool_deposited true) = Ok pool_deposited.
Proof.
  assert (H : pause {[3]} admin_ctx pool_deposited = Ok (set_paused pool_deposited true))
    by concrete.
  split; [exact H |]. apply (pause_blocks_lenders _ _ _ _ H).
Defined.

Lemma fundLoan_then_getPoolStats_witness :
  getPoolStats pool_funded = Ok (mkPoolStats 1000 500 0 0 5000 400 1 1) /\
  utilizationRate (mkPoolStats 1000 500 0 0 5000 400 1 1) <= MAX_UTILIZATION.
Proof.
  assert (H : getPoolStats pool_funded = Ok (mkPoolStats 1000 500 0 0 5000 400 1 1)) by concrete.
  split; [exact H |].
  apply (fundLoan_then_getPoolStats controller_ctx 1 5 500 LOW pool_deposited pool_funded
           [mkTransfer 7 5 500]); [concrete | exact fundLoan_pool_deposited | exact H].
Defined.

End LendingPoolMoreProofs.

(** ** PaymentController *)

Module PaymentControllerMoreProofs.
Import SharedTypes PaymentController PaymentControllerProofs PaymentControllerFixtures.

Lemma payment_of_set_payment_ne st k p j : k <> j -> payment_of (set_payment st k p) j = payment_of st j.
Proof. intros Hne. unfold payment_of, set_payment; simpl. by rewrite lookup_insert_ne. Qed.

Lemma first_pending_ext st1 st2 ids :
  (forall k, payment_of st1 k = payment_of st2 k) -> first_pending st1 ids = first_pending st2 ids.
Proof. intros Hk. induction ids as [|pid ids IH]; simpl; [reflexivity |]. by rewrite Hk, IH. Qed.

Lemma count_missed_ext st1 st2 ids :
  (forall k, payment_of st1 k = payment_of st2 k) -> count_missed st1 ids = count_missed st2 ids.
Proof. intros Hk. induction ids as [|pid ids IH]; simpl; [reflexivity |]. by rewrite Hk, IH. Qed.

Lemma first_pending_due_upcoming st ids :
  Payment.dueDate (payment_of st 0) = 0 ->
  first_pending_due st ids = Payment.dueDate (payment_of st (first_pending st ids)).
Proof.
  intros H0. induction ids as [|pid ids IH]; simpl; [by rewrite H0 |].
  destruct (PaymentStatus.eqb _ _); [reflexivity | exact IH].
Qed.

(** [_updateNextPaymentDue] writes the due date of the payment
    [getUpcomingPayment] returns. *)
Lemma upcoming_after_update st lid :
  Payment.dueDate (payment_of st 0) = 0 ->
  Loan.nextPaymentDue (loan_of (_updateNextPaymentDue lid st) lid) =
  Payment.dueDate (payment_of (_updateNextPaymentDue lid st)
                     (getUpcomingPayment (_updateNextPaymentDue lid st) lid)).
Proof.
  intros H0. rewrite loan_of_updateNextPaymentDue. simpl. unfold getUpcomingPayment.
  rewrite (first_pending_ext (_updateNextPaymentDue lid st) st) by reflexivity.
  change (loanPayments_of (_updateNextPaymentDue lid st) lid) with (loanPayments_of st lid).
  rewrite payment_of_updateNextPaymentDue. by apply first_pending_due_upcoming.
Qed.

Lemma due_after_set_status st lid s :
  Loan.nextPaymentDue (loan_of (set_loan st lid (Loan.with_status (loan_of st lid) s)) lid) =
  Loan.nextPaymentDue (loan_of st lid).
Proof. by rewrite loan_of_set_loan. Qed.

Lemma upcoming_after_set_loan st lid l j :
  getUpcomingPayment (set_loan st lid l) j = getUpcomingPayment st j.
Proof. unfold getUpcomingPayment. apply first_pending_ext. reflexivity. Qed.

(** After a payment, the loan's [nextPaymentDue] is the due date of the
    payment [getUpcomingPayment] reports (0 when none is left), as long as
    no payment is stored under id 0. *)
Theorem makePayment_next_due_is_upcoming c pid st st' calls :
  payments st !! 0 = None -> pid <> 0 ->
  makePayment c pid st = Ok (st', calls) ->
  let lid := Payment.loanId (payment_of st pid) in
  Loan.nextPaymentDue (loan_of st' lid) =
  Payment.dueDate (payment_of st' (getUpcomingPayment st' lid)).
Proof.
  intros H0 Hpid H. cbv zeta. unfold makePayment in H. ok_steps.
  all: try rewrite (surjective_pairing (_completeLoan _ _)) in H; ok_steps.
  all: try rewrite due_after_set_status, upcoming_after_set_loan, payment_of_set_loan.
  all: apply upcoming_after_update.
  all: rewrite payment_of_set_loan, payment_of_set_payment_ne by congruence.
  all: unfold payment_of; rewrite H0; reflexivity.
Qed.

(** A payment cannot be made twice: once [makePayment] succeeds, any
    further [makePayment] of the same id reverts. *)
Theorem makePayment_twice_reverts c c' pid st st' calls :
  makePayment c pid st = Ok (st', calls) ->
  makePayment c' pid st' = Revert "PaymentController: Payment already made".
Proof.
  intros H. unfold makePayment in H. ok_steps.
  all: try rewrite (surjective_pairing (_completeLoan _ _)) in H; ok_steps.
  all: unfold whenNotPaused in Hv; apply require_Ok, negb_true_iff in Hv.
  all: unfold makePayment, whenNotPaused.
  all: cbn [paused set_loan set_payment _updateNextPaymentDue _completeLoan fst]; rewrite Hv.
  all: cbv beta iota delta [require negb mbind result_bind].
  all: autorewrite with pc_simpl; reflexivity.
Qed.

Lemma schedule_loop_frame fuel lid loan pa la i st st' :
  schedule_loop fuel lid loan pa la i st = Ok st' -> loans st' = loans st /\ paused st' = paused st.
Proof.
  revert i st. induction fuel as [|fuel IH]; intros i st H; simpl in H.
  - ok_steps. split; reflexivity.
  - destruct (i <? installments (Loan.terms loan)); [| ok_steps; split; reflexivity].
    peel H. apply schedule_step_Ok in Hv as ->. peel H.
    destruct (IH _ _ H) as [-> ->]. split; reflexivity.
Qed.

(** A loan cannot be funded twice: once [fundLoan] succeeds, the loan is
    ACTIVE and any further [fundLoan] of it reverts. *)
Theorem fundLoan_twice_reverts c c' lid st st' calls :
  fundLoan c lid st = Ok (st', calls) ->
  Loan.status (loan_of st' lid) = LoanStatus.ACTIVE /\
  fundLoan c' lid st' = Revert "PaymentController: Loan not approved".
Proof.
  intros H. unfold fundLoan in H.
  apply bind_Ok in H as [u0 [Hp H]]. apply bind_Ok in H as [u1 [_ H]].
  apply bind_Ok in H as [u2 [_ H]]. apply bind_Ok in H as [a [_ H]].
  apply bind_Ok in H as [npd [_ H]]. apply bind_Ok in H as [st2 [Hsch H]].
  apply bind_Ok in H as [[st3 cs] [Hset H]]. apply mret_Ok in H. injection H as <- <-.
  unfold _settleMerchant in Hset. ok_steps.
  unfold _createPaymentSchedule in Hsch. ok_steps.
  match goal with Hs : schedule_loop _ _ _ _ _ _ _ = Ok _ |- _ =>
    apply schedule_loop_frame in Hs as [Hl Hpa] end.
  unfold whenNotPaused in Hp. apply require_Ok, negb_true_iff in Hp.
  match goal with |- context [fundLoan c' lid ?S] =>
    assert (Hlo : Loan.status (loan_of S lid) = LoanStatus.ACTIVE) end.
  { unfold loan_of. simpl. rewrite Hl. simpl. by rewrite lookup_insert_eq. }
  split; [exact Hlo |].
  unfold fundLoan, whenNotPaused. cbv zeta. rewrite Hlo. simpl paused. rewrite Hpa. simpl. rewrite Hp.
  reflexivity.
Qed.


Lemma loan_of_set_loan_ne st k l j : k <> j -> loan_of (set_loan st k l) j = loan_of st j.
Proof. intros Hne. unfold loan_of, set_loan; simpl. by rewrite lookup_insert_ne. Qed.

Lemma bool_decide_cons (x a : Z) (l : list Z) :
  bool_decide (x ∈ a :: l) = bool_decide (x = a) || bool_decide (x ∈ l).
Proof.
  case_bool_decide as H1; case_bool_decide as H2; case_bool_decide as H3; simpl;
    try reflexivity; exfalso; set_solver.
Qed.

Lemma defaults_loop_effect c ids st st' :
  defaults_loop c ids st = Ok st' ->
  (forall lid, loan_of st' lid =
     if bool_decide (lid ∈ ids) && LoanStatus.eqb (Loan.status (loan_of st lid)) LoanStatus.ACTIVE
        && (Loan.nextPaymentDue (loan_of st lid) + DEFAULT_THRESHOLD_DAYS <? now c)
     then Loan.with_status (loan_of st lid) LoanStatus.DEFAULTED else loan_of st lid) /\
  payments st' = payments st /\ loanPayments st' = loanPayments st.
Proof.
  revert st. induction ids as [|a ids IH]; intros st H; simpl in H.
  - ok_steps. split; [| split; reflexivity]. intros lid.
    rewrite bool_decide_eq_false_2 by apply not_elem_of_nil. reflexivity.
  - apply bind_Ok in H as [v [Hv H]]. destruct (IH _ H) as (Hl & Hp & Hlp). clear H.
    destruct (LoanStatus.eqb (Loan.status (loan_of st a)) LoanStatus.ACTIVE) eqn:Ea.
    + apply bind_Ok in Hv as [dl [Hdl Hv]]. apply cadd_Ok in Hdl as [-> _].
      destruct (Loan.nextPaymentDue (loan_of st a) + DEFAULT_THRESHOLD_DAYS <? now c) eqn:Eb;
        apply mret_Ok in Hv; subst v.
      * split; [| split; assumption]. intros lid. rewrite Hl, bool_decide_cons.
        destruct (decide (lid = a)) as [->|Hne].
        -- rewrite loan_of_set_loan, (bool_decide_eq_true_2 (a = a)) by reflexivity.
           rewrite Ea, Eb. simpl. destruct (bool_decide (a ∈ ids)); reflexivity.
        -- rewrite (bool_decide_eq_false_2 (lid = a)) by exact Hne.
           rewrite loan_of_set_loan_ne by congruence. reflexivity.
      * split; [| split; assumption]. intros lid. rewrite Hl, bool_decide_cons.
        destruct (decide (lid = a)) as [->|Hne].
        -- rewrite (bool_decide_eq_true_2 (a = a)) by reflexivity. rewrite Ea, Eb.
           simpl. destruct (bool_decide (a ∈ ids)); reflexivity.
        -- rewrite (bool_decide_eq_false_2 (lid = a)) by exact Hne. reflexivity.
    + apply mret_Ok in Hv. subst v. split; [| split; assumption]. intros lid.
      rewrite Hl, bool_decide_cons. destruct (decide (lid = a)) as [->|Hne].
      * rewrite (bool_decide_eq_true_2 (a = a)) by reflexivity. rewrite Ea.
        simpl. destruct (bool_decide (a ∈ ids)); reflexivity.
      * rewrite (bool_decide_eq_false_2 (lid = a)) by exact Hne. reflexivity.
Qed.

(** [checkForDefaults] marks DEFAULTED exactly the listed loans that are
    ACTIVE and more than 30 days past their [nextPaymentDue]; every other
    loan, and every payment, is left as it was. *)
Theorem checkForDefaults_effect admins c ids st st' :
  checkForDefaults admins c ids st = Ok st' ->
  (forall lid, loan_of st' lid =
     if bool_decide (lid ∈ ids) && LoanStatus.eqb (Loan.status (loan_of st lid)) LoanStatus.ACTIVE
        && (Loan.nextPaymentDue (loan_of st lid) + DEFAULT_THRESHOLD_DAYS <? now c)
     then Loan.with_status (loan_of st lid) LoanStatus.DEFAULTED else loan_of st lid) /\
  payments st' = payments st /\ loanPayments st' = loanPayments st.
Proof. unfold checkForDefaults. intros H. peel H. exact (defaults_loop_effect _ _ _ _ H). Qed.

(** The controller calling [this.makePayment] is not the loan's borrower,
    so the attempt reverts. *)
Lemma makePayment_self_reverts st pid n :
  Loan.borrower (loan_of st (Payment.loanId (payment_of st pid))) <> self st ->
  exists r, makePayment (mkCtx (self st) n) pid st = Revert r.
Proof.
  intros Hb. unfold makePayment. cbv zeta.
  destruct (whenNotPaused st) as [[]|r]; [| eexists; reflexivity]. cbn [mbind result_bind].
  destruct (require (PaymentStatus.eqb _ _) _) as [[]|r]; [| eexists; reflexivity].
  cbn [mbind result_bind sender]. unfold require at 1.
  rewrite (proj2 (Z.eqb_neq _ _) Hb). eexists; reflexivity.
Qed.

Lemma countMissed_set_loan st k l j :
  _countMissedPayments (set_loan st k l) j = _countMissedPayments st j.
Proof. unfold _countMissedPayments. apply count_missed_ext. reflexivity. Qed.

(** For a borrower other than the controller itself, [processAutoPayment]
    never collects: whatever the balance, the payment is marked MISSED, the
    risk engine is told of a missed payment, and the loan is DEFAULTED
    exactly when it now has two missed payments or the due date is more
    than 30 days past. *)
Theorem processAutoPayment_never_collects admins c bal pid st st' calls :
  Loan.borrower (loan_of st (Payment.loanId (payment_of st pid))) <> self st ->
  processAutoPayment admins c bal pid st = Ok (st', calls) ->
  let p := payment_of st pid in
  let lid := Payment.loanId p in
  calls = [RiskRecordPayment (Loan.borrower (loan_of st lid)) (Payment.amount p) false] /\
  payment_of st' pid = Payment.with_status p PaymentStatus.MISSED /\
  loan_of st' lid = Loan.with_status (loan_of st lid)
    (if (2 <=? _countMissedPayments st' lid) ||
        (Payment.dueDate p + DEFAULT_THRESHOLD_DAYS <? now c)
     then LoanStatus.DEFAULTED else LoanStatus.ACTIVE).
Proof.
  intros Hb H. cbv zeta. unfold processAutoPayment in H. cbv zeta in H.
  apply bind_Ok in H as [u0 [_ H]]. apply bind_Ok in H as [u1 [_ H]].
  apply bind_Ok in H as [u2 [Ha H]].
  assert (Hact : Loan.status (loan_of st (Payment.loanId (payment_of st pid))) = LoanStatus.ACTIVE).
  { apply require_Ok in Ha. destruct (Loan.status _); try discriminate; reflexivity. }
  assert (Hm : _markPaymentMissed c pid st = Ok (st', calls)).
  { destruct (Payment.amount _ <=? bal); [| exact H].
    destruct (makePayment_self_reverts st pid (now c) Hb) as [r Hr]. rewrite Hr in H. exact H. }
  clear H Ha. unfold _markPaymentMissed in Hm. cbv zeta in Hm.
  destruct (2 <=? _ ) eqn:E1 in Hm.
  - apply mret_Ok in Hm. injection Hm as <- <-.
    rewrite countMissed_set_loan, E1. simpl.
    autorewrite with pc_simpl. split; [reflexivity |]. split; reflexivity.
  - apply bind_Ok in Hm as [dl [Hdl Hm]]. apply cadd_Ok in Hdl as [-> _].
    destruct (_ <? now c) eqn:E2 in Hm; apply mret_Ok in Hm; injection Hm as <- <-.
    + rewrite countMissed_set_loan, E1, E2. simpl.
      autorewrite with pc_simpl. split; [reflexivity |]. split; reflexivity.
    + rewrite E1, E2. simpl. autorewrite with pc_simpl. split; [reflexivity |].
      split; [reflexivity |]. rewrite <- Hact. by destruct (loan_of st _).
Qed.

(** Every payment template passes the checks [updatePaymentTemplate] makes
    (at least one installment, a positive interval, a late fee rate of at
    most 10%): the constructor's templates do, an update keeps it, and a new
    loan takes its terms from such a template. *)
Theorem templates_stay_valid :
  (forall k t, initialTemplates !! k = Some t -> terms_ok t) /\
  (forall admins c name terms st st',
     (forall k t, paymentTemplates st !! k = Some t -> terms_ok t) -> 0 <= lateFeeRate terms ->
     updatePaymentTemplate admins c name terms st = Ok st' ->
     forall k t, paymentTemplates st' !! k = Some t -> terms_ok t) /\
  (forall c merchant principal ca ct name a st st' lid calls,
     (forall k t, paymentTemplates st !! k = Some t -> terms_ok t) ->
     createLoan c merchant principal ca ct name a st = Ok (st', lid, calls) ->
     terms_ok (Loan.terms (loan_of st' lid))).
Proof.
  split; [| split].
  - intros k t H. unfold initialTemplates in H.
    rewrite !lookup_insert_Some, lookup_singleton_Some in H.
    unfold terms_ok. destruct H as [[_ <-]|[_ [[_ <-]|[_ [_ <-]]]]]; simpl; lia.
  - intros admins c name terms st st' Hall Hl H. unfold updatePaymentTemplate in H.
    ok_steps; bool_to_prop. intros k t Hk. simpl in Hk.
    apply lookup_insert_Some in Hk as [[_ <-]|[_ Hk]]; [unfold terms_ok; lia | eauto].
  - intros c merchant principal ca ct name a st st' lid calls Hall H. unfold createLoan in H.
    ok_steps; bool_to_prop. rewrite loan_of_set_loan. simpl.
    unfold template_of in *. destruct (paymentTemplates st !! name) eqn:E; simpl in *; [eauto | lia].
Qed.

(** On a loan whose terms pass the template checks, the late fee
    [makePayment] records is at most a tenth of the installment. *)
Theorem makePayment_late_fee_capped c pid st st' calls :
  terms_ok (Loan.terms (loan_of st (Payment.loanId (payment_of st pid)))) ->
  0 <= Payment.amount (payment_of st pid) ->
  makePayment c pid st = Ok (st', calls) ->
  0 <= Payment.lateFee (payment_of st' pid) <= Payment.amount (payment_of st pid) / 10.
Proof.
  intros (_ & _ & Hr) Ha H. unfold makePayment, _calculateLateFee in H. ok_steps.
  all: try rewrite (surjective_pairing (_completeLoan _ _)) in H; ok_steps; bool_to_prop.
  all: autorewrite with pc_simpl; simpl.
  all: unfold BASIS_POINTS.
  all: split; [first [lia | apply Z.div_pos; nia || lia] |].
  all: try (apply Z.div_pos; lia).
  all: set (A := Payment.amount (payment_of st pid)) in *;
       set (R := lateFeeRate (Loan.terms (loan_of st (Payment.loanId (payment_of st pid))))) in *.
  all: transitivity (A * 1000 / 10000); [apply Z.div_le_mono; nia |].
  all: replace 10000 with (10 * 1000) by reflexivity; rewrite Z.div_mul_cancel_r; lia.
Qed.

(** Ids that were never written read as the zero struct, and the checks
    reject them: paying an unknown payment fails the borrower check,
    funding an unknown loan fails the approval check, and automating an
    unknown payment fails the active-loan check. *)
Theorem unknown_ids_revert c st :
  paused st = false -> loans st !! 0 = None ->
  (forall pid, payments st !! pid = None -> sender c <> 0 ->
     makePayment c pid st = Revert "PaymentController: Not loan borrower") /\
  (forall lid, loans st !! lid = None ->
     fundLoan c lid st = Revert "PaymentController: Loan not approved") /\
  (forall admins bal pid, sender c ∈ admins -> payments st !! pid = None ->
     processAutoPayment admins c bal pid st = Revert "PaymentController: Loan not active").
Proof.
  intros Hp H0. assert (Hl0 : loan_of st 0 = Loan.zero) by (unfold loan_of; rewrite H0; reflexivity).
  split; [| split].
  - intros pid Hpid Hs.
    assert (Hz : payment_of st pid = Payment.zero) by (unfold payment_of; rewrite Hpid; reflexivity).
    unfold makePayment, whenNotPaused. rewrite Hp. cbv zeta. rewrite Hz. simpl. rewrite Hl0. simpl.
    destruct (sender c); [congruence | reflexivity | reflexivity].
  - intros lid Hlid.
    assert (Hz : loan_of st lid = Loan.zero) by (unfold loan_of; rewrite Hlid; reflexivity).
    unfold fundLoan, whenNotPaused. rewrite Hp. cbv zeta. rewrite Hz. reflexivity.
  - intros admins bal pid Ha Hpid.
    assert (Hz : payment_of st pid = Payment.zero) by (unfold payment_of; rewrite Hpid; reflexivity).
    unfold processAutoPayment, onlyAdmin. cbv zeta.
    rewrite bool_decide_eq_true_2 by exact Ha. rewrite Hz. simpl. rewrite Hl0. reflexivity.
Qed.


Ltac concrete_pc :=
  first [ reflexivity | vm_compute; reflexivity | vm_compute; discriminate
        | vm_compute; intros ?; discriminate ].

Lemma makePayment_next_due_is_upcoming_witness :
  payments pc_funded !! 0 = None /\
  Loan.nextPaymentDue (loan_of pc_paid_late 1) =
  Payment.dueDate (payment_of pc_paid_late (getUpcomingPayment pc_paid_late 1)).
Proof.
  split; [concrete_pc |].
  exact (makePayment_next_due_is_upcoming late_ctx 1 pc_funded pc_paid_late _
           ltac:(concrete_pc) ltac:(discriminate) makePayment_late).
Defined.

Lemma makePayment_twice_reverts_witness :
  makePayment late_ctx 1 pc_paid_late = Revert "PaymentController: Payment already made".
Proof. exact (makePayment_twice_reverts late_ctx late_ctx 1 pc_funded pc_paid_late _ makePayment_late). Defined.

Lemma fundLoan_twice_reverts_witness :
  Loan.status (loan_of pc_funded 1) = LoanStatus.ACTIVE /\
  fundLoan borrower_ctx 1 pc_funded = Revert "PaymentController: Loan not approved".
Proof. exact (fundLoan_twice_reverts borrower_ctx borrower_ctx 1 pc_created pc_funded _ fundLoan_standard). Defined.

Lemma checkForDefaults_effect_witness :
  exists st', checkForDefaults {[99]} sweep_ctx [1] pc_funded = Ok st' /\
    loan_of st' 1 = Loan.with_status (loan_of pc_funded 1) LoanStatus.DEFAULTED.
Proof.
  destruct (checkForDefaults {[99]} sweep_ctx [1] pc_funded) as [st'|r] eqn:E;
    [| vm_compute in E; discriminate].
  exists st'. split; [reflexivity |].
  rewrite (proj1 (checkForDefaults_effect {[99]} sweep_ctx [1] pc_funded st' E) 1).
  vm_compute. reflexivity.
Defined.

Lemma processAutoPayment_never_collects_witness :
  Loan.borrower (loan_of pc_funded 1) <> self pc_funded /\
  exists st' calls, processAutoPayment {[99]} automation_ctx 1000 1 pc_funded = Ok (st', calls) /\
    calls = [RiskRecordPayment 40 250 false] /\
    payment_of st' 1 = Payment.with_status (payment_of pc_funded 1) PaymentStatus.MISSED.
Proof.
  split; [concrete_pc |].
  destruct (processAutoPayment {[99]} automation_ctx 1000 1 pc_funded) as [[st' calls]|r] eqn:E;
    [| vm_compute in E; discriminate].
  exists st', calls. split; [reflexivity |].
  destruct (processAutoPayment_never_collects {[99]} automation_ctx 1000 1 pc_funded st' calls
              ltac:(concrete_pc) E) as (Hc & Hp & _).
  split; [exact Hc | exact Hp].
Defined.

Lemma makePayment_late_fee_capped_witness :
  0 <= Payment.lateFee (payment_of pc_paid_late 1) <= Payment.amount (payment_of pc_funded 1) / 10.
Proof.
  refine (makePayment_late_fee_capped late_ctx 1 pc_funded pc_paid_late _ _ _ makePayment_late); [| concrete_pc].
  unfold terms_ok. vm_compute. repeat split; first [reflexivity | intros ?; discriminate].
Defined.

Lemma unknown_ids_revert_witness :
  makePayment borrower_ctx 9 pc_funded = Revert "PaymentController: Not loan borrower" /\
  fundLoan borrower_ctx 9 pc_funded = Revert "PaymentController: Loan not approved" /\
  processAutoPayment {[99]} automation_ctx 0 9 pc_funded = Revert "PaymentController: Loan not active".
Proof.
  destruct (unknown_ids_revert borrower_ctx pc_funded ltac:(concrete_pc) ltac:(concrete_pc)) as (A & B & _).
  destruct (unknown_ids_revert automation_ctx pc_funded ltac:(concrete_pc) ltac:(concrete_pc)) as (_ & _ & C).
  split; [apply A; concrete_pc |]. split; [apply B; concrete_pc |].
  apply C; [set_solver | concrete_pc].
Defined.

End PaymentControllerMoreProofs.

(** ** RiskEngine *)

Module RiskEngineMoreProofs.
Import SharedTypes RiskEngine RiskEngineProofs RiskEngineFixtures.

Lemma profile_set_profile_ne st u v p : u <> v -> profile (set_profile st u p) v = profile st v.
Proof. intros Hne. unfold profile, set_profile; simpl. by rewrite lookup_insert_ne. Qed.

Ltac re_profile :=
  repeat first [ rewrite profile_set_profile | rewrite profile_set_profile_ne by congruence ];
  simpl.

Lemma updateCreditScore_shape u pts b st st' :
  _updateCreditScore u pts b st = Ok st' ->
  exists s, st' = set_profile st u (with_score_tier (profile st u) s (_getRiskTier st s)).
Proof.
  unfold _updateCreditScore. cbv zeta. intros H.
  apply bind_Ok in H as [s [_ H]]. apply mret_Ok in H. eauto.
Qed.

Lemma calculateCreditScore_range st u cv la s :
  _calculateCreditScore st u cv la = Ok s -> MIN_SCORE <= s <= SCORE_SCALE.
Proof.
  unfold _calculateCreditScore. cbv zeta. intros H.
  do 8 (apply bind_Ok in H as [? [_ H]]; cbv beta in H).
  apply mret_Ok in H. subst s. unfold MIN_SCORE, SCORE_SCALE.
  repeat match goal with |- context [if ?b then _ else _] => destruct b eqn:? end;
    bool_to_prop; lia.
Qed.

(** The whole of [assessRisk]'s answer: the score lies in [[300, 850]], the
    tier is DENIED exactly below the HIGH threshold, the request is approved
    exactly when the four checks pass, and the reason is that of the last
    failing check in the order score, tier limit, collateral ratio, existing
    debt. *)
Lemma assessRisk_outcome tm st b req ca cv r :
  assessRisk tm st b req ca cv = Ok r ->
  let ratio := cv * BASIS_POINTS / req in
  let minRatio := minCollateralRatio (riskParams st) in
  let debt := currentDebt (profile st b) in
  let score := PaymentController.a_creditScore r in
  let tier := PaymentController.a_riskTier r in
  (MIN_SCORE <= score <= SCORE_SCALE) /\
  tier = (if score <? tierMinScores st RiskTier.HIGH then RiskTier.DENIED
          else _getRiskTier st score) /\
  PaymentController.a_maxLoanAmount r = tm tier /\
  PaymentController.a_requiredCollateral r = req * minRatio / BASIS_POINTS /\
  PaymentController.a_approved r =
    (tierMinScores st RiskTier.HIGH <=? score) && (req <=? tm tier) &&
    (minRatio <=? ratio) && (debt <=? 0) /\
  PaymentController.a_reason r =
    (if 0 <? debt then "Existing debt outstanding"
     else if ratio <? minRatio then "Insufficient collateral"
     else if tm tier <? req then "Requested amount exceeds tier limit"
     else if score <? tierMinScores st RiskTier.HIGH then "Credit score too low"
     else "").
Proof.
  intros H. cbv zeta. unfold assessRisk in H.
  apply bind_Ok in H as [u1 [_ H]]. apply bind_Ok in H as [u2 [_ H]].
  apply bind_Ok in H as [u3 [_ H]]. apply bind_Ok in H as [sc [Hsc H]].
  apply calculateCreditScore_range in Hsc.
  repeat (first [ apply bind_Ok in H as [? [? H]]
                | match type of H with
                  | context [if ?c then _ else _] => let E := fresh "E" in destruct c eqn:E
                  end ]; cbv beta iota in H).
  all: ok_steps.
  all: cbn [PaymentController.a_creditScore PaymentController.a_riskTier
            PaymentController.a_maxLoanAmount PaymentController.a_requiredCollateral
            PaymentController.a_approved PaymentController.a_reason].
  all: rewrite !Z.leb_antisym.
  all: repeat match goal with
              | E : (?x <? ?y) = _ |- context [?x <? ?y] => rewrite E
              end.
  all: repeat split; lia || reflexivity.
Qed.

(** [assessRisk] answers as follows: the score lies in [[300, 850]], the
    tier is DENIED exactly below the HIGH threshold, the maximum amount is
    the tier's limit, the required collateral is [requestedAmount *
    minCollateralRatio / 10000], the request is approved exactly when all
    four checks pass, and the single reason reported is that of the last
    failing check in the order score, tier limit, collateral ratio,
    existing debt (empty when approved). *)
Theorem assessRisk_decision tm st b req ca cv r :
  assessRisk tm st b req ca cv = Ok r ->
  let ratio := cv * BASIS_POINTS / req in
  let minRatio := minCollateralRatio (riskParams st) in
  let debt := currentDebt (profile st b) in
  let score := PaymentController.a_creditScore r in
  let tier := PaymentController.a_riskTier r in
  (MIN_SCORE <= score <= SCORE_SCALE) /\
  tier = (if score <? tierMinScores st RiskTier.HIGH then RiskTier.DENIED
          else _getRiskTier st score) /\
  PaymentController.a_maxLoanAmount r = tm tier /\
  PaymentController.a_requiredCollateral r = req * minRatio / BASIS_POINTS /\
  PaymentController.a_approved r =
    (tierMinScores st RiskTier.HIGH <=? score) && (req <=? tm tier) &&
    (minRatio <=? ratio) && (debt <=? 0) /\
  PaymentController.a_reason r =
    (if 0 <? debt then "Existing debt outstanding"
     else if ratio <? minRatio then "Insufficient collateral"
     else if tm tier <? req then "Requested amount exceeds tier limit"
     else if score <? tierMinScores st RiskTier.HIGH then "Credit score too low"
     else "").
Proof. exact (assessRisk_outcome tm st b req ca cv r). Qed.

(** While the HIGH tier's threshold is at most [MIN_SCORE] (the constructor
    sets it to 300), [assessRisk] never puts a borrower in the DENIED tier
    and never rejects for "Credit score too low": the computed score is
    clamped to at least 300. *)
Theorem assessRisk_never_denied_by_score tm st b req ca cv r :
  tierMinScores st RiskTier.HIGH <= MIN_SCORE ->
  assessRisk tm st b req ca cv = Ok r ->
  PaymentController.a_riskTier r <> RiskTier.DENIED /\
  PaymentController.a_reason r <> "Credit score too low".
Proof.
  intros Hh H. destruct (assessRisk_outcome _ _ _ _ _ _ _ H) as (Hs & Ht & _ & _ & _ & Hr).
  cbv zeta in *.
  assert (Hlt : (PaymentController.a_creditScore r <? tierMinScores st RiskTier.HIGH) = false)
    by (apply Z.ltb_ge; lia).
  rewrite Hlt in Ht, Hr. split.
  - rewrite Ht. unfold _getRiskTier.
    rewrite (proj2 (Z.leb_le (tierMinScores st RiskTier.HIGH) _)) by lia.
    destruct (_ <=? _); [discriminate |]. destruct (_ <=? _); discriminate.
  - rewrite Hr. repeat (destruct (_ <? _)); discriminate.
Qed.

(** [getCreditProfile] returns the stored profile unchanged (the all-zero
    profile, tier LOW, for an address never recorded) until the profile has
    a [lastAssessment]; from then on it recomputes the score, which lies in
    [[300, 850]], and the tier that goes with it, and keeps every other
    field. *)
Theorem getCreditProfile_view st u :
  (creditProfiles st !! u = None -> getCreditProfile st u = Ok zero_profile) /\
  (forall p, getCreditProfile st u = Ok p ->
     if 0 <? lastAssessment (profile st u)
     then MIN_SCORE <= creditScore p <= SCORE_SCALE /\
          p = with_score_tier (profile st u) (creditScore p) (_getRiskTier st (creditScore p))
     else p = profile st u).
Proof.
  split.
  - intros Hn. unfold getCreditProfile, profile. rewrite Hn. reflexivity.
  - intros p H. unfold getCreditProfile in H. cbv zeta in H.
    destruct (0 <? lastAssessment (profile st u)).
    + apply bind_Ok in H as [s [Hs H]]. apply mret_Ok in H. subst p. simpl.
      split; [exact (calculateCreditScore_range _ _ _ _ _ Hs) | reflexivity].
    + by apply mret_Ok in H.
Qed.

(** After [recordLoan] (on a profile whose debt is not negative), every
    [assessRisk] for that borrower is refused with "Existing debt
    outstanding", whatever the amount, collateral and score. *)
Theorem recordLoan_then_assessRisk c b amt st st' tm req ca cv r :
  0 <= currentDebt (profile st b) ->
  recordLoan c b amt st = Ok st' ->
  assessRisk tm st' b req ca cv = Ok r ->
  PaymentController.a_approved r = false /\
  PaymentController.a_reason r = "Existing debt outstanding".
Proof.
  intros H0 H1 H2. unfold recordLoan in H1. cbv zeta in H1. ok_steps. bool_to_prop.
  destruct (assessRisk_outcome _ _ _ _ _ _ _ H2) as (_ & _ & _ & _ & Ha & Hr).
  cbv zeta in Ha, Hr. rewrite profile_set_profile in Ha, Hr. simpl in Ha, Hr.
  rewrite (proj2 (Z.ltb_lt 0 _)) in Hr by lia.
  rewrite (proj2 (Z.leb_gt _ 0)), andb_false_r in Ha by lia. auto.
Qed.

(** [recordLoanCompletion] of the amount [recordLoan] recorded gives the
    borrower's debt back its earlier value (when that was not negative),
    while [totalBorrowed] keeps the loan. *)
Theorem recordLoan_completion_roundtrip c c' b amt st st1 st2 :
  0 <= currentDebt (profile st b) ->
  recordLoan c b amt st = Ok st1 ->
  recordLoanCompletion c' b amt st1 = Ok st2 ->
  currentDebt (profile st2 b) = currentDebt (profile st b) /\
  totalBorrowed (profile st2 b) = totalBorrowed (profile st b) + amt.
Proof.
  intros H0 H1 H2. unfold recordLoan in H1. cbv zeta in H1. ok_steps. bool_to_prop.
  unfold recordLoanCompletion in H2. cbv zeta in H2. ok_steps.
  match goal with Hu : _updateCreditScore _ _ _ _ = Ok _ |- _ =>
    apply updateCreditScore_shape in Hu as [s ->] end.
  re_profile. destruct (Z.leb_spec amt (currentDebt (profile st b) + amt)); lia.
Qed.

Lemma recordPayment_hasDefaulted c b a o st st' u :
  recordPayment c b a o st = Ok st' -> hasDefaulted (profile st' u) = hasDefaulted (profile st u).
Proof.
  unfold recordPayment. cbv zeta. intros H. ok_steps.
  all: match goal with Hu : _updateCreditScore _ _ _ _ = Ok _ |- _ =>
         apply updateCreditScore_shape in Hu as [s ->] end.
  all: destruct (decide (b = u)) as [->|Hne]; re_profile; reflexivity.
Qed.

Lemma recordLoan_hasDefaulted c b a st st' u :
  recordLoan c b a st = Ok st' -> hasDefaulted (profile st' u) = hasDefaulted (profile st u).
Proof.
  unfold recordLoan. cbv zeta. intros H. ok_steps.
  destruct (decide (b = u)) as [->|Hne]; re_profile; reflexivity.
Qed.

Lemma recordLoanCompletion_hasDefaulted c b a st st' u :
  recordLoanCompletion c b a st = Ok st' -> hasDefaulted (profile st' u) = hasDefaulted (profile st u).
Proof.
  unfold recordLoanCompletion. cbv zeta. intros H. ok_steps.
  match goal with Hu : _updateCreditScore _ _ _ _ = Ok _ |- _ =>
    apply updateCreditScore_shape in Hu as [s ->] end.
  destruct (decide (b = u)) as [->|Hne]; re_profile; reflexivity.
Qed.

Lemma recordDefault_profile c b a st st' :
  recordDefault c b a st = Ok st' ->
  hasDefaulted (profile st' b) = true /\ currentDebt (profile st' b) = 0 /\
  forall u, u <> b -> profile st' u = profile st u.
Proof.
  unfold recordDefault. cbv zeta. intros H. ok_steps.
  match goal with Hu : _updateCreditScore _ _ _ _ = Ok _ |- _ =>
    apply updateCreditScore_shape in Hu as [s ->] end.
  re_profile. split; [reflexivity | split; [reflexivity |]].
  intros u Hne. re_profile. reflexivity.
Qed.

(** [recordDefault] writes the borrower's debt off and sets [hasDefaulted];
    no operation of the engine ever clears that flag again: [recordPayment],
    [recordLoan], [recordLoanCompletion] and [recordDefault] all keep it. *)
Theorem default_flag_sticky :
  (forall c b a st st', recordDefault c b a st = Ok st' ->
     hasDefaulted (profile st' b) = true /\ currentDebt (profile st' b) = 0) /\
  (forall u st st', hasDefaulted (profile st u) = true ->
     (exists c b a o, recordPayment c b a o st = Ok st') \/
     (exists c b a, recordLoan c b a st = Ok st') \/
     (exists c b a, recordLoanCompletion c b a st = Ok st') \/
     (exists c b a, recordDefault c b a st = Ok st') ->
     hasDefaulted (profile st' u) = true).
Proof.
  split.
  - intros c b a st st' H. destruct (recordDefault_profile _ _ _ _ _ H) as (H1 & H2 & _). auto.
  - intros u st st' Hd [(c & b & a & o & H) | [(c & b & a & H) | [(c & b & a & H) | (c & b & a & H)]]].
    + by rewrite (recordPayment_hasDefaulted _ _ _ _ _ _ u H).
    + by rewrite (recordLoan_hasDefaulted _ _ _ _ _ u H).
    + by rewrite (recordLoanCompletion_hasDefaulted _ _ _ _ _ u H).
    + destruct (recordDefault_profile _ _ _ _ _ H) as (H1 & _ & H3).
      destruct (decide (u = b)) as [->|Hne]; [exact H1 | by rewrite H3].
Qed.


Ltac concrete_re :=
  first [ reflexivity | vm_compute; reflexivity | vm_compute; discriminate
        | vm_compute; intros ?; discriminate ].

Lemma assessRisk_decision_witness :
  exists r, assessRisk initialTierMaxAmounts re_state 40 500 1 1000 = Ok r /\
    PaymentController.a_approved r = false /\
    PaymentController.a_reason r = "Existing debt outstanding".
Proof.
  destruct (assessRisk initialTierMaxAmounts re_state 40 500 1 1000) as [r|e] eqn:E;
    [| vm_compute in E; discriminate].
  exists r. split; [reflexivity |].
  destruct (assessRisk_decision _ _ _ _ _ _ _ E) as (_ & _ & _ & _ & Ha & Hr).
  cbv zeta in Ha, Hr. rewrite Ha, Hr. vm_compute in E. injection E as <-.
  split; vm_compute; reflexivity.
Defined.

Lemma assessRisk_never_denied_by_score_witness :
  exists r, assessRisk initialTierMaxAmounts re_state 41 500 1 1000 = Ok r /\
    PaymentController.a_riskTier r <> RiskTier.DENIED.
Proof.
  destruct (assessRisk initialTierMaxAmounts re_state 41 500 1 1000) as [r|e] eqn:E;
    [| vm_compute in E; discriminate].
  exists r. split; [reflexivity |].
  exact (proj1 (assessRisk_never_denied_by_score initialTierMaxAmounts re_state 41 500 1 1000 r ltac:(concrete_re) E)).
Defined.

Lemma recordLoan_then_assessRisk_witness :
  exists st' r, recordLoan re_ctx 41 500 re_state = Ok st' /\
    assessRisk initialTierMaxAmounts st' 41 500 1 1000 = Ok r /\
    PaymentController.a_reason r = "Existing debt outstanding".
Proof.
  destruct (recordLoan re_ctx 41 500 re_state) as [st'|e] eqn:E1;
    [| vm_compute in E1; discriminate].
  destruct (assessRisk initialTierMaxAmounts st' 41 500 1 1000) as [r|e] eqn:E2;
    [| vm_compute in E1; injection E1 as <-; vm_compute in E2; discriminate].
  exists st', r. split; [reflexivity | split; [exact E2 |]].
  exact (proj2 (recordLoan_then_assessRisk re_ctx 41 500 re_state st' initialTierMaxAmounts 500 1 1000 r ltac:(concrete_re) E1 E2)).
Defined.

Lemma recordLoan_completion_roundtrip_witness :
  exists st1 st2, recordLoan re_ctx 41 500 re_state = Ok st1 /\
    recordLoanCompletion re_ctx 41 500 st1 = Ok st2 /\
    currentDebt (profile st2 41) = currentDebt (profile re_state 41).
Proof.
  destruct (recordLoan re_ctx 41 500 re_state) as [st1|e] eqn:E1;
    [| vm_compute in E1; discriminate].
  destruct (recordLoanCompletion re_ctx 41 500 st1) as [st2|e] eqn:E2;
    [| vm_compute in E1; injection E1 as <-; vm_compute in E2; discriminate].
  exists st1, st2. split; [reflexivity | split; [exact E2 |]].
  exact (proj1 (recordLoan_completion_roundtrip re_ctx re_ctx 41 500 re_state st1 st2 ltac:(concrete_re) E1 E2)).
Defined.

End RiskEngineMoreProofs.

(** ** CollateralManager *)

Module CollateralManagerMoreProofs.
Import CollateralManager CollateralManagerFixtures.

Lemma position_of_set_position st k p : position_of (set_position st k p) k = p.
Proof. unfold position_of, set_position; simpl. by rewrite lookup_insert_eq. Qed.

Lemma position_of_set_position_ne st k j p :
  k <> j -> position_of (set_position st k p) j = position_of st j.
Proof. intros Hne. unfold position_of, set_position; simpl. by rewrite lookup_insert_ne. Qed.

Lemma config_of_set_config st t cfg : config_of (set_config st t cfg) t = cfg.
Proof. unfold config_of, set_config; simpl. by rewrite lookup_insert_eq. Qed.

Lemma config_of_set_config_ne st t u cfg :
  t <> u -> config_of (set_config st t cfg) u = config_of st u.
Proof. intros Hne. unfold config_of, set_config; simpl. by rewrite lookup_insert_ne. Qed.

Lemma cpow10_Ok d s : cpow10 d = Ok s -> s = 10 ^ d.
Proof. unfold cpow10. destruct (_ <=? _); intros H; [by injection H | discriminate]. Qed.

Lemma getTokenPrice_Ok st tok p :
  getTokenPrice st tok = Ok p -> isSupported (config_of st tok) = true /\ p = price_of st tok /\ 0 < p.
Proof. unfold getTokenPrice. cbv zeta. intros H. ok_steps. bool_to_prop. auto. Qed.

Lemma positions_ok_set st lid p :
  positions_ok st -> 0 <= amount p -> (isLocked p = true <-> 0 < amount p) ->
  positions_ok (set_position st lid p).
Proof.
  intros Hok H0 H1 j. destruct (decide (lid = j)) as [<-|Hne].
  - rewrite position_of_set_position. auto.
  - rewrite position_of_set_position_ne by exact Hne. apply Hok.
Qed.

(* The remaining operations of [removeTokenSupport]'s loop. *)

Lemma remove_loop_found f i tok l k :
  l !! k = Some tok -> (i <= k)%nat -> (k < i + f)%nat ->
  (forall j, (i <= j < k)%nat -> l !! j <> Some tok) ->
  remove_loop f i tok l = swap_pop l k.
Proof.
  revert i. induction f as [|f IH]; intros i Hk Hik Hkf Hbefore; [lia |]. simpl.
  destruct (l !! i) as [y|] eqn:Ey.
  - destruct (decide (i = k)) as [->|Hne].
    + rewrite Hk in Ey. injection Ey as <-. rewrite Z.eqb_refl. reflexivity.
    + assert (Hy : y <> tok) by (intros ->; apply (Hbefore i); [lia | exact Ey]).
      rewrite (proj2 (Z.eqb_neq y tok) Hy). apply IH; try lia; [exact Hk |].
      intros j Hj. apply Hbefore. lia.
  - exfalso. apply lookup_lt_Some in Hk. apply lookup_ge_None in Ey. lia.
Qed.

Lemma swap_pop_delete l k x : l !! k = Some x -> swap_pop l k ≡ₚ delete k l.
Proof.
  intros Hk. unfold swap_pop.
  destruct l as [|a l' _] using rev_ind; [done |].
  rewrite last_snoc.
  pose proof (lookup_lt_Some _ _ _ Hk) as Hlt. rewrite length_app in Hlt. simpl in Hlt.
  destruct (decide (k = length l')) as [->|Hne].
  - rewrite list_insert_id by (rewrite lookup_app_r, Nat.sub_diag by lia; reflexivity).
    rewrite removelast_last. rewrite (delete_middle l' [] a), app_nil_r. reflexivity.
  - rewrite insert_app_l by lia. rewrite removelast_last.
    rewrite insert_take_drop by lia. rewrite delete_take_drop.
    rewrite take_app_le by lia. rewrite drop_app_le by lia.
    apply Permutation_app_head. apply Permutation_cons_append.
Qed.

Lemma delete_NoDup_elem (l : list Z) (k : nat) (x : Z) :
  NoDup l -> l !! k = Some x ->
  NoDup (delete k l) /\ forall t, t ∈ delete k l <-> t ∈ l /\ t <> x.
Proof.
  intros Hnd Hk. rewrite delete_take_drop.
  pose proof (take_drop_middle l k x Hk) as Hl.
  set (A := take k l) in *. set (B := drop (S k) l) in *.
  rewrite <- Hl in Hnd |- *.
  apply NoDup_app in Hnd as (HA & Hdisj & HxB). apply NoDup_cons in HxB as [HxB HB].
  assert (HxA : x ∉ A) by (intros Hx; apply (Hdisj x Hx); set_solver).
  split.
  - apply NoDup_app. split; [exact HA |]. split; [| exact HB].
    intros y Hy Hy'. apply (Hdisj y Hy). set_solver.
  - intros t. rewrite !elem_of_app, elem_of_cons. split.
    + intros [Ht|Ht]; split; auto; intros ->; auto.
    + intros [[Ht|[Ht|Ht]] Hne]; auto; congruence.
Qed.

Lemma remove_loop_delete l tok :
  NoDup l -> tok ∈ l ->
  exists k, l !! k = Some tok /\ remove_loop (length l) 0 tok l ≡ₚ delete k l.
Proof.
  intros Hnd Hin. apply list_elem_of_lookup_1 in Hin as [k Hk].
  exists k. split; [exact Hk |].
  rewrite (remove_loop_found (length l) 0 tok l k Hk).
  - exact (swap_pop_delete l k tok Hk).
  - lia.
  - pose proof (lookup_lt_Some _ _ _ Hk). lia.
  - intros j Hj Hjt. pose proof (NoDup_lookup l j k tok Hnd Hjt Hk). lia.
Qed.

Lemma releaseCollateral_set_config c sa lid o tok amt st t cfg :
  releaseCollateral c sa lid o tok amt (set_config st t cfg) =
  match releaseCollateral c sa lid o tok amt st with
  | Ok (st1, ts) => Ok (set_config st1 t cfg, ts)
  | Revert r => Revert r
  end.
Proof.
  unfold releaseCollateral, onlyPaymentController, require. cbv zeta.
  change (paymentControllerRole (set_config st t cfg)) with (paymentControllerRole st).
  change (position_of (set_config st t cfg) lid) with (position_of st lid).
  destruct (bool_decide _); [| reflexivity]. simpl.
  destruct (isLocked _); [| reflexivity]. simpl.
  destruct (_ =? o); [| reflexivity]. simpl.
  destruct (_ =? tok); [| reflexivity]. simpl.
  destruct (amt <=? _); [| reflexivity]. simpl.
  unfold csub. destruct (amt <=? _); reflexivity.
Qed.

(** After [lockCollateral] the owner's tokens are pulled into the contract;
    while the position is locked no second [lockCollateral] for the same
    loan can succeed; and [releaseCollateral] of the same owner, token and
    amount by the payment controller succeeds, pays the whole amount back
    and leaves the position unlocked and empty. *)
Theorem lock_release_roundtrip c c' sa o tok amt lid st st1 ts :
  lockCollateral c sa o tok amt lid st = Ok (st1, ts) ->
  sender c' ∈ paymentControllerRole st ->
  ts = [mkTokenTransfer tok o sa amt] /\
  (forall c'' o' tok' amt' x, lockCollateral c'' sa o' tok' amt' lid st1 <> Ok x) /\
  exists st2, releaseCollateral c' sa lid o tok amt st1 = Ok (st2, [mkTokenTransfer tok sa o amt]) /\
    position_of st2 lid = mkCollateralPosition o tok 0 (now c) lid false.
Proof.
  intros H Hc. unfold lockCollateral, onlyPaymentController in H. ok_steps. bool_to_prop.
  split; [reflexivity |]. split.
  - intros c'' o' tok' amt' x Hx. unfold lockCollateral in Hx. ok_steps. bool_to_prop.
    rewrite position_of_set_position in *. simpl in *. discriminate.
  - eexists. split.
    + unfold releaseCollateral, onlyPaymentController, require. cbv zeta.
      rewrite position_of_set_position. cbn [paymentControllerRole set_position].
      rewrite (bool_decide_eq_true_2 _ Hc). cbn.
      rewrite !Z.eqb_refl, Z.leb_refl. cbn. unfold csub. rewrite Z.leb_refl, Z.sub_diag.
      reflexivity.
    + rewrite position_of_set_position. reflexivity.
Qed.

(** The lock flag of every collateral position tells whether it holds
    collateral: it is set exactly while the amount is positive. This holds
    in an empty contract and [lockCollateral], [releaseCollateral] and
    [liquidateCollateral] keep it, so a position released or liquidated to
    zero is unlocked and can be locked again. *)
Theorem positions_ok_preserved :
  (forall st, collateralPositions st = ∅ -> positions_ok st) /\
  (forall c sa o tok amt lid st st' ts, positions_ok st ->
     lockCollateral c sa o tok amt lid st = Ok (st', ts) -> positions_ok st') /\
  (forall c sa lid o tok amt st st' ts, positions_ok st ->
     releaseCollateral c sa lid o tok amt st = Ok (st', ts) -> positions_ok st') /\
  (forall c lid tok amt st st' r, positions_ok st ->
     liquidateCollateral c lid tok amt st = Ok (st', r) -> positions_ok st').
Proof.
  split; [| split; [| split]].
  - intros st H lid. unfold position_of. rewrite H, lookup_empty. simpl.
    split; [lia | split; [discriminate | lia]].
  - intros c sa o tok amt lid st st' ts Hok H. unfold lockCollateral in H. ok_steps. bool_to_prop.
    apply positions_ok_set; [exact Hok | simpl; lia | simpl; split; [lia | reflexivity]].
  - intros c sa lid o tok amt st st' ts Hok H. unfold releaseCollateral in H. cbv zeta in H.
    ok_steps. bool_to_prop.
    apply positions_ok_set; [exact Hok | simpl; lia |]. simpl.
    match goal with Hl : isLocked (position_of st lid) = true |- _ => rewrite Hl end.
    destruct (Z.eqb_spec (amount (position_of st lid) - amt) 0); split; intros; try lia;
      first [discriminate | reflexivity].
  - intros c lid tok amt st st' r Hok H. unfold liquidateCollateral in H. cbv zeta in H.
    ok_steps. bool_to_prop.
    apply positions_ok_set; [exact Hok | simpl; lia |]. simpl.
    match goal with Hl : isLocked (position_of st lid) = true |- _ => rewrite Hl end.
    destruct (Z.eqb_spec (amount (position_of st lid) - amt) 0); split; intros; try lia;
      first [discriminate | reflexivity].
Qed.

(** [supportedTokens] lists every supported token exactly once: this holds
    before any token is configured, and [configureToken] (which appends a
    token only when it was not supported) and [removeTokenSupport] (whose
    loop swaps the token with the last entry and pops) keep it. *)
Theorem registry_ok_preserved :
  (forall st, tokenConfigs st = ∅ -> registry_ok (mkStorage st [])) /\
  (forall admins c tok th b m f s s', registry_ok s ->
     configureToken admins c tok th b m f s = Ok s' -> registry_ok s') /\
  (forall admins c tok s s', registry_ok s ->
     removeTokenSupport admins c tok s = Ok s' -> registry_ok s').
Proof.
  split; [| split].
  - intros st H. split; [constructor |]. intros t. simpl.
    unfold config_of. rewrite H, lookup_empty. simpl. split; [set_solver | discriminate].
  - intros admins c tok th b m f s s' [Hnd Hiff] H. unfold configureToken, onlyRole in H.
    cbv zeta in H. ok_steps. bool_to_prop. unfold registry_ok. simpl.
    destruct (isSupported (config_of (cm s) tok)) eqn:Es.
    + split; [exact Hnd |]. intros t. rewrite Hiff.
      destruct (decide (t = tok)) as [->|Hne].
      * rewrite config_of_set_config, Es. simpl. tauto.
      * rewrite config_of_set_config_ne by congruence. tauto.
    + assert (Hnot : tok ∉ supportedTokens s) by (rewrite Hiff; congruence).
      split.
      * apply NoDup_app. split; [exact Hnd |]. split; [| apply NoDup_singleton].
        intros x Hx Hx'. apply list_elem_of_singleton in Hx'. subst. contradiction.
      * intros t. rewrite elem_of_app, list_elem_of_singleton, Hiff.
        destruct (decide (t = tok)) as [->|Hne].
        -- rewrite config_of_set_config, Es. simpl. split; auto.
        -- rewrite config_of_set_config_ne by congruence.
           split; [intros [?|?]; [done | congruence] | auto].
  - intros admins c tok s s' [Hnd Hiff] H. unfold removeTokenSupport, onlyRole in H.
    cbv zeta in H. ok_steps. bool_to_prop.
    match goal with Hs : isSupported (config_of (cm s) tok) = true |- _ =>
      assert (Hin : tok ∈ supportedTokens s) by (apply Hiff; exact Hs) end.
    destruct (remove_loop_delete _ _ Hnd Hin) as [k [Hk Hperm]].
    destruct (delete_NoDup_elem _ _ _ Hnd Hk) as [Hnd' Hmem].
    unfold registry_ok. simpl. split; [rewrite Hperm; exact Hnd' |].
    intros t. rewrite Hperm, Hmem, Hiff. destruct (decide (t = tok)) as [->|Hne].
    + rewrite config_of_set_config. simpl. split; [intros [_ Hc]; congruence | discriminate].
    + rewrite config_of_set_config_ne by congruence. tauto.
Qed.

(** Once [removeTokenSupport] has delisted a token, its price can no longer
    be read, no collateral can be locked in it and no position in it can be
    liquidated; releasing collateral in that token still works exactly as
    before. *)
Theorem removeTokenSupport_effects admins c tok s s' :
  removeTokenSupport admins c tok s = Ok s' ->
  getTokenPrice (cm s') tok = Revert "CollateralManager: Token not supported" /\
  (forall c' sa o amt lid, sender c' ∈ paymentControllerRole (cm s) -> o <> 0 -> tok <> 0 -> 0 < amt ->
     lockCollateral c' sa o tok amt lid (cm s') = Revert "CollateralManager: Token not supported") /\
  (forall c' lid amt x, liquidateCollateral c' lid tok amt (cm s') <> Ok x) /\
  (forall c' sa lid o amt st1 ts, releaseCollateral c' sa lid o tok amt (cm s) = Ok (st1, ts) ->
     exists st1', releaseCollateral c' sa lid o tok amt (cm s') = Ok (st1', ts)).
Proof.
  intros H. unfold removeTokenSupport, onlyRole in H. cbv zeta in H. ok_steps.
  assert (Hp : getTokenPrice (set_config (cm s) tok
                 (mkTokenConfig false (liquidationThreshold (config_of (cm s) tok))
                    (liquidationBonus (config_of (cm s) tok)) (maxLoanToValue (config_of (cm s) tok))
                    (priceFeed (config_of (cm s) tok)))) tok =
               Revert "CollateralManager: Token not supported").
  { unfold getTokenPrice. rewrite config_of_set_config. reflexivity. }
  cbn [cm]. split; [exact Hp |]. split; [| split].
  - intros c' sa o amt lid Hc Ho Ht Ha. unfold lockCollateral, onlyPaymentController, require.
    cbn [paymentControllerRole set_config]. rewrite (bool_decide_eq_true_2 _ Hc). cbn.
    rewrite (proj2 (Z.eqb_neq o 0) Ho), (proj2 (Z.eqb_neq tok 0) Ht), (proj2 (Z.ltb_lt 0 amt) Ha).
    cbn. rewrite config_of_set_config. reflexivity.
  - intros c' lid amt x Hx. unfold liquidateCollateral in Hx. cbv zeta in Hx. ok_steps.
    match goal with Hg : getTokenPrice _ tok = Ok _ |- _ => rewrite Hp in Hg; discriminate end.
  - intros c' sa lid o amt st1 ts Hr. rewrite releaseCollateral_set_config, Hr. eauto.
Qed.

(** After [updateTokenPrice] the token's price reads back as the new price,
    and every other token's price reads as before. *)
Theorem updateTokenPrice_getTokenPrice oracles c tok price st st' :
  updateTokenPrice oracles c tok price st = Ok st' ->
  getTokenPrice st' tok = Ok price /\
  forall t, t <> tok -> getTokenPrice st' t = getTokenPrice st t.
Proof.
  unfold updateTokenPrice, onlyRole. intros H. ok_steps. bool_to_prop. split.
  - unfold getTokenPrice, require.
    change (config_of (set_price st tok price) tok) with (config_of st tok).
    match goal with Hs : isSupported (config_of st tok) = true |- _ => rewrite Hs end.
    cbv zeta. unfold price_of, set_price. cbn [tokenPrices]. rewrite lookup_insert_eq. cbn.
    rewrite (proj2 (Z.ltb_lt 0 price)) by lia. reflexivity.
  - intros t Hne. unfold getTokenPrice, price_of, set_price. cbn [tokenPrices].
    rewrite lookup_insert_ne by congruence. reflexivity.
Qed.

(** [calculateMaxLoan] never exceeds the collateral's value: for a token
    whose [maxLoanToValue] is at most 100% (as [configureToken] requires)
    and a non-negative amount, a successful [calculateMaxLoan] returns a
    non-negative amount at most [getCollateralValue] of the same
    collateral. *)
Theorem calculateMaxLoan_within_value st tok amt m :
  0 <= maxLoanToValue (config_of st tok) <= BASIS_POINTS -> 0 <= amt ->
  calculateMaxLoan st tok amt = Ok m ->
  exists v, getCollateralValue st tok amt = Ok v /\ 0 <= m <= v.
Proof.
  intros Hltv Ha H. unfold calculateMaxLoan in H. ok_steps.
  match goal with Hv : getCollateralValue _ _ _ = Ok ?v |- _ =>
    exists v; split; [exact Hv |];
    unfold getCollateralValue in Hv; ok_steps end.
  match goal with Hg : getTokenPrice _ _ = Ok _ |- _ => apply getTokenPrice_Ok in Hg as (_ & _ & Hp) end.
  match goal with Hs : cpow10 _ = Ok _ |- _ => apply cpow10_Ok in Hs as -> end.
  unfold BASIS_POINTS in *.
  set (cv := amt * _ / 10 ^ _).
  assert (Hcv : 0 <= cv).
  { unfold cv. destruct (Z.eq_dec (10 ^ decimals_of st tok) 0) as [->|Hz].
    - rewrite Z.div_0_r. lia.
    - apply Z.div_pos; [nia |]. pose proof (Z.pow_nonneg 10 (decimals_of st tok)). lia. }
  split; [apply Z.div_pos; nia |].
  apply Z.div_le_upper_bound; nia.
Qed.

(** [setLiquidationDelay] never sets a delay above 7 days; with such a
    delay, once 7 days have passed since a position was locked,
    [liquidateCollateral] never fails with the delay error. *)
Theorem liquidation_delay_bounded :
  (forall admins c d st st', setLiquidationDelay admins c d st = Ok st' ->
     liquidationDelay st' = d /\ d <= 7 * 86400) /\
  (forall c lid tok amt st,
     liquidationDelay st <= 7 * 86400 ->
     lockedAt (position_of st lid) + 7 * 86400 <= now c ->
     liquidateCollateral c lid tok amt st <> Revert "CollateralManager: Liquidation delay not met").
Proof.
  split.
  - intros admins c d st st' H. unfold setLiquidationDelay, onlyRole in H. ok_steps. bool_to_prop.
    split; [reflexivity | lia].
  - intros c lid tok amt st Hd Ht.
    unfold liquidateCollateral, onlyPaymentController, getTokenPrice, cpow10. cbv zeta.
    cbv beta iota delta [mbind result_bind mret result_ret require cadd csub cmul].
    repeat match goal with
           | |- context [if ?b then _ else _] =>
               let E := fresh "E" in destruct b eqn:E; bool_to_prop; try lia
           end.
    all: discriminate.
Qed.

Ltac concrete_cm :=
  first [ reflexivity | vm_compute; reflexivity | vm_compute; discriminate
        | vm_compute; intros ?; discriminate ].

Lemma lock_release_roundtrip_witness :
  exists st1 st2,
    lockCollateral after_delay_ctx 100 41 50 300 2 (cm_state 2) =
      Ok (st1, [mkTokenTransfer 50 41 100 300]) /\
    releaseCollateral after_delay_ctx 100 2 41 50 300 st1 =
      Ok (st2, [mkTokenTransfer 50 100 41 300]) /\
    isLocked (position_of st2 2) = false.
Proof.
  destruct (lockCollateral after_delay_ctx 100 41 50 300 2 (cm_state 2)) as [[st1 ts]|r] eqn:E;
    [| vm_compute in E; discriminate].
  destruct (lock_release_roundtrip after_delay_ctx after_delay_ctx 100 41 50 300 2 (cm_state 2)
              st1 ts E ltac:(set_solver)) as (-> & _ & st2 & Hr & Hp).
  exists st1, st2. split; [reflexivity |]. split; [exact Hr |]. rewrite Hp. reflexivity.
Defined.

Lemma removeTokenSupport_effects_witness :
  exists s', removeTokenSupport {[3]} cm_admin_ctx 50 cm_storage = Ok s' /\
    getTokenPrice (cm s') 50 = Revert "CollateralManager: Token not supported" /\
    lockCollateral after_delay_ctx 100 41 50 300 2 (cm s') =
      Revert "CollateralManager: Token not supported".
Proof.
  destruct (removeTokenSupport {[3]} cm_admin_ctx 50 cm_storage) as [s'|r] eqn:E;
    [| vm_compute in E; discriminate].
  destruct (removeTokenSupport_effects {[3]} cm_admin_ctx 50 cm_storage s' E) as (Hp & Hl & _).
  exists s'. split; [reflexivity |]. split; [exact Hp |].
  apply Hl; [set_solver | lia | lia | lia].
Defined.

Lemma updateTokenPrice_getTokenPrice_witness :
  exists st', updateTokenPrice {[5]} cm_oracle_ctx 50 3 (cm_state 2) = Ok st' /\
    getTokenPrice st' 50 = Ok 3.
Proof.
  destruct (updateTokenPrice {[5]} cm_oracle_ctx 50 3 (cm_state 2)) as [st'|r] eqn:E;
    [| vm_compute in E; discriminate].
  exists st'. split; [reflexivity |].
  exact (proj1 (updateTokenPrice_getTokenPrice {[5]} cm_oracle_ctx 50 3 (cm_state 2) st' E)).
Defined.

Lemma calculateMaxLoan_within_value_witness :
  calculateMaxLoan (cm_state 2) 50 500 = Ok 700 /\
  exists v, getCollateralValue (cm_state 2) 50 500 = Ok v /\ 0 <= 700 <= v.
Proof.
  assert (H : calculateMaxLoan (cm_state 2) 50 500 = Ok 700) by concrete_cm.
  split; [exact H |].
  apply (calculateMaxLoan_within_value (cm_state 2) 50 500 700); [| lia | exact H].
  split; concrete_cm.
Defined.

End CollateralManagerMoreProofs.
